(** * Variational dropout layers and their conversion engine

    A shallow embedding of [variational_dropout.py]: the variational-dropout
    (VD) variants of the linear and convolution layers, the recurrent layers
    built on them, the conversion of a plain network into its VD variant, the
    sparsity statistics and the loss orchestration of
    [VariationalDropoutChain].

    Conventions.
    - The entries of numpy arrays and the scalars computed from them are
      idealised as real numbers: their rounding is not modelled.  The
      attributes [warm_up] and [kl_coef] of the chain are binary64 numbers,
      with the arithmetic and the comparisons of Python floats.
    - A Python exception is a value of [exn]; code that can raise returns a
      [result].
    - A chain's children are a finite map from attribute names to links (the
      [_children] set of a chain together with its attribute dictionary).
    - The path name ['/a/b'] of [namedlinks] is the list of its segments
      [["a"; "b"]]; it is joined again wherever the source compares names.
    - Functions of modules that are imported by the source but whose code is
      not at hand ([vd_functions], [sparse_chainer], and the numerical
      kernels of the host framework) are the fields of the class [Host]. *)

From Stdlib Require Import Floats.PrimFloat Floats.SpecFloat Floats.FloatOps.
From Stdlib Require Import Reals Lra Lia ZArith.
From stdpp Require Import gmap strings list fin_maps sorting.

#[global] Instance R_eq_dec : EqDecision R := Req_dec_T.
#[global] Instance Rlt_decision : RelDecision Rlt := Rlt_dec.
#[global] Instance Rle_decision : RelDecision Rle := Rle_dec.

(** ** Exceptions *)

Inductive exn :=
| AttributeError (attr : string)
| UnboundLocalError (var : string)
| IndexError
| ValueError
| ZeroDivisionError
| AssertionError
| NotImplementedError
| KeyError (key : string)
| RecursionError.

Inductive result (A : Type) :=
| Ok (a : A)
| Raise (e : exn).
Arguments Ok {A} a.
Arguments Raise {A} e.

#[global] Instance result_ret : MRet result := @Ok.
#[global] Instance result_bind : MBind result :=
  λ A B f m, match m with Ok a => f a | Raise e => Raise e end.
#[global] Instance result_fmap : FMap result :=
  λ A B f m, match m with Ok a => Ok (f a) | Raise e => Raise e end.

Definition is_ok {A} (r : result A) : bool :=
  match r with Ok _ => true | Raise _ => false end.

(** ** Arrays *)

Record ndarray := NdArray { shape : list nat; data : list R }.

Definition prod_shape (sh : list nat) : nat := foldr Nat.mul 1 sh.

(** [a.size] *)
Definition size (a : ndarray) : nat := prod_shape (shape a).

(** [a.flatten()] *)
Definition flatten (a : ndarray) : ndarray :=
  NdArray [length (data a)] (data a).

(** [xp.concatenate(arrays, axis=0)] on one-dimensional arrays *)
Definition concatenate (l : list ndarray) : ndarray :=
  let d := concat (data <$> l) in NdArray [length d] d.

(** [xp.zeros(shape)] *)
Definition zeros (sh : list nat) : ndarray :=
  NdArray sh (replicate (prod_shape sh) 0%R).

(** Element-wise operations; operands of a binary operation have the same
    shape in every use the source makes of them. *)
Definition ew1 (f : R → R) (a : ndarray) : ndarray :=
  NdArray (shape a) (f <$> data a).
Definition ew2 (f : R → R → R) (a b : ndarray) : ndarray :=
  NdArray (shape a) (zip_with f (data a) (data b)).

Definition nd_add : ndarray → ndarray → ndarray := ew2 Rplus.
Definition nd_mul : ndarray → ndarray → ndarray := ew2 Rmult.
Definition F_exp : ndarray → ndarray := ew1 exp.
Definition F_sqrt : ndarray → ndarray := ew1 sqrt.
Definition F_tanh : ndarray → ndarray := ew1 tanh.

(** [a > t] as an array of 0/1 *)
Definition nd_gt (a : ndarray) (t : R) : ndarray :=
  ew1 (λ v, if Rlt_dec t v then 1%R else 0%R) a.

(** [1. - mask] *)
Definition one_minus : ndarray → ndarray := ew1 (λ m, (1 - m)%R).

(** [dst[:] = src]: the values of [src] written into the storage of [dst].
    The source only assigns arrays of the shape of [dst]; broadcasting of a
    smaller array is not modelled and a different shape is an error. *)
Definition assign_all (dst src : ndarray) : result ndarray :=
  if bool_decide (shape dst = shape src)
  then Ok (NdArray (shape dst) (data src))
  else Raise ValueError.

(** [numpy.any(a == b)] *)
Definition np_any_eq (a b : ndarray) : bool :=
  existsb (λ xy : R * R, bool_decide (xy.1 = xy.2)) (zip (data a) (data b)).

(** [F.concat([x, h], axis=1)] on two matrices *)
Fixpoint chunks (n : nat) (k : nat) (l : list R) : list (list R) :=
  match n with
  | O => []
  | S n' => take k l :: chunks n' k (drop k l)
  end.

Definition F_concat (x h : ndarray) : result ndarray :=
  match shape x, shape h with
  | [n; k1], [n'; k2] =>
      if bool_decide (n = n') then
        Ok (NdArray [n; k1 + k2]
              (concat (zip_with app (chunks n k1 (data x))
                                    (chunks n k2 (data h)))))
      else Raise ValueError
  | _, _ => Raise ValueError
  end.

(** [F.bias(x, b)] with the default [axis=1]: [b] is broadcast along the
    channel axis. *)
Definition F_bias (x : ndarray) (b : option ndarray) : result ndarray :=
  match b with
  | None => Raise (AttributeError "shape")
  | Some b =>
      match shape x with
      | _ :: c :: rest =>
          let inner := prod_shape rest in
          Ok (NdArray (shape x)
                (imap (λ i v, (v + nth ((i / inner) mod c) (data b) 0)%R)
                      (data x)))
      | _ => Raise ValueError
      end
  end.

(** ** Parameters *)

(** An initializer fills an array of a requested shape. *)
Definition initializer := list nat → list R.

(** [chainer.initializers.Constant(c)] *)
Definition Constant (c : R) : initializer :=
  λ sh, replicate (prod_shape sh) c.

(** A parameter of a link; [pdata = None] while it is not materialized. *)
Record parameter := MkParam {
  pinit : initializer;
  pdata : option ndarray
}.

(** [p.initialize(shape)] *)
Definition initialize (p : parameter) (sh : list nat) : parameter :=
  MkParam (pinit p) (Some (NdArray sh (pinit p sh))).

(** A parameter created without and with a shape *)
Definition new_parameter (i : initializer) (sh : option (list nat))
  : parameter :=
  match sh with
  | None => MkParam i None
  | Some sh => initialize (MkParam i None) sh
  end.

(** [p.shape] and [p.size] fail on a parameter that has no data yet. *)
Definition param_shape (p : parameter) : result (list nat) :=
  match pdata p with
  | Some a => Ok (shape a)
  | None => Raise (AttributeError "shape")
  end.

Definition param_size (p : parameter) : result nat :=
  match pdata p with
  | Some a => Ok (size a)
  | None => Raise (AttributeError "size")
  end.

(** ** Constants of the module *)

Definition P_THRESHOLD : R := (95 / 100)%R.
Definition LOGA_THRESHOLD : R := 3%R.
Definition INITIAL_LOG_SIGMA2 : initializer := Constant (-10)%R.

(** ** Devices *)

Inductive device :=
| CPU
| GPU (id : nat).

(** [link._cpu] *)
Definition _cpu (d : device) : bool :=
  match d with CPU => true | GPU _ => false end.

(** The ambient configuration read by the layers. *)
Record config := Config {
  train : bool;
  user_memory_efficiency : Z
}.

(** ** Plain layers of the host framework *)

(** A kernel size, stride or padding is an integer or a pair. *)
Inductive int_or_pair :=
| KInt (k : nat)
| KPair (kh kw : nat).

Definition _pair (x : int_or_pair) : nat * nat :=
  match x with
  | KPair kh kw => (kh, kw)
  | KInt k => (k, k)
  end.

Definition of_pair (p : nat * nat) : int_or_pair := KPair p.1 p.2.

(** [chainer.links.Linear]; [lin_b = None] when built with [nobias]. *)
Record Linear := MkLinear {
  lin_out_size : nat;
  lin_W : parameter;
  lin_b : option parameter;
  lin_device : device
}.

(** [chainer.links.Convolution2D] *)
Record Convolution2D := MkConvolution2D {
  conv_out_channels : nat;
  conv_ksize : int_or_pair;
  conv_stride : nat * nat;
  conv_pad : nat * nat;
  conv_W : parameter;
  conv_b : option parameter;
  conv_device : device
}.

(** ** Variational-dropout layers *)

Record VariationalDropoutLinear := MkVDLinear {
  vdl_base : Linear;
  vdl_log_sigma2 : parameter;
  vdl_p_threshold : R;
  vdl_loga_threshold : R
}.

Record VariationalDropoutConvolution2D := MkVDConvolution2D {
  vdc_base : Convolution2D;
  vdc_log_sigma2 : parameter;
  vdc_p_threshold : R;
  vdc_loga_threshold : R
}.

(** The inference-only link of [sparse_chainer]: the attributes the source
    reads from it. *)
Record SparseLinearForwardCPU := MkSparse {
  sparse_W : ndarray;
  sparse_b : option ndarray
}.

(** A leaf link of any other class, with its named parameters. *)
Record OtherLink := MkOther {
  other_class : string;
  other_params : gmap string parameter;
  other_device : device
}.

Inductive leaf :=
| LLinear (l : Linear)
| LConvolution2D (c : Convolution2D)
| LVDLinear (l : VariationalDropoutLinear)
| LVDConvolution2D (c : VariationalDropoutConvolution2D)
| LSparse (s : SparseLinearForwardCPU) (d : device)
| LOther (o : OtherLink).

(** A network: a leaf link, or a chain with its named children. *)
#[warnings="-register-all"]
Inductive link :=
| Leaf (l : leaf)
| Chain (dev : device) (children : gmap string link).

Definition path := list string.

(** Output of [print] and [warnings.warn], in order. *)
Inductive event :=
| PrintMake
| PrintReplace (name : string)
| PrintRetain (name : string)
| PrintSparsifying
| PrintSparsified (name : string) (n_old n_new : nat) (percent : R)
| PrintRetainParams (name : string) (n_old : nat)
| PrintTotal (n_old n_new : nat) (percent : R)
| WarnThreshold
| WarnSparseCPU.

(** *** Attributes of leaves *)

(** [getattr(link, 'is_variational_dropout', False)] *)
Definition is_variational_dropout (l : leaf) : bool :=
  match l with
  | LVDLinear _ | LVDConvolution2D _ => true
  | _ => false
  end.

(** [getattr(link, 'is_variational_dropout_linear', False)] *)
Definition is_variational_dropout_linear (l : leaf) : bool :=
  match l with
  | LVDLinear _ => true
  | _ => false
  end.

(** [type(link) in [L.Linear, L.Convolution2D]] *)
Definition is_plain (l : leaf) : bool :=
  match l with
  | LLinear _ | LConvolution2D _ => true
  | _ => false
  end.

(** [link.W] *)
Definition leaf_W (l : leaf) : result parameter :=
  match l with
  | LLinear l => Ok (lin_W l)
  | LConvolution2D c => Ok (conv_W c)
  | LVDLinear l => Ok (lin_W (vdl_base l))
  | LVDConvolution2D c => Ok (conv_W (vdc_base c))
  | LSparse _ _ => Raise (AttributeError "W")
  | LOther o =>
      match other_params o !! "W" with
      | Some p => Ok p
      | None => Raise (AttributeError "W")
      end
  end.

(** [getattr(link, 'b', None)] *)
Definition leaf_b (l : leaf) : option parameter :=
  match l with
  | LLinear l => lin_b l
  | LConvolution2D c => conv_b c
  | LVDLinear l => lin_b (vdl_base l)
  | LVDConvolution2D c => conv_b (vdc_base c)
  | LSparse _ _ => None
  | LOther o => other_params o !! "b"
  end.

Definition set_pdata (p : parameter) (a : ndarray) : parameter :=
  MkParam (pinit p) (Some a).

Definition with_lin_W (l : Linear) (W : parameter) : Linear :=
  MkLinear (lin_out_size l) W (lin_b l) (lin_device l).
Definition with_lin_b (l : Linear) (b : option parameter) : Linear :=
  MkLinear (lin_out_size l) (lin_W l) b (lin_device l).
Definition with_lin_device (l : Linear) (d : device) : Linear :=
  MkLinear (lin_out_size l) (lin_W l) (lin_b l) d.

Definition with_conv_W (c : Convolution2D) (W : parameter) : Convolution2D :=
  MkConvolution2D (conv_out_channels c) (conv_ksize c) (conv_stride c)
    (conv_pad c) W (conv_b c) (conv_device c).
Definition with_conv_b (c : Convolution2D) (b : option parameter)
  : Convolution2D :=
  MkConvolution2D (conv_out_channels c) (conv_ksize c) (conv_stride c)
    (conv_pad c) (conv_W c) b (conv_device c).
Definition with_conv_device (c : Convolution2D) (d : device)
  : Convolution2D :=
  MkConvolution2D (conv_out_channels c) (conv_ksize c) (conv_stride c)
    (conv_pad c) (conv_W c) (conv_b c) d.

Definition with_vdl_base (l : VariationalDropoutLinear) (b : Linear)
  : VariationalDropoutLinear :=
  MkVDLinear b (vdl_log_sigma2 l) (vdl_p_threshold l) (vdl_loga_threshold l).
Definition with_vdl_log_sigma2 (l : VariationalDropoutLinear) (p : parameter)
  : VariationalDropoutLinear :=
  MkVDLinear (vdl_base l) p (vdl_p_threshold l) (vdl_loga_threshold l).

Definition with_vdc_base (c : VariationalDropoutConvolution2D)
    (b : Convolution2D) : VariationalDropoutConvolution2D :=
  MkVDConvolution2D b (vdc_log_sigma2 c) (vdc_p_threshold c)
    (vdc_loga_threshold c).
Definition with_vdc_log_sigma2 (c : VariationalDropoutConvolution2D)
    (p : parameter) : VariationalDropoutConvolution2D :=
  MkVDConvolution2D (vdc_base c) p (vdc_p_threshold c) (vdc_loga_threshold c).

(** [link.W.data[:] = a] and [link.b.data[:] = a] on a link whose parameter
    holds data *)
Definition assign_param (p : parameter) (a : ndarray) : result parameter :=
  match pdata p with
  | Some d => set_pdata p <$> assign_all d a
  | None => Raise (AttributeError "__setitem__")
  end.

Definition assign_b (b : option parameter) (a : ndarray)
  : result (option parameter) :=
  match b with
  | Some p => Some <$> assign_param p a
  | None => Raise (AttributeError "data")
  end.

Definition leaf_assign_W (l : leaf) (a : ndarray) : result leaf :=
  match l with
  | LLinear l => LLinear ∘ with_lin_W l <$> assign_param (lin_W l) a
  | LConvolution2D c =>
      LConvolution2D ∘ with_conv_W c <$> assign_param (conv_W c) a
  | LVDLinear l =>
      LVDLinear ∘ with_vdl_base l ∘ with_lin_W (vdl_base l)
        <$> assign_param (lin_W (vdl_base l)) a
  | LVDConvolution2D c =>
      LVDConvolution2D ∘ with_vdc_base c ∘ with_conv_W (vdc_base c)
        <$> assign_param (conv_W (vdc_base c)) a
  | _ => Raise (AttributeError "W")
  end.

Definition leaf_assign_b (l : leaf) (a : ndarray) : result leaf :=
  match l with
  | LLinear l => LLinear ∘ with_lin_b l <$> assign_b (lin_b l) a
  | LConvolution2D c =>
      LConvolution2D ∘ with_conv_b c <$> assign_b (conv_b c) a
  | LVDLinear l =>
      LVDLinear ∘ with_vdl_base l ∘ with_lin_b (vdl_base l)
        <$> assign_b (lin_b (vdl_base l)) a
  | LVDConvolution2D c =>
      LVDConvolution2D ∘ with_vdc_base c ∘ with_conv_b (vdc_base c)
        <$> assign_b (conv_b (vdc_base c)) a
  | _ => Raise (AttributeError "b")
  end.

Definition leaf_device (l : leaf) : device :=
  match l with
  | LLinear l => lin_device l
  | LConvolution2D c => conv_device c
  | LVDLinear l => lin_device (vdl_base l)
  | LVDConvolution2D c => conv_device (vdc_base c)
  | LSparse _ d => d
  | LOther o => other_device o
  end.

(** [link.to_cpu()] and [link.to_gpu(id)] on a leaf: the arrays keep their
    values. *)
Definition leaf_to_device (d : device) (l : leaf) : leaf :=
  match l with
  | LLinear l => LLinear (with_lin_device l d)
  | LConvolution2D c => LConvolution2D (with_conv_device c d)
  | LVDLinear l => LVDLinear (with_vdl_base l (with_lin_device (vdl_base l) d))
  | LVDConvolution2D c =>
      LVDConvolution2D (with_vdc_base c (with_conv_device (vdc_base c) d))
  | LSparse s _ => LSparse s d
  | LOther o => LOther (MkOther (other_class o) (other_params o) d)
  end.

(** [link.params()] of a leaf *)
Definition leaf_params (l : leaf) : list parameter :=
  match l with
  | LLinear l => lin_W l :: option_list (lin_b l)
  | LConvolution2D c => conv_W c :: option_list (conv_b c)
  | LVDLinear l =>
      lin_W (vdl_base l) :: option_list (lin_b (vdl_base l))
        ++ [vdl_log_sigma2 l]
  | LVDConvolution2D c =>
      conv_W (vdc_base c) :: option_list (conv_b (vdc_base c))
        ++ [vdc_log_sigma2 c]
  | LSparse _ _ => []
  | LOther o => (map_to_list (other_params o)).*2
  end.

(** *** Traversals of a network *)

Definition link_device (l : link) : device :=
  match l with
  | Leaf lf => leaf_device lf
  | Chain d _ => d
  end.

(** The array module [link.xp] *)
Inductive array_module :=
| numpy
| cupy.

#[global] Instance array_module_eq_dec : EqDecision array_module.
Proof. solve_decision. Defined.

Definition xp (l : link) : array_module :=
  if _cpu (link_device l) then numpy else cupy.

(** [isinstance(link, chainer.Chain)] *)
Definition is_chain (l : link) : bool :=
  match l with
  | Chain _ _ => true
  | Leaf _ => false
  end.

(** [link.links(skipself=True)]: every descendant, at any depth. *)
Fixpoint links_skipself (l : link) : list link :=
  match l with
  | Leaf _ => []
  | Chain _ ch =>
      map_fold (λ (_ : string) (c : link) (acc : list link),
                  (c :: links_skipself c) ++ acc) [] ch
  end.

(** [link.links()] *)
Definition links (l : link) : list link := l :: links_skipself l.

(** [link.namedlinks(skipself=True)]: every descendant with its path. *)
Fixpoint namedlinks (l : link) : list (path * link) :=
  match l with
  | Leaf _ => []
  | Chain _ ch =>
      map_fold (λ (name : string) (c : link) (acc : list (path * link)),
                  (([name], c)
                     :: map (λ e : path * link, (name :: e.1, e.2))
                            (namedlinks c)) ++ acc) [] ch
  end.

(** [link.params()] *)
Fixpoint params (l : link) : list parameter :=
  match l with
  | Leaf lf => leaf_params lf
  | Chain _ ch =>
      map_fold (λ (_ : string) (c : link) (acc : list parameter),
                  params c ++ acc) [] ch
  end.

(** [link.to_cpu()] *)
Fixpoint to_cpu (l : link) : link :=
  match l with
  | Leaf lf => Leaf (leaf_to_device CPU lf)
  | Chain _ ch => Chain CPU (to_cpu <$> ch)
  end.

(** Nesting depth of a network; it bounds the recursion of the traversals
    below. *)
Fixpoint height (l : link) : nat :=
  match l with
  | Leaf _ => 0
  | Chain _ ch =>
      S (map_fold (λ (_ : string) (c : link) (acc : nat),
                     height c `max` acc) 0 ch)
  end.

(** The name ['/a/b'] that [namedlinks] yields for the path [a; b], and the
    name ['a/b'] left by [name.lstrip('/')]. *)
Definition full_name (p : path) : string :=
  String.concat "" ((λ s, "/" +:+ s) <$> p).

Definition raw_name_str (p : path) : string := String.concat "/" p.

(** [sorted(link.namedlinks(skipself=True), key=lambda x: x[0])] *)
Definition name_le (a b : path * link) : Prop :=
  String.leb (full_name a.1) (full_name b.1) = true.

#[global] Instance name_le_dec : RelDecision name_le.
Proof. intros a b. unfold name_le. apply _. Defined.

Definition sorted_namedlinks (l : link) : list (path * link) :=
  merge_sort name_le (namedlinks l).

(** The object reached from [l] along a path, and the network with that
    object mutated. *)
Fixpoint lookup_path (p : path) (l : link) : option link :=
  match p with
  | [] => Some l
  | n :: p' =>
      match l with
      | Chain _ ch => ch !! n ≫= lookup_path p'
      | Leaf _ => None
      end
  end.

Fixpoint replace_path (p : path) (new : link) (l : link) : link :=
  match p with
  | [] => new
  | n :: p' =>
      match l with
      | Chain d ch =>
          match ch !! n with
          | Some c => Chain d (<[n := replace_path p' new c]> ch)
          | None => l
          end
      | Leaf _ => l
      end
  end.

(** [delattr(parent, name)] *)
Definition delattr (parent : link) (name : string) : result link :=
  match parent with
  | Chain d ch =>
      match ch !! name with
      | Some _ => Ok (Chain d (delete name ch))
      | None => Raise (AttributeError name)
      end
  | Leaf _ => Raise (AttributeError name)
  end.

(** [parent.add_link(name, link)] *)
Definition add_link (parent : link) (name : string) (l : link)
  : result link :=
  match parent with
  | Chain d ch =>
      match ch !! name with
      | Some _ => Raise (AttributeError name)
      | None => Ok (Chain d (<[name := l]> ch))
      end
  | Leaf _ => Raise (AttributeError "add_link")
  end.

(** ** Values computed on the way of a loss *)

(** A scalar of the host framework: a real number, an infinity or NaN. *)
Inductive pyfloat :=
| Finite (r : R)
| PosInf
| NegInf
| NaN.

(** [xp.isnan(v)] *)
Definition isnan (v : pyfloat) : bool :=
  match v with NaN => true | _ => false end.

(** [xp.mean(a)] *)
Definition mean (a : ndarray) : pyfloat :=
  match length (data a) with
  | O => NaN
  | S _ => Finite (foldr Rplus 0 (data a) / INR (length (data a)))%R
  end.

(** [a.sum()] of a 0/1 array, as a count *)
Definition count_ones (a : ndarray) : nat :=
  length (filter (λ v, v = 1%R) (data a)).

(** Arithmetic of host scalars *)
Definition pf_add (a b : pyfloat) : pyfloat :=
  match a, b with
  | NaN, _ | _, NaN => NaN
  | PosInf, NegInf | NegInf, PosInf => NaN
  | PosInf, _ | _, PosInf => PosInf
  | NegInf, _ | _, NegInf => NegInf
  | Finite x, Finite y => Finite (x + y)
  end.

(** [v * k] for a finite Python float [k] *)
Definition pf_scale (a : pyfloat) (k : R) : pyfloat :=
  match a with
  | NaN => NaN
  | Finite x => Finite (x * k)
  | PosInf =>
      if Rlt_dec 0 k then PosInf else if Rlt_dec k 0 then NegInf else NaN
  | NegInf =>
      if Rlt_dec 0 k then NegInf else if Rlt_dec k 0 then PosInf else NaN
  end.

(** [a * b] *)
Definition pf_mul (a b : pyfloat) : pyfloat :=
  match b with
  | Finite k => pf_scale a k
  | NaN => NaN
  | PosInf =>
      match a with
      | Finite x => pf_scale PosInf x
      | NaN => NaN
      | PosInf => PosInf
      | NegInf => NegInf
      end
  | NegInf =>
      match a with
      | Finite x => pf_scale NegInf x
      | NaN => NaN
      | PosInf => NegInf
      | NegInf => PosInf
      end
  end.

(** ** Python floats

    A Python float is a binary64 number. *)

(** [bool(x)], the truth value of a float in a condition *)
Definition py_bool (x : float) : bool := negb (x =? 0)%float.

(** [min(a, b)]: the first argument unless the second is smaller *)
Definition py_min (a b : float) : float := if (b <? a)%float then b else a.

(** The value of a float, as a scalar of the host framework *)
Definition pf_of_float (x : float) : pyfloat :=
  match Prim2SF x with
  | S754_zero _ => Finite 0
  | S754_infinity s => if s then NegInf else PosInf
  | S754_nan => NaN
  | S754_finite s m e =>
      Finite (IZR (if s then Z.neg m else Z.pos m) * powerRZ 2 e)
  end.

(** The binary64 number that the literal [0.1] denotes *)
Definition tenth : float := 0x1.999999999999ap-4%float.

(** The value of [a_regf * self.kl_coef]: a variable of the framework when
    at least one KL term was summed, a plain Python float otherwise. *)
Inductive pyscalar :=
| Variable_ (v : pyfloat)
| PyFloat (r : float).

(** [v.data] *)
Definition scalar_data (v : pyscalar) : result pyfloat :=
  match v with
  | Variable_ d => Ok d
  | PyFloat _ => Raise (AttributeError "data")
  end.

(** [class_loss + kl_loss] *)
Definition scalar_add (a : pyfloat) (b : pyscalar) : pyfloat :=
  match b with
  | Variable_ d => pf_add a d
  | PyFloat r => pf_add a (pf_of_float r)
  end.

(** The dictionary returned by [calculate_stats]: a plain [dict], or a
    [defaultdict(float)]. *)
Record stats_dict := MkStats {
  entries : gmap string pyfloat;
  default_float : bool
}.

(** [stats[key]] *)
Definition getitem (s : stats_dict) (key : string) : result pyfloat :=
  match entries s !! key with
  | Some v => Ok v
  | None =>
      if default_float s then Ok (Finite 0) else Raise (KeyError key)
  end.

(** [p.data] of a parameter used in arithmetic *)
Definition param_data (p : parameter) : result ndarray :=
  match pdata p with
  | Some a => Ok a
  | None => Raise (AttributeError "data")
  end.

(** [x.shape[0]] *)
Definition shape0 (x : ndarray) : result nat :=
  match shape x with
  | n :: _ => Ok n
  | [] => Raise IndexError
  end.

(** [a // b] *)
Definition floordiv (a b : nat) : result nat :=
  match b with
  | O => Raise ZeroDivisionError
  | S _ => Ok (a / b)
  end.

(** [F.forget(f, x)] recomputes [f x] on the backward pass; its value is
    that of [f x]. *)
Definition F_forget {A B} (f : A → B) (x : A) : B := f x.

(** ** Recurrent layers and the chain *)

Record VariationalDropoutTanhRNN := MkTanhRNN {
  rnn_W : VariationalDropoutLinear;
  rnn_in_size : nat;
  rnn_out_size : nat;
  rnn_h : option ndarray
}.

Record VariationalDropoutLSTM := MkLSTM {
  upward : VariationalDropoutLinear;
  lateral : VariationalDropoutLinear;
  lstm_in_size : option nat;
  lstm_out_size : nat;
  lstm_h : option ndarray;
  lstm_c : option ndarray
}.

(** [VariationalDropoutChain]: the chain itself and the attributes that
    [__init__] and [calc_loss] set on it. *)
Record VariationalDropoutChain := MkVDChain {
  net : link;
  warm_up : float;
  kl_coef : float;
  attr_y : option ndarray;
  attr_class_loss : option pyfloat;
  attr_kl_loss : option pyscalar;
  attr_loss : option pyfloat;
  attr_accuracy : option pyfloat
}.

(** What [calc_loss] returns *)
Inductive loss_value :=
| Loss (loss : pyfloat)
| SplitLoss (class_loss : pyfloat) (kl_loss : pyscalar).

(** A call of [reporter.report] *)
Inductive report :=
| Report (key : string) (value : pyfloat).

(** ** The functions the module imports

    The imported functions whose code is not part of the module: the host
    framework and the modules [vd_functions] and [sparse_chainer]. *)
Class Host := {
  (** the initializer the framework uses when [initialW] is [None] *)
  default_initialW : initializer;
  (** [vd_functions.calculate_log_alpha(W, log_sigma2, eps,
      thresholds).data] *)
  calculate_log_alpha : parameter → parameter → R → R * R → ndarray;
  (** [vd_functions.calculate_kl(W, loga_threshold, log_sigma2, eps,
      thresholds)] *)
  calculate_kl : parameter → R → parameter → R → R * R → pyfloat;
  (** [vd_functions.vd_linear(x, W, b, loga_threshold, log_sigma2, eps,
      thresholds)], under a configuration and with a source of normal
      noise *)
  vd_linear :
    config → initializer → ndarray → parameter → option parameter → R →
    parameter → R → R * R → result ndarray;
  (** [sparse_chainer.SparseLinearForwardCPU(link, mask)] *)
  new_SparseLinearForwardCPU :
    VariationalDropoutLinear → ndarray → SparseLinearForwardCPU;
  (** [F.convolution_2d(x, W, b, stride, pad)] *)
  F_convolution_2d :
    ndarray → ndarray → option ndarray → nat * nat → nat * nat →
    result ndarray;
  (** [F.lstm(c, x)] *)
  F_lstm : ndarray → ndarray → result (ndarray * ndarray);
  (** [F.softmax_cross_entropy(y, t).data] and [F.accuracy(y, t).data] *)
  F_softmax_cross_entropy : ndarray → ndarray → pyfloat;
  F_accuracy : ndarray → ndarray → pyfloat;
  (** [self(x)]: the forward pass that a subclass of the chain defines *)
  forward : link → ndarray → ndarray
}.

Section Model.
Context `{Host}.

(** ** Construction of the layers *)

Definition or_default (i : option initializer) (d : initializer)
  : initializer :=
  match i with Some i => i | None => d end.

(** [chainer.links.Linear.__init__] *)
Definition Linear_init (in_size : option nat) (out_size : nat)
    (nobias : bool) (initialW initial_bias : option initializer) : Linear :=
  {| lin_out_size := out_size;
     lin_W := new_parameter (or_default initialW default_initialW)
                ((λ n, [out_size; n]) <$> in_size);
     lin_b := if nobias then None
              else Some (new_parameter
                           (or_default initial_bias (Constant 0))
                           (Some [out_size]));
     lin_device := CPU |}.

(** [VariationalDropoutLinear._initialize_params] *)
Definition VariationalDropoutLinear_initialize_params
    (self : VariationalDropoutLinear) (in_size : nat) (log_sigma2 : bool)
  : VariationalDropoutLinear :=
  let sh := [lin_out_size (vdl_base self); in_size] in
  if negb log_sigma2 then
    with_vdl_base self
      (with_lin_W (vdl_base self) (initialize (lin_W (vdl_base self)) sh))
  else
    with_vdl_log_sigma2 self (initialize (vdl_log_sigma2 self) sh).

(** [VariationalDropoutLinear.__init__] *)
Definition VariationalDropoutLinear_init (in_size : option nat)
    (out_size : nat) (nobias : bool)
    (initialW initial_bias : option initializer)
    (p_threshold loga_threshold : R) (initial_log_sigma2 : initializer)
  : VariationalDropoutLinear :=
  let self :=
    {| vdl_base := Linear_init in_size out_size nobias initialW initial_bias;
       vdl_log_sigma2 := new_parameter initial_log_sigma2 None;
       vdl_p_threshold := p_threshold;
       vdl_loga_threshold := loga_threshold |} in
  match in_size with
  | Some n => VariationalDropoutLinear_initialize_params self n true
  | None => self
  end.

(** [chainer.links.Convolution2D.__init__] *)
Definition Convolution2D_init (in_channels : option nat)
    (out_channels : nat) (ksize stride pad : int_or_pair) (nobias : bool)
    (initialW initial_bias : option initializer) : Convolution2D :=
  let '(kh, kw) := _pair ksize in
  {| conv_out_channels := out_channels;
     conv_ksize := ksize;
     conv_stride := _pair stride;
     conv_pad := _pair pad;
     conv_W := new_parameter (or_default initialW default_initialW)
                 ((λ n, [out_channels; n; kh; kw]) <$> in_channels);
     conv_b := if nobias then None
               else Some (new_parameter
                            (or_default initial_bias (Constant 0))
                            (Some [out_channels]));
     conv_device := CPU |}.

(** [VariationalDropoutConvolution2D._initialize_params] *)
Definition VariationalDropoutConvolution2D_initialize_params
    (self : VariationalDropoutConvolution2D) (in_channels : nat)
    (log_sigma2 : bool) : VariationalDropoutConvolution2D :=
  let '(kh, kw) := _pair (conv_ksize (vdc_base self)) in
  let W_shape := [conv_out_channels (vdc_base self); in_channels; kh; kw] in
  if negb log_sigma2 then
    with_vdc_base self
      (with_conv_W (vdc_base self)
         (initialize (conv_W (vdc_base self)) W_shape))
  else
    with_vdc_log_sigma2 self (initialize (vdc_log_sigma2 self) W_shape).

(** [VariationalDropoutConvolution2D.__init__] *)
Definition VariationalDropoutConvolution2D_init (in_channels : option nat)
    (out_channels : nat) (ksize stride pad : int_or_pair) (nobias : bool)
    (initialW initial_bias : option initializer)
    (p_threshold loga_threshold : R) (initial_log_sigma2 : initializer)
  : VariationalDropoutConvolution2D :=
  let self :=
    {| vdc_base := Convolution2D_init in_channels out_channels ksize stride
                     pad nobias initialW initial_bias;
       vdc_log_sigma2 := new_parameter initial_log_sigma2 None;
       vdc_p_threshold := p_threshold;
       vdc_loga_threshold := loga_threshold |} in
  match in_channels with
  | Some n => VariationalDropoutConvolution2D_initialize_params self n true
  | None => self
  end.

(** ** Forward passes *)

(** [VariationalDropoutLinear.__call__]: the layer after the call and the
    value returned or the exception raised. *)
Definition VariationalDropoutLinear_call (cfg : config) (noise : initializer)
    (self : VariationalDropoutLinear) (x : ndarray)
  : VariationalDropoutLinear * result ndarray :=
  let initialized : result VariationalDropoutLinear :=
    match pdata (lin_W (vdl_base self)) with
    | None =>
        n ← shape0 x;
        in_size ← floordiv (size x) n;
        Ok (VariationalDropoutLinear_initialize_params self in_size false)
    | Some _ => Ok self
    end in
  match initialized with
  | Raise e => (self, Raise e)
  | Ok self =>
      (self,
       vd_linear cfg noise x (lin_W (vdl_base self)) (lin_b (vdl_base self))
         (vdl_loga_threshold self) (vdl_log_sigma2 self)
         (1 / 100000000)%R ((-8)%R, 8%R))
  end.

(** [VariationalDropoutConvolution2D.dropout_convolution_2d] *)
Definition dropout_convolution_2d (cfg : config) (noise : initializer)
    (self : VariationalDropoutConvolution2D) (x : ndarray)
  : result ndarray :=
  let base := vdc_base self in
  let b := conv_b base in
  let log_alpha :=
    calculate_log_alpha (conv_W base) (vdc_log_sigma2 self)
      (1 / 100000000)%R ((-8)%R, 8%R) in
  let clip_mask := nd_gt log_alpha (vdc_loga_threshold self) in
  W ← param_data (conv_W base);
  if train cfg then
    let W := nd_mul (one_minus clip_mask) W in
    mu ← F_convolution_2d x (nd_mul (one_minus clip_mask) W) None
           (conv_stride base) (conv_pad base);
    var ← F_convolution_2d (nd_mul x x)
            (nd_mul (nd_mul (F_exp log_alpha) W) W) None
            (conv_stride base) (conv_pad base);
    let si := F_sqrt (ew1 (λ v, (v + 1 / 100000000)%R) var) in
    let normal_noise := NdArray (shape mu) (noise (shape mu)) in
    let activation := nd_add mu (nd_mul si normal_noise) in
    F_bias activation (b ≫= pdata)
  else
    F_convolution_2d x (nd_mul (one_minus clip_mask) W) (b ≫= pdata)
      (conv_stride base) (conv_pad base).

(** [VariationalDropoutConvolution2D.__call__] *)
Definition VariationalDropoutConvolution2D_call (cfg : config)
    (noise : initializer) (self : VariationalDropoutConvolution2D)
    (x : ndarray) : VariationalDropoutConvolution2D * result ndarray :=
  let initialized : result VariationalDropoutConvolution2D :=
    match pdata (conv_W (vdc_base self)) with
    | None =>
        match shape x with
        | _ :: c :: _ =>
            Ok (VariationalDropoutConvolution2D_initialize_params self c
                  false)
        | _ => Raise IndexError
        end
    | Some _ => Ok self
    end in
  match initialized with
  | Raise e => (self, Raise e)
  | Ok self => (self, dropout_convolution_2d cfg noise self x)
  end.

(** [VariationalDropoutLinear.get_sparse_cpu_model] *)
Definition get_sparse_cpu_model (self : VariationalDropoutLinear)
  : SparseLinearForwardCPU :=
  let log_alpha :=
    calculate_log_alpha (lin_W (vdl_base self)) (vdl_log_sigma2 self)
      (1 / 100000000)%R ((-8)%R, 8%R) in
  let clip_mask := nd_gt log_alpha (vdl_loga_threshold self) in
  new_SparseLinearForwardCPU self (one_minus clip_mask).

(** [VariationalDropoutTanhRNN.__init__] *)
Definition VariationalDropoutTanhRNN_init (in_size out_size : nat)
    (nobias : bool) (initialW initial_bias : option initializer)
    (p_threshold loga_threshold : R) (initial_log_sigma2 : initializer)
  : VariationalDropoutTanhRNN :=
  {| rnn_W := VariationalDropoutLinear_init (Some (in_size + out_size))
                out_size nobias initialW initial_bias p_threshold
                loga_threshold initial_log_sigma2;
     rnn_in_size := in_size;
     rnn_out_size := out_size;
     rnn_h := None |}.

Definition with_rnn_h (self : VariationalDropoutTanhRNN) (h : option ndarray)
  : VariationalDropoutTanhRNN :=
  MkTanhRNN (rnn_W self) (rnn_in_size self) (rnn_out_size self) h.
Definition with_rnn_W (self : VariationalDropoutTanhRNN)
    (W : VariationalDropoutLinear) : VariationalDropoutTanhRNN :=
  MkTanhRNN W (rnn_in_size self) (rnn_out_size self) (rnn_h self).

(** [VariationalDropoutTanhRNN.reset_state] and [set_state] *)
Definition VariationalDropoutTanhRNN_reset_state
    (self : VariationalDropoutTanhRNN) : VariationalDropoutTanhRNN :=
  with_rnn_h self None.
Definition VariationalDropoutTanhRNN_set_state
    (self : VariationalDropoutTanhRNN) (h : ndarray)
  : VariationalDropoutTanhRNN :=
  with_rnn_h self (Some h).

(** [VariationalDropoutTanhRNN.__call__]; [h = None] is the stateful call. *)
Definition VariationalDropoutTanhRNN_call (cfg : config)
    (noise : initializer) (self : VariationalDropoutTanhRNN) (x : ndarray)
    (h : option ndarray) : VariationalDropoutTanhRNN * result ndarray :=
  let stateful := bool_decide (h = None) in
  (* [if stateful: ...; h = self.h] *)
  let prepared : VariationalDropoutTanhRNN * result ndarray :=
    match h with
    | Some h => (self, Ok h)
    | None =>
        match rnn_h self with
        | Some h => (self, Ok h)
        | None =>
            match shape0 x with
            | Ok n =>
                let z := zeros [n; rnn_out_size self] in
                (with_rnn_h self (Some z), Ok z)
            | Raise e => (self, Raise e)
            end
        end
    end in
  match prepared with
  | (self, Raise e) => (self, Raise e)
  | (self, Ok h) =>
      match F_concat x h with
      | Raise e => (self, Raise e)
      | Ok xh =>
          let '(W, out) :=
            VariationalDropoutLinear_call cfg noise (rnn_W self) xh in
          let self := with_rnn_W self W in
          match out with
          | Raise e => (self, Raise e)
          | Ok a =>
              let new_h := F_tanh a in
              if stateful then (with_rnn_h self (Some new_h), Ok new_h)
              else (with_rnn_h self None, Ok new_h)
          end
      end
  end.

(** [VariationalDropoutLSTM.__init__] *)
Definition VariationalDropoutLSTM_init (in_size : option nat)
    (out_size : nat) (nobias : bool)
    (initialW initial_bias : option initializer)
    (p_threshold loga_threshold : R) (initial_log_sigma2 : initializer)
  : VariationalDropoutLSTM :=
  {| upward := VariationalDropoutLinear_init in_size (out_size * 4) nobias
                 initialW initial_bias p_threshold loga_threshold
                 initial_log_sigma2;
     lateral := VariationalDropoutLinear_init in_size (out_size * 4) true
                  initialW None p_threshold loga_threshold
                  initial_log_sigma2;
     lstm_in_size := in_size;
     lstm_out_size := out_size;
     lstm_h := None;
     lstm_c := None |}.

Definition with_upward (self : VariationalDropoutLSTM)
    (l : VariationalDropoutLinear) : VariationalDropoutLSTM :=
  MkLSTM l (lateral self) (lstm_in_size self) (lstm_out_size self)
    (lstm_h self) (lstm_c self).
Definition with_lateral (self : VariationalDropoutLSTM)
    (l : VariationalDropoutLinear) : VariationalDropoutLSTM :=
  MkLSTM (upward self) l (lstm_in_size self) (lstm_out_size self)
    (lstm_h self) (lstm_c self).
Definition with_lstm_state (self : VariationalDropoutLSTM)
    (c h : option ndarray) : VariationalDropoutLSTM :=
  MkLSTM (upward self) (lateral self) (lstm_in_size self)
    (lstm_out_size self) h c.

(** [VariationalDropoutLSTM.reset_state] and [set_state] *)
Definition VariationalDropoutLSTM_reset_state (self : VariationalDropoutLSTM)
  : VariationalDropoutLSTM :=
  with_lstm_state self None None.
Definition VariationalDropoutLSTM_set_state (self : VariationalDropoutLSTM)
    (c h : ndarray) : VariationalDropoutLSTM :=
  with_lstm_state self (Some c) (Some h).

(** The first half of [VariationalDropoutLSTM.__call__]: the value of
    [lstm_in] that is handed to [F.lstm]. *)
Definition VariationalDropoutLSTM_lstm_in (cfg : config)
    (noise : initializer) (self : VariationalDropoutLSTM) (x : ndarray)
  : VariationalDropoutLSTM * result ndarray :=
  let memory_efficiency := user_memory_efficiency cfg in
  let '(up, lstm_in) :=
    if bool_decide (2 < memory_efficiency)%Z then
      F_forget (VariationalDropoutLinear_call cfg noise (upward self)) x
    else VariationalDropoutLinear_call cfg noise (upward self) x in
  let self := with_upward self up in
  match lstm_in with
  | Raise e => (self, Raise e)
  | Ok lstm_in =>
      match lstm_h self with
      | Some _ =>
          let '(lat, term) :=
            if bool_decide (2 < memory_efficiency)%Z then
              F_forget (VariationalDropoutLinear_call cfg noise
                          (lateral self)) x
            else VariationalDropoutLinear_call cfg noise (lateral self) x in
          let self := with_lateral self lat in
          match term with
          | Raise e => (self, Raise e)
          | Ok term => (self, Ok (nd_add lstm_in term))
          end
      | None => (self, Ok lstm_in)
      end
  end.

(** [VariationalDropoutLSTM.__call__] *)
Definition VariationalDropoutLSTM_call (cfg : config) (noise : initializer)
    (self : VariationalDropoutLSTM) (x : ndarray)
  : VariationalDropoutLSTM * result ndarray :=
  let memory_efficiency := user_memory_efficiency cfg in
  match VariationalDropoutLSTM_lstm_in cfg noise self x with
  | (self, Raise e) => (self, Raise e)
  | (self, Ok lstm_in) =>
      let with_c : VariationalDropoutLSTM * result ndarray :=
        match lstm_c self with
        | Some c => (self, Ok c)
        | None =>
            match shape0 x with
            | Ok n =>
                let z := zeros [n; lstm_out_size self] in
                (with_lstm_state self (Some z) (lstm_h self), Ok z)
            | Raise e => (self, Raise e)
            end
        end in
      match with_c with
      | (self, Raise e) => (self, Raise e)
      | (self, Ok c) =>
          let r :=
            if bool_decide (1 < memory_efficiency)%Z then
              F_forget (F_lstm c) lstm_in
            else F_lstm c lstm_in in
          match r with
          | Raise e => (self, Raise e)
          | Ok (c', h') =>
              (with_lstm_state self (Some c') (Some h'), Ok h')
          end
      end
  end.

(** ** Conversion of a network *)

(** A loop over the links of a traversal that stops at the first exception *)
Definition for_links {S : Type} (body : S → path * link → result S)
    (l : list (path * link)) (s : S) : result S :=
  foldl (λ acc e, s ← acc; body s e) (Ok s) l.

(** A local variable that is read before any branch has bound it *)
Definition read_local {A} (var : string) (v : option A) : result A :=
  match v with
  | Some a => Ok a
  | None => Raise (UnboundLocalError var)
  end.

(** [assert(numpy.any(a == b))] *)
Definition assert_any_eq (a b : ndarray) : result unit :=
  if np_any_eq a b then Ok () else Raise AssertionError.

(** [get_vd_link] *)
Definition get_vd_link (link : leaf) (p_threshold loga_threshold : R)
    (initial_log_sigma2 : initializer) : result leaf :=
  let gpu : Z :=
    match leaf_device link with
    | CPU => (-1)%Z
    | GPU id => Z.of_nat id
    end in
  let link :=
    if _cpu (leaf_device link) then link else leaf_to_device CPU link in
  W ← leaf_W link;
  let initialW := pdata W in
  let initial_bias := leaf_b link ≫= pdata in
  new_link ←
    match link with
    | LLinear _ =>
        sh ← param_shape W;
        match sh with
        | [out_size; in_size] =>
            Ok (Some (LVDLinear
                        (VariationalDropoutLinear_init (Some in_size)
                           out_size false None None p_threshold
                           loga_threshold initial_log_sigma2)))
        | _ => Raise ValueError
        end
    | LConvolution2D c =>
        sh ← param_shape W;
        match take 2 sh with
        | [out_channels; in_channels] =>
            Ok (Some (LVDConvolution2D
                        (VariationalDropoutConvolution2D_init
                           (Some in_channels) out_channels (conv_ksize c)
                           (of_pair (conv_stride c)) (of_pair (conv_pad c))
                           false None None p_threshold loga_threshold
                           initial_log_sigma2)))
        | _ => Raise ValueError
        end
    | _ =>
        (* [NotImplementedError()] is built and dropped: nothing is raised
           and [new_link] stays unbound *)
        let _ := NotImplementedError in Ok None
    end;
  new_link ← read_local "new_link" new_link;
  a ← param_data W;
  new_link ← leaf_assign_W new_link a;
  new_W ← leaf_W new_link;
  d ← param_data new_W;
  _ ← assert_any_eq a d;
  new_link ←
    match initial_bias with
    | Some bias =>
        new_link ← leaf_assign_b new_link bias;
        d ← from_option param_data (Raise (AttributeError "data"))
              (leaf_b new_link);
        _ ← assert_any_eq bias d;
        Ok new_link
    | None => Ok new_link
    end;
  Ok (if bool_decide (0 ≤ gpu)%Z
      then leaf_to_device (GPU (Z.to_nat gpu)) new_link
      else new_link).

(** [to_variational_dropout_link(parent, name, link, path_name)].  The
    chain [parent] is mutated in place by the source; here its value is
    threaded.  A chain [link] is the object found in [parent] at [name], so
    its children are read from, and written back to, that place. *)
Fixpoint to_variational_dropout_link (fuel : nat) (parent : link)
    (name : path) (lnk : link) (path_name : string) {struct fuel}
  : result (link * list event) :=
  let raw_name := name in
  match lnk with
  | Chain _ _ =>
      match fuel with
      | O => Raise RecursionError
      | S fuel =>
          match lookup_path raw_name parent with
          | None => Raise (AttributeError (raw_name_str raw_name))
          | Some live =>
              r ← for_links
                    (λ (st : link * list event) (e : path * link),
                       r ← to_variational_dropout_link fuel st.1 e.1 e.2
                             (raw_name_str raw_name +:+ "/");
                       Ok (r.1, st.2 ++ r.2))
                    (sorted_namedlinks live) (live, []);
              Ok (replace_path raw_name r.1 parent, r.2)
          end
      end
  | Leaf lf =>
      match raw_name with
      | _ :: _ :: _ => Ok (parent, [])
      | _ =>
          let attr := raw_name_str raw_name in
          if negb (is_variational_dropout lf) && is_plain lf then
            new_link ← get_vd_link lf P_THRESHOLD LOGA_THRESHOLD
                         INITIAL_LOG_SIGMA2;
            parent ← delattr parent attr;
            parent ← add_link parent attr (Leaf new_link);
            Ok (parent, [PrintReplace (path_name +:+ attr)])
          else Ok (parent, [PrintRetain (path_name +:+ attr)])
      end
  end.

(** [VariationalDropoutChain.to_variational_dropout] *)
Definition to_variational_dropout (self : link)
  : result (link * list event) :=
  for_links
    (λ (st : link * list event) (e : path * link),
       r ← to_variational_dropout_link (height self) st.1 e.1 e.2 "";
       Ok (r.1, st.2 ++ r.2))
    (sorted_namedlinks self) (self, [PrintMake]).

(** ** Statistics *)

(** [get_vd_links]: the generator, as the list of what it yields *)
Fixpoint get_vd_links (fuel : nat) (lnk : link) {struct fuel}
  : result (list leaf) :=
  match lnk with
  | Chain _ _ =>
      match fuel with
      | O => Raise RecursionError
      | S fuel =>
          foldr (λ child_link acc,
                   here ← get_vd_links fuel child_link;
                   rest ← acc;
                   Ok (here ++ rest))
                (Ok []) (links_skipself lnk)
      end
  | Leaf lf => Ok (if is_variational_dropout lf then [lf] else [])
  end.

(** [calculate_p]; it is only applied to what [get_vd_links] yields. *)
Definition calculate_p (link : leaf) : result ndarray :=
  match link with
  | LVDLinear l =>
      let alpha :=
        F_exp (calculate_log_alpha (lin_W (vdl_base l)) (vdl_log_sigma2 l)
                 (1 / 100000000)%R ((-8)%R, 8%R)) in
      Ok (ew1 (λ a, (a / (1 + a))%R) alpha)
  | LVDConvolution2D c =>
      let alpha :=
        F_exp (calculate_log_alpha (conv_W (vdc_base c)) (vdc_log_sigma2 c)
                 (1 / 100000000)%R ((-8)%R, 8%R)) in
      Ok (ew1 (λ a, (a / (1 + a))%R) alpha)
  | _ => Raise (AttributeError "log_sigma2")
  end.

(** [link.p_threshold] *)
Definition p_threshold_of (link : leaf) : result R :=
  match link with
  | LVDLinear l => Ok (vdl_p_threshold l)
  | LVDConvolution2D c => Ok (vdc_p_threshold c)
  | _ => Raise (AttributeError "p_threshold")
  end.

(** [calculate_stats(chain, threshold)]: the dictionary and the warnings *)
Definition calculate_stats (chain : link) (threshold : R)
  : result (stats_dict * list event) :=
  vd_links ← get_vd_links (S (height chain)) chain;
  all_p ← mapM (λ link, flatten <$> calculate_p link) vd_links;
  match all_p with
  | [] => Ok (MkStats ∅ true, [])
  | _ =>
      let all_p := concatenate all_p in
      let stats : gmap string pyfloat := <["mean_p" := mean all_p]> ∅ in
      all_threshold ← mapM p_threshold_of vd_links;
      let warned :=
        if existsb (λ th, bool_decide (th ≠ threshold)) all_threshold
        then [WarnThreshold] else [] in
      let is_zero := nd_gt all_p threshold in
      let stats := <["sparsity" := mean is_zero]> stats in
      let n_non_zero := count_ones (one_minus is_zero) in
      let stats :=
        if bool_decide (n_non_zero = 0) then <["W/Wnz" := PosInf]> stats
        else <["W/Wnz" := Finite (INR (size all_p) * 1 / INR n_non_zero)]>
               stats in
      Ok (MkStats stats false, warned)
  end.

(** ** The chain *)

Definition with_net (self : VariationalDropoutChain) (n : link)
  : VariationalDropoutChain :=
  MkVDChain n (warm_up self) (kl_coef self) (attr_y self)
    (attr_class_loss self) (attr_kl_loss self) (attr_loss self)
    (attr_accuracy self).
Definition with_kl_coef (self : VariationalDropoutChain) (k : float)
  : VariationalDropoutChain :=
  MkVDChain (net self) (warm_up self) k (attr_y self)
    (attr_class_loss self) (attr_kl_loss self) (attr_loss self)
    (attr_accuracy self).
Definition with_y (self : VariationalDropoutChain) (y : ndarray)
  : VariationalDropoutChain :=
  MkVDChain (net self) (warm_up self) (kl_coef self) (Some y)
    (attr_class_loss self) (attr_kl_loss self) (attr_loss self)
    (attr_accuracy self).
Definition with_class_loss (self : VariationalDropoutChain) (v : pyfloat)
  : VariationalDropoutChain :=
  MkVDChain (net self) (warm_up self) (kl_coef self) (attr_y self)
    (Some v) (attr_kl_loss self) (attr_loss self) (attr_accuracy self).
Definition with_kl_loss (self : VariationalDropoutChain) (v : pyscalar)
  : VariationalDropoutChain :=
  MkVDChain (net self) (warm_up self) (kl_coef self) (attr_y self)
    (attr_class_loss self) (Some v) (attr_loss self) (attr_accuracy self).
Definition with_loss (self : VariationalDropoutChain) (v : pyfloat)
  : VariationalDropoutChain :=
  MkVDChain (net self) (warm_up self) (kl_coef self) (attr_y self)
    (attr_class_loss self) (attr_kl_loss self) (Some v)
    (attr_accuracy self).
Definition with_accuracy (self : VariationalDropoutChain) (v : pyfloat)
  : VariationalDropoutChain :=
  MkVDChain (net self) (warm_up self) (kl_coef self) (attr_y self)
    (attr_class_loss self) (attr_kl_loss self) (attr_loss self) (Some v).

(** [VariationalDropoutChain.__init__(warm_up, **links)] *)
Definition VariationalDropoutChain_init (warm_up : float)
    (children : gmap string link) : VariationalDropoutChain :=
  {| net := Chain CPU children;
     warm_up := warm_up;
     kl_coef := if py_bool warm_up then 0%float else 1%float;
     attr_y := None;
     attr_class_loss := None;
     attr_kl_loss := None;
     attr_loss := None;
     attr_accuracy := None |}.

(** The chain after a method has run, what the method reported and printed,
    and the value it returned or the exception it raised. *)
Record outcome (A : Type) := MkOutcome {
  self_after : VariationalDropoutChain;
  reported : list report;
  emitted : list event;
  returned : result A
}.
#[global] Arguments MkOutcome {A} _ _ _ _.
#[global] Arguments self_after {A} _.
#[global] Arguments reported {A} _.
#[global] Arguments emitted {A} _.
#[global] Arguments returned {A} _.

(** The KL term of a link that carries the flag [is_variational_dropout] *)
Definition kl_term (l : link) : option pyfloat :=
  match l with
  | Leaf (LVDLinear v) =>
      Some (calculate_kl (lin_W (vdl_base v)) (vdl_loga_threshold v)
              (vdl_log_sigma2 v) (1 / 100000000)%R ((-8)%R, 8%R))
  | Leaf (LVDConvolution2D v) =>
      Some (calculate_kl (conv_W (vdc_base v)) (vdc_loga_threshold v)
              (vdc_log_sigma2 v) (1 / 100000000)%R ((-8)%R, 8%R))
  | _ => None
  end.

(** [sum(terms)]: the integer [0] when there is no term *)
Definition py_sum (terms : list pyfloat) : pyscalar :=
  match terms with
  | [] => PyFloat 0%float
  | v :: rest => Variable_ (foldl pf_add (pf_add (Finite 0) v) rest)
  end.

(** [a_regf * self.kl_coef] *)
Definition scalar_scale (a : pyscalar) (k : float) : pyscalar :=
  match a with
  | Variable_ v => Variable_ (pf_mul v (pf_of_float k))
  | PyFloat r => PyFloat (r * k)%float
  end.

(** The branch [if add_kl: ...] of [calc_loss]; it yields the chain, the
    reports, the flag [ignore] and whether an exception was raised. *)
Definition calc_loss_kl (cfg : config) (self : VariationalDropoutChain)
    (class_loss : pyfloat) (ignore : bool)
  : VariationalDropoutChain * list report * bool * result unit :=
  let a_regf := py_sum (omap kl_term (links (net self))) in
  let kl_loss := scalar_scale a_regf (kl_coef self) in
  let self := with_kl_loss self kl_loss in
  match scalar_data kl_loss with
  | Raise e => (self, [], ignore, Raise e)
  | Ok d =>
      let '(self, kl_loss, ignore, rep) :=
        if train cfg && isnan d then
          (with_kl_loss self (Variable_ (Finite 0)), Variable_ (Finite 0),
           true, [])
        else (self, kl_loss, ignore, [Report "kl" d]) in
      let self :=
        with_kl_coef self (py_min (kl_coef self + warm_up self) 1) in
      let rep := rep ++ [Report "kl_coef" (pf_of_float (kl_coef self))] in
      let self := with_loss self (scalar_add class_loss kl_loss) in
      (self, rep, ignore, Ok ())
  end.

(** The reports of the statistics at the end of [calc_loss] *)
Definition calc_loss_stats (self : VariationalDropoutChain)
  : result (list report * list event) :=
  r ← calculate_stats (net self) P_THRESHOLD;
  mean_p ← getitem r.1 "mean_p";
  sparsity ← getitem r.1 "sparsity";
  ratio ← getitem r.1 "W/Wnz";
  Ok ([Report "mean_p" mean_p; Report "sparsity" sparsity;
       Report "W/Wnz" ratio], r.2).

(** [VariationalDropoutChain.calc_loss(x, t, add_kl, split_loss,
    calc_stats)] *)
Definition calc_loss (cfg : config) (self : VariationalDropoutChain)
    (x t : ndarray) (add_kl split_loss calc_stats : bool)
  : outcome loss_value :=
  let memory_efficiency := user_memory_efficiency cfg in
  let y := forward (net self) x in
  let self := with_y self y in
  let class_loss :=
    if bool_decide (0 < memory_efficiency)%Z
    then F_forget (F_softmax_cross_entropy y) t
    else F_softmax_cross_entropy y t in
  let '(class_loss, ignore, rep) :=
    if train cfg && isnan class_loss then (Finite 0, true, [])
    else (class_loss, false, [Report "class" class_loss]) in
  let self := with_class_loss self class_loss in
  let '(self, rep_kl, ignore, raised) :=
    if add_kl then calc_loss_kl cfg self class_loss ignore
    else (with_loss self class_loss, [], ignore, Ok ()) in
  let rep := rep ++ rep_kl in
  match raised with
  | Raise e => MkOutcome self rep [] (Raise e)
  | Ok _ =>
      let loss := default class_loss (attr_loss self) in
      let rep := if ignore then rep else rep ++ [Report "loss" loss] in
      let accuracy := F_accuracy y t in
      let self := with_accuracy self accuracy in
      let rep := rep ++ [Report "accuracy" accuracy] in
      let stats := if calc_stats then calc_loss_stats self else Ok ([], []) in
      match stats with
      | Raise e => MkOutcome self rep [] (Raise e)
      | Ok (rep_stats, warned) =>
          let rep := rep ++ rep_stats in
          if split_loss then
            match attr_kl_loss self with
            | Some kl_loss =>
                MkOutcome self rep warned (Ok (SplitLoss class_loss kl_loss))
            | None =>
                MkOutcome self rep warned (Raise (AttributeError "kl_loss"))
            end
          else MkOutcome self rep warned (Ok (Loss loss))
      end
  end.

(** The state of the loop of [to_cpu_sparse]; [sp_raised] holds the
    exception that stopped it. *)
Record sparse_state := MkSparseState {
  sp_self : link;
  n_total_old_params : nat;
  n_total_new_params : nat;
  sp_out : list event;
  sp_raised : option exn
}.

Definition sp_raise (s : sparse_state) (e : exn) : sparse_state :=
  MkSparseState (sp_self s) (n_total_old_params s) (n_total_new_params s)
    (sp_out s) (Some e).

(** [sum(p.size for p in link.params())] *)
Definition n_params (l : link) : result nat :=
  foldr (λ p acc, n ← param_size p; m ← acc; Ok (n + m)) (Ok 0) (params l).

(** [n_new * 1. / n_old * 100] *)
Definition percent (n_new n_old : nat) : result R :=
  match n_old with
  | O => Raise ZeroDivisionError
  | S _ => Ok (INR n_new * 1 / INR n_old * 100)%R
  end.

(** The body of the loop of [to_cpu_sparse] *)
Definition to_cpu_sparse_body (s : sparse_state) (e : path * link)
  : sparse_state :=
  match sp_raised s with
  | Some _ => s
  | None =>
      let raw_name := raw_name_str e.1 in
      match n_params e.2 with
      | Raise ex => sp_raise s ex
      | Ok n_old_params =>
          match e.2 with
          | Leaf (LVDLinear old) =>
              match delattr (sp_self s) raw_name with
              | Raise ex => sp_raise s ex
              | Ok self1 =>
                  let sparse := get_sparse_cpu_model old in
                  match add_link self1 raw_name
                          (Leaf (LSparse sparse CPU)) with
                  | Raise ex =>
                      sp_raise (MkSparseState self1 (n_total_old_params s)
                                  (n_total_new_params s) (sp_out s) None) ex
                  | Ok self2 =>
                      let n_new_params :=
                        size (sparse_W sparse)
                        + from_option size 0 (sparse_b sparse) in
                      let s2 :=
                        MkSparseState self2 (n_total_old_params s)
                          (n_total_new_params s) (sp_out s) None in
                      match percent n_new_params n_old_params with
                      | Raise ex => sp_raise s2 ex
                      | Ok pc =>
                          MkSparseState self2
                            (n_total_old_params s + n_old_params)
                            (n_total_new_params s + n_new_params)
                            (sp_out s
                               ++ [PrintSparsified raw_name n_old_params
                                     n_new_params pc])
                            None
                      end
                  end
              end
          | Leaf _ =>
              MkSparseState (sp_self s)
                (n_total_old_params s + n_old_params)
                (n_total_new_params s + n_old_params)
                (sp_out s ++ [PrintRetainParams raw_name n_old_params])
                None
          | Chain _ _ => s
          end
      end
  end.

(** [VariationalDropoutChain.to_cpu_sparse] *)
Definition to_cpu_sparse (self : VariationalDropoutChain) : outcome unit :=
  let self := with_net self (to_cpu (net self)) in
  let warned :=
    if bool_decide (xp (net self) ≠ numpy) then [WarnSparseCPU] else [] in
  let s0 :=
    MkSparseState (net self) 0 0 (warned ++ [PrintSparsifying]) None in
  let s := foldl to_cpu_sparse_body s0 (sorted_namedlinks (net self)) in
  let self := with_net self (sp_self s) in
  match sp_raised s with
  | Some ex => MkOutcome self [] (sp_out s) (Raise ex)
  | None =>
      match percent (n_total_new_params s) (n_total_old_params s) with
      | Raise ex => MkOutcome self [] (sp_out s) (Raise ex)
      | Ok pc =>
          MkOutcome self []
            (sp_out s
               ++ [PrintTotal (n_total_old_params s) (n_total_new_params s)
                     pc])
            (Ok ())
      end
  end.

(** ** Reference definitions used to state the properties *)

(** The VD variant that [to_variational_dropout_link] installs for a leaf:
    the result of [get_vd_link] on a plain layer, the leaf itself
    otherwise. *)
Definition convert_leaf (lf : leaf) : leaf :=
  if is_plain lf then
    match get_vd_link lf P_THRESHOLD LOGA_THRESHOLD INITIAL_LOG_SIGMA2 with
    | Ok new_link => new_link
    | Raise _ => lf
    end
  else lf.

(** The network with every leaf replaced by its VD variant *)
Fixpoint vd_tree (l : link) : link :=
  match l with
  | Leaf lf => Leaf (convert_leaf lf)
  | Chain d ch => Chain d (vd_tree <$> ch)
  end.

(** A plain layer whose parameters are materialized, of the shapes its
    configuration announces, and not empty. *)
Definition well_formed_bias (b : option parameter) (out : nat) : Prop :=
  ∀ p a, b = Some p → pdata p = Some a → shape a = [out] ∧ data a ≠ [].

Definition well_formed_plain (lf : leaf) : Prop :=
  match lf with
  | LLinear l =>
      ∃ a out_size in_size,
        pdata (lin_W l) = Some a ∧ shape a = [out_size; in_size]
        ∧ data a ≠ [] ∧ well_formed_bias (lin_b l) out_size
  | LConvolution2D c =>
      ∃ a out_channels in_channels,
        pdata (conv_W c) = Some a
        ∧ shape a = [out_channels; in_channels;
                     (_pair (conv_ksize c)).1; (_pair (conv_ksize c)).2]
        ∧ data a ≠ [] ∧ well_formed_bias (conv_b c) out_channels
  | _ => True
  end.

(** The training-regime output of the VD convolution as the specification
    words it: the variance term is computed from the unmasked weights, and
    the bias is added after, when the layer has one. *)
Definition dropout_convolution_2d_unmasked_variance (noise : initializer)
    (self : VariationalDropoutConvolution2D) (x : ndarray)
  : result ndarray :=
  let base := vdc_base self in
  let log_alpha :=
    calculate_log_alpha (conv_W base) (vdc_log_sigma2 self)
      (1 / 100000000)%R ((-8)%R, 8%R) in
  let clip_mask := nd_gt log_alpha (vdc_loga_threshold self) in
  W ← param_data (conv_W base);
  mu ← F_convolution_2d x (nd_mul (one_minus clip_mask) W) None
         (conv_stride base) (conv_pad base);
  var ← F_convolution_2d (nd_mul x x)
          (nd_mul (nd_mul (F_exp log_alpha) W) W) None
          (conv_stride base) (conv_pad base);
  let si := F_sqrt (ew1 (λ v, (v + 1 / 100000000)%R) var) in
  let eps := NdArray (shape mu) (noise (shape mu)) in
  let activation := nd_add mu (nd_mul si eps) in
  match conv_b base ≫= pdata with
  | Some b => F_bias activation (Some b)
  | None => Ok activation
  end.

(** The same output with the variance term computed from the weights that
    survive the mask. *)
Definition dropout_convolution_2d_masked_variance (noise : initializer)
    (self : VariationalDropoutConvolution2D) (x : ndarray)
  : result ndarray :=
  let base := vdc_base self in
  let log_alpha :=
    calculate_log_alpha (conv_W base) (vdc_log_sigma2 self)
      (1 / 100000000)%R ((-8)%R, 8%R) in
  let clip_mask := nd_gt log_alpha (vdc_loga_threshold self) in
  W ← param_data (conv_W base);
  mu ← F_convolution_2d x (nd_mul (one_minus clip_mask) W) None
         (conv_stride base) (conv_pad base);
  var ← F_convolution_2d (nd_mul x x)
          (nd_mul (one_minus clip_mask)
             (nd_mul (nd_mul (F_exp log_alpha) W) W)) None
          (conv_stride base) (conv_pad base);
  let si := F_sqrt (ew1 (λ v, (v + 1 / 100000000)%R) var) in
  let eps := NdArray (shape mu) (noise (shape mu)) in
  let activation := nd_add mu (nd_mul si eps) in
  match conv_b base ≫= pdata with
  | Some b => F_bias activation (Some b)
  | None => Ok activation
  end.

(** The arguments of one call of [calc_loss], and the chain after a
    sequence of calls. *)
Record call_args := MkCall {
  call_cfg : config;
  call_x : ndarray;
  call_t : ndarray;
  call_add_kl : bool;
  call_split_loss : bool;
  call_calc_stats : bool
}.

Definition calc_loss_with (self : VariationalDropoutChain) (c : call_args)
  : outcome loss_value :=
  calc_loss (call_cfg c) self (call_x c) (call_t c) (call_add_kl c)
    (call_split_loss c) (call_calc_stats c).

Definition after_calls (self : VariationalDropoutChain)
    (calls : list call_args) : VariationalDropoutChain :=
  foldl (λ s c, self_after (calc_loss_with s c)) self calls.

(** Whether every call of a sequence returns, and the number of its calls
    with [add_kl=True] *)
Fixpoint all_return (self : VariationalDropoutChain)
    (calls : list call_args) : bool :=
  match calls with
  | [] => true
  | c :: calls =>
      is_ok (returned (calc_loss_with self c))
      && all_return (self_after (calc_loss_with self c)) calls
  end.

Definition count_add_kl (calls : list call_args) : nat :=
  length (filter (λ c, call_add_kl c = true) calls).

(** The VD layers of a network, each of them once *)
Definition vd_leaf_of (l : link) : option leaf :=
  match l with
  | Leaf lf => if is_variational_dropout lf then Some lf else None
  | Chain _ _ => None
  end.

Definition vd_layers (l : link) : list leaf := omap vd_leaf_of (links l).

(** The values [p] of all weights of a network, each weight once *)
Definition p_values (lf : leaf) : list R :=
  match calculate_p lf with
  | Ok a => data a
  | Raise _ => []
  end.

Definition all_weights_p (l : link) : list R :=
  concat (p_values <$> vd_layers l).

(** Among the weights of a network, the number of those with [p] above a
    threshold and of those with [p] at most the threshold *)
Definition n_pruned (l : link) (threshold : R) : nat :=
  length (filter (λ p, (threshold < p)%R) (all_weights_p l)).
Definition n_kept (l : link) (threshold : R) : nat :=
  length (filter (λ p, (p <= threshold)%R) (all_weights_p l)).

End Model.

(** ** A reference host

    Definitions of the imported functions, on which the properties are
    evaluated at concrete inputs. *)

(** [numpy.clip(v, lo, hi)] *)
Definition clip (lo hi v : R) : R := Rmin (Rmax v lo) hi.

(** Modelled from the spec: [vd_functions.calculate_log_alpha], whose code
    is not at hand, computes [log_sigma2 − log(W² + eps)] clipped
    element-wise to the thresholds. *)
Definition calculate_log_alpha_ref (W log_sigma2 : parameter) (eps : R)
    (thresholds : R * R) : ndarray :=
  match pdata W, pdata log_sigma2 with
  | Some w, Some s =>
      ew2 (λ s w, clip thresholds.1 thresholds.2 (s - ln (w * w + eps))%R)
          s w
  | _, _ => NdArray [] []
  end.

Definition sigmoid (v : R) : R := (1 / (1 + exp (- v)))%R.

(** Modelled from the spec: [vd_functions.calculate_kl], whose code is not
    at hand, sums over the weights a polynomial-in-sigmoid approximation of
    the KL divergence as a function of [log_alpha]; the constants are those
    of the usual approximation. *)
Definition calculate_kl_ref (W : parameter) (loga_threshold : R)
    (log_sigma2 : parameter) (eps : R) (thresholds : R * R) : pyfloat :=
  let log_alpha := calculate_log_alpha_ref W log_sigma2 eps thresholds in
  let neg_kl (la : R) : R :=
    (63576 / 100000 * sigmoid (18732 / 10000 + 148695 / 100000 * la)
     - 1 / 2 * ln (1 + exp (- la)) - 63576 / 100000)%R in
  Finite (- foldr Rplus 0 (neg_kl <$> data log_alpha))%R.

Definition dot (u v : list R) : R := foldr Rplus 0%R (zip_with Rmult u v).

(** [x @ W.T] for a batch [x] and a weight matrix [W] *)
Definition matmul_T (x W : ndarray) : result ndarray :=
  match shape x, shape W with
  | n :: rest, [m; k] =>
      if bool_decide (prod_shape rest = k) then
        Ok (NdArray [n; m]
              (xr ← chunks n k (data x); dot xr <$> chunks m k (data W)))
      else Raise ValueError
  | _, _ => Raise ValueError
  end.

Definition add_bias (out : ndarray) (b : option parameter)
  : result ndarray :=
  match b with
  | None => Ok out
  | Some p => F_bias out (pdata p)
  end.

(** Modelled from the spec: [vd_functions.vd_linear], whose code is not at
    hand.  In the training regime the output is [mu + si ⊙ ε] plus the
    bias, with [mu = x @ ((1 − clip_mask) ⊙ W)] and
    [si = sqrt(x² @ (exp(log_alpha) ⊙ W²) + eps)]; otherwise it is
    [x @ ((1 − clip_mask) ⊙ W)] plus the bias.  A batch whose feature
    dimension disagrees with [W] is an error. *)
Definition vd_linear_ref (cfg : config) (noise : initializer) (x : ndarray)
    (W : parameter) (b : option parameter) (loga_threshold : R)
    (log_sigma2 : parameter) (eps : R) (thresholds : R * R)
  : result ndarray :=
  w ← param_data W;
  let log_alpha := calculate_log_alpha_ref W log_sigma2 eps thresholds in
  let clip_mask := nd_gt log_alpha loga_threshold in
  mu ← matmul_T x (nd_mul (one_minus clip_mask) w);
  if train cfg then
    var ← matmul_T (nd_mul x x) (nd_mul (nd_mul (F_exp log_alpha) w) w);
    let si := F_sqrt (ew1 (λ v, (v + eps)%R) var) in
    let normal_noise := NdArray (shape mu) (noise (shape mu)) in
    add_bias (nd_add mu (nd_mul si normal_noise)) b
  else add_bias mu b.

(** Modelled from the spec: [sparse_chainer.SparseLinearForwardCPU], whose
    code is not at hand, keeps the weights that are not pruned, the pruned
    entries being removed, and the bias. *)
Definition new_SparseLinearForwardCPU_ref (l : VariationalDropoutLinear)
    (mask : ndarray) : SparseLinearForwardCPU :=
  let w := from_option data [] (pdata (lin_W (vdl_base l))) in
  let kept := (filter (λ wm : R * R, wm.2 ≠ 0%R) (zip w (data mask))).*1 in
  MkSparse (NdArray [length kept] kept) (lin_b (vdl_base l) ≫= pdata).

(** Two-dimensional convolution (cross-correlation) of a batch
    [x : n × C × H × W] with filters [w : o × C × kh × kw]. *)
Definition at4 (a : ndarray) (n c i j : nat) : R :=
  match shape a with
  | [_; C; Hh; Ww] => nth (((n * C + c) * Hh + i) * Ww + j) (data a) 0%R
  | _ => 0%R
  end.

Definition at4_padded (a : ndarray) (pad : nat * nat) (n c i j : nat) : R :=
  match shape a with
  | [_; _; Hh; Ww] =>
      if bool_decide (pad.1 ≤ i < pad.1 + Hh ∧ pad.2 ≤ j < pad.2 + Ww)
      then at4 a n c (i - pad.1) (j - pad.2)
      else 0%R
  | _ => 0%R
  end.

Definition convolution_2d_ref (x w : ndarray) (b : option ndarray)
    (stride pad : nat * nat) : result ndarray :=
  match shape x, shape w with
  | [n_batch; C; Hh; Ww], [n_out; C'; kh; kw] =>
      if bool_decide (C = C' ∧ 0 < stride.1 ∧ 0 < stride.2
                      ∧ kh ≤ Hh + 2 * pad.1 ∧ kw ≤ Ww + 2 * pad.2) then
        let oh := (Hh + 2 * pad.1 - kh) / stride.1 + 1 in
        let ow := (Ww + 2 * pad.2 - kw) / stride.2 + 1 in
        Ok (NdArray [n_batch; n_out; oh; ow]
              (n ← seq 0 n_batch; o ← seq 0 n_out; i ← seq 0 oh;
               j ← seq 0 ow;
               [(foldr Rplus 0
                   (c ← seq 0 C; u ← seq 0 kh; v ← seq 0 kw;
                    [at4_padded x pad n c (i * stride.1 + u)
                       (j * stride.2 + v) * at4 w o c u v])
                 + from_option (λ b, nth o (data b) 0) 0 b)%R]))
      else Raise ValueError
  | _, _ => Raise ValueError
  end.

(** The LSTM cell: the four gates of a unit are interleaved in the input. *)
Definition lstm_ref (c x : ndarray) : result (ndarray * ndarray) :=
  match shape c, shape x with
  | [n; u], [n'; u4] =>
      if bool_decide (n = n' ∧ u4 = 4 * u) then
        let gate (g : nat) : ndarray :=
          NdArray [n; u]
            ((λ k, nth ((k / u) * (4 * u) + 4 * (k mod u) + g) (data x) 0%R)
               <$> seq 0 (n * u)) in
        let c_next :=
          nd_add (nd_mul (ew1 sigmoid (gate 2)) c)
                 (nd_mul (ew1 sigmoid (gate 1)) (F_tanh (gate 0))) in
        Ok (c_next, nd_mul (ew1 sigmoid (gate 3)) (F_tanh c_next))
      else Raise ValueError
  | _, _ => Raise ValueError
  end.

(** Index of the first largest entry of a row *)
Definition argmax (row : list R) : nat :=
  (foldl (λ (best : nat * R * nat) v,
            let '(bi, bv, i) := best in
            if Rlt_dec bv v then (i, v, S i) else (bi, bv, S i))
         (0, hd 0%R row, 0) row).1.1.

Definition label (v : R) : nat := Z.to_nat (Int_part v).

(** Softmax cross entropy and accuracy of the scores [y : n × k] against
    the labels [t : n] *)
Definition softmax_cross_entropy_ref (y t : ndarray) : pyfloat :=
  match shape y with
  | [n; k] =>
      mean (NdArray [n]
              (zip_with (λ row l,
                           (ln (foldr Rplus 0 (exp <$> row))
                            - nth (label l) row 0)%R)
                        (chunks n k (data y)) (data t)))
  | _ => NaN
  end.

Definition accuracy_ref (y t : ndarray) : pyfloat :=
  match shape y with
  | [n; k] =>
      mean (NdArray [n]
              (zip_with (λ row l,
                           if bool_decide (argmax row = label l)
                           then 1%R else 0%R)
                        (chunks n k (data y)) (data t)))
  | _ => NaN
  end.

(** The forward pass of a chain that applies its child ["l1"], a VD linear
    layer, in the inference regime; other chains return their input. *)
Definition forward_ref (self : link) (x : ndarray) : ndarray :=
  match self with
  | Chain _ ch =>
      match ch !! "l1" with
      | Some (Leaf (LVDLinear l)) =>
          match vd_linear_ref (Config false 0) (Constant 0) x
                  (lin_W (vdl_base l)) (lin_b (vdl_base l))
                  (vdl_loga_threshold l) (vdl_log_sigma2 l)
                  (1 / 100000000)%R ((-8)%R, 8%R) with
          | Ok y => y
          | Raise _ => x
          end
      | _ => x
      end
  | Leaf _ => x
  end.

Definition reference_host : Host := {|
  default_initialW := Constant (1 / 10)%R;
  calculate_log_alpha := calculate_log_alpha_ref;
  calculate_kl := calculate_kl_ref;
  vd_linear := vd_linear_ref;
  new_SparseLinearForwardCPU := new_SparseLinearForwardCPU_ref;
  F_convolution_2d := convolution_2d_ref;
  F_lstm := lstm_ref;
  F_softmax_cross_entropy := softmax_cross_entropy_ref;
  F_accuracy := accuracy_ref;
  forward := forward_ref
|}.

(** A network all of whose links are in host memory *)
Inductive on_cpu : link → Prop :=
| on_cpu_leaf (lf : leaf) : leaf_device lf = CPU → on_cpu (Leaf lf)
| on_cpu_chain (ch : gmap string link) :
    (∀ n c, ch !! n = Some c → on_cpu c) → on_cpu (Chain CPU ch).

(** A network without plain linear or convolution layers *)
Definition converted (l : link) : Prop :=
  ∀ p lf, lookup_path p l = Some (Leaf lf) → is_plain lf = false.

Section Invariants.
Context `{Host}.

Definition chain_children (l : link) : gmap string link :=
  match l with
  | Chain _ ch => ch
  | Leaf _ => ∅
  end.

(** The state [cur] of the chain [Chain d ch] while the loop of the
    conversion runs over its links: the same chain with some of its leaves
    already replaced by their VD variants. *)
Definition conversion_invariant (d : device) (ch : gmap string link)
    (cur : link) : Prop :=
  cur = Chain d (chain_children cur)
  ∧ vd_tree <$> chain_children cur = vd_tree <$> ch
  ∧ ∀ n lf, ch !! n = Some (Leaf lf) →
      chain_children cur !! n = Some (Leaf lf)
      ∨ chain_children cur !! n = Some (Leaf (convert_leaf lf)).

(** The recursion of the conversion returns with [fuel] on every chain of
    height at most [fuel], and leaves that chain converted in its parent. *)
Definition fuel_suffices (fuel : nat) : Prop :=
  ∀ parent name lnk path_name live,
    is_chain lnk = true →
    lookup_path name parent = Some live →
    is_chain live = true →
    height live ≤ fuel →
    converted (vd_tree live) →
    ∃ out,
      to_variational_dropout_link fuel parent name lnk path_name
      = Ok (replace_path name (vd_tree live) parent, out).

End Invariants.

(** ** Example networks and layers *)

Definition array11 (v : R) : ndarray := NdArray [1; 1] [v].

Definition param_of (a : ndarray) : parameter :=
  MkParam (Constant 0) (Some a).

(** A linear layer built with [nobias=True], alone in a chain *)
Definition linear_nobias : Linear :=
  MkLinear 1 (param_of (array11 1)) None CPU.

Definition net_nobias : link :=
  Chain CPU {["fc" := Leaf (LLinear linear_nobias)]}.

(** A chain with a linear layer and an embedding *)
Definition linear_bias : Linear :=
  MkLinear 1 (param_of (array11 2)) (Some (param_of (NdArray [1] [3%R])))
    CPU.

Definition embed : OtherLink :=
  MkOther "EmbedID" {["W" := param_of (array11 5)]} CPU.

Definition net_linear_embed : link :=
  Chain CPU (<["fc" := Leaf (LLinear linear_bias)]>
               {["embed" := Leaf (LOther embed)]}).

(** A VD linear layer with one weight [w] and log-variance [ls] *)
Definition vd_linear_11 (w ls : R) (d : device) : VariationalDropoutLinear :=
  MkVDLinear (MkLinear 1 (param_of (array11 w)) None d)
    (MkParam INITIAL_LOG_SIGMA2 (Some (array11 ls)))
    P_THRESHOLD LOGA_THRESHOLD.

(** A chain with one VD linear layer, in host memory and in the memory of
    accelerator 0 *)
Definition cpu_chain : VariationalDropoutChain :=
  MkVDChain
    (Chain CPU {["l1" := Leaf (LVDLinear (vd_linear_11 1 (-10) CPU))]})
    tenth 0%float None None None None None.

Definition gpu_chain : VariationalDropoutChain :=
  MkVDChain
    (Chain (GPU 0)
       {["l1" := Leaf (LVDLinear (vd_linear_11 1 (-10) (GPU 0)))]})
    tenth 0%float None None None None None.

(** A chain with a VD layer [a] whose weight is pruned and a sub-chain with
    a VD layer [b] whose weight is kept *)
Definition nested_net : link :=
  Chain CPU
    (<["a" := Leaf (LVDLinear (vd_linear_11 1 100 CPU))]>
       {["sub" :=
           Chain CPU
             {["b" := Leaf (LVDLinear (vd_linear_11 1 (-100) CPU))]}]}).

(** A VD convolution with one 1×1 filter whose weight is pruned, an image
    of one pixel, and a noise source that always draws 1 *)
Definition conv_1x1 : VariationalDropoutConvolution2D :=
  MkVDConvolution2D
    (MkConvolution2D 1 (KInt 1) (1, 1) (0, 0)
       (param_of (NdArray [1; 1; 1; 1] [1%R]))
       (Some (param_of (NdArray [1] [0%R]))) CPU)
    (MkParam INITIAL_LOG_SIGMA2 (Some (NdArray [1; 1; 1; 1] [100%R])))
    P_THRESHOLD LOGA_THRESHOLD.

Definition image_1x1 : ndarray := NdArray [1; 1; 1; 1] [1%R].

Definition unit_noise : initializer := Constant 1.

(** A tanh RNN with one input, one unit and a stored state *)
Definition rnn_with_state : VariationalDropoutTanhRNN :=
  MkTanhRNN
    (MkVDLinear
       (MkLinear 1 (param_of (NdArray [1; 2] [1%R; 1%R])) None CPU)
       (MkParam INITIAL_LOG_SIGMA2
          (Some (NdArray [1; 2] [(-10)%R; (-10)%R])))
       P_THRESHOLD LOGA_THRESHOLD)
    1 1 (Some (array11 1)).

(** Three calls of [calc_loss] with [add_kl=True] in the inference regime *)
Definition inference_call : call_args :=
  MkCall (Config false 0) (array11 1) (NdArray [1] [0%R]) true false true.

(** The coefficient after [n] updates [k = min(k + warm_up, 1.)] that start
    from 0 *)
Definition warm_up_schedule (warm_up : float) (n : nat) : float :=
  Nat.iter n (λ k, py_min (k + warm_up) 1) 0%float.

Definition three_calls : list call_args :=
  [inference_call; inference_call; inference_call].

(** A chain with a linear layer built without an input size and never
    called: its weight holds no data yet. *)
Definition lazy_linear_net : link :=
  Chain CPU
    {["fc" := Leaf (LLinear (Linear_init (H := reference_host) None 3 false
                               None None))]}.

Section Sparsified.
Context `{Host}.

(** What [to_cpu_sparse] leaves in the place of a link of the chain: the
    sparse model of a VD linear layer, the link itself otherwise. *)
Definition sparsify (c : link) : link :=
  match c with
  | Leaf (LVDLinear old) => Leaf (LSparse (get_sparse_cpu_model old) CPU)
  | _ => c
  end.

End Sparsified.

(** ** Further example networks *)

(** A chain without VD layers *)
Definition plain_chain : VariationalDropoutChain :=
  MkVDChain net_linear_embed tenth 0%float None None None None None.

(** A chain with two VD layers as its children: the weight of [a] is
    pruned, the weight of [b] is kept. *)
Definition flat_vd_net : link :=
  Chain CPU
    (<["a" := Leaf (LVDLinear (vd_linear_11 1 100 CPU))]>
       {["b" := Leaf (LVDLinear (vd_linear_11 1 (-100) CPU))]}).

(** The chain of [nested_net], which holds a VD linear layer in a
    sub-chain *)
Definition nested_chain : VariationalDropoutChain :=
  MkVDChain nested_net tenth 0%float None None None None None.

(** A chain whose only link has no parameter *)
Definition pooling_chain : VariationalDropoutChain :=
  MkVDChain (Chain CPU {["pool" := Leaf (LOther (MkOther "Pooling" ∅ CPU))]})
    tenth 0%float None None None None None.

(** ** The LeNet architectures of [nets.py] *)

Section Nets.
Context `{Host}.

(** [VD.VariationalDropoutLinear(in_size, out_size)] and
    [VD.VariationalDropoutConvolution2D(in_channels, out_channels, ksize)]
    with the default arguments *)
Definition vd_linear_layer (in_size out_size : nat) : link :=
  Leaf (LVDLinear
          (VariationalDropoutLinear_init (Some in_size) out_size false None
             None P_THRESHOLD LOGA_THRESHOLD INITIAL_LOG_SIGMA2)).

Definition vd_convolution_layer (in_channels out_channels ksize : nat)
  : link :=
  Leaf (LVDConvolution2D
          (VariationalDropoutConvolution2D_init (Some in_channels)
             out_channels (KInt ksize) (KInt 1) (KInt 0) false None None
             P_THRESHOLD LOGA_THRESHOLD INITIAL_LOG_SIGMA2)).

(** [LeNet300100VD.__init__] *)
Definition LeNet300100VD_init (warm_up : float)
  : result VariationalDropoutChain :=
  let self := VariationalDropoutChain_init warm_up ∅ in
  n ← add_link (net self) "l1" (vd_linear_layer 784 300);
  n ← add_link n "l2" (vd_linear_layer 300 100);
  n ← add_link n "l3" (vd_linear_layer 100 10);
  Ok (with_net self n).

(** [LeNet5VD.__init__] *)
Definition LeNet5VD_init (warm_up : float)
  : result VariationalDropoutChain :=
  let self := VariationalDropoutChain_init warm_up ∅ in
  n ← add_link (net self) "conv1" (vd_convolution_layer 1 20 5);
  n ← add_link n "conv2" (vd_convolution_layer 20 50 5);
  n ← add_link n "fc3" (vd_linear_layer 800 500);
  n ← add_link n "fc4" (vd_linear_layer 500 10);
  Ok (with_net self n).

End Nets.

(** A VD convolution with one 1×1 filter, built without a bias *)
Definition conv_1x1_nobias : VariationalDropoutConvolution2D :=
  MkVDConvolution2D
    (MkConvolution2D 1 (KInt 1) (1, 1) (0, 0)
       (param_of (NdArray [1; 1; 1; 1] [1%R])) None CPU)
    (MkParam INITIAL_LOG_SIGMA2 (Some (NdArray [1; 1; 1; 1] [(-10)%R])))
    P_THRESHOLD LOGA_THRESHOLD.

(** Ten calls of [calc_loss] with [add_kl=True] *)
Definition ten_calls : list call_args := replicate 10 inference_call.

(** * Properties *)

Section Properties.
Context `{Host}.

Lemma omap_kl_term_nil (ls : list link) :
  omap kl_term ls = [] → omap vd_leaf_of ls = [].
Proof.
  induction ls as [|l ls IH]; [done|].
  destruct l as [[]|]; cbn; try done.
Qed.

Lemma calc_loss_kl_fields cfg self class_loss ignore :
  let r := calc_loss_kl cfg self class_loss ignore in
  net r.1.1.1 = net self ∧ warm_up r.1.1.1 = warm_up self
  ∧ kl_coef r.1.1.1
    = match omap kl_term (links (net self)) with
      | [] => kl_coef self
      | _ => py_min (kl_coef self + warm_up self) 1
      end.
Proof.
  unfold calc_loss_kl.
  destruct (omap kl_term (links (net self))) as [|v vs]; cbn; [done|].
  destruct (train cfg && isnan _); cbn; done.
Qed.

Lemma calc_loss_fields cfg self x t add_kl split_loss calc_stats :
  let self' := self_after (calc_loss cfg self x t add_kl split_loss calc_stats) in
  net self' = net self ∧ warm_up self' = warm_up self
  ∧ kl_coef self'
    = if add_kl then
        match omap kl_term (links (net self)) with
        | [] => kl_coef self
        | _ => py_min (kl_coef self + warm_up self) 1
        end
      else kl_coef self.
Proof.
  unfold calc_loss.
  set (y := forward (net self) x).
  set (cl := if bool_decide _ then _ else _).
  destruct (train cfg && isnan cl); cbn zeta beta iota.
  all: destruct add_kl.
  all: try match goal with
       | |- context [calc_loss_kl ?c ?s ?l ?i] =>
           pose proof (calc_loss_kl_fields c s l i) as Hk;
           destruct (calc_loss_kl c s l i) as [[[s1 r1] i1] [u|e]]
       end; cbn in *.
  all: repeat match goal with
       | |- context [if ?b then _ else _] => destruct b; cbn
       | |- context [match ?r with Ok _ => _ | Raise _ => _ end] => destruct r as [[]|]; cbn
       | |- context [match ?r with Some _ => _ | None => _ end] => destruct r; cbn
       end; try done.
Qed.

Lemma calc_loss_kl_loss_inference m self x t split_loss calc_stats :
  attr_kl_loss (self_after (calc_loss (Config false m) self x t true
                              split_loss calc_stats))
  = Some (scalar_scale (py_sum (omap kl_term (links (net self))))
            (kl_coef self)).
Proof.
  unfold calc_loss, calc_loss_kl. cbn [train andb].
  set (y := forward (net self) x).
  set (cl := if bool_decide _ then _ else _).
  cbn [net with_class_loss with_y kl_coef].
  set (k := scalar_scale _ _).
  destruct (scalar_data k) as [d|e]; cbn; [|done].
  repeat match goal with
  | |- context [if ?b then _ else _] => destruct b; cbn
  | |- context [match ?r with Ok _ => _ | Raise _ => _ end] =>
      destruct r as [[]|]; cbn
  end; done.
Qed.

Lemma calc_loss_kl_raises cfg self x t split_loss calc_stats :
  omap kl_term (links (net self)) = [] →
  returned (calc_loss cfg self x t true split_loss calc_stats)
  = Raise (AttributeError "data").
Proof.
  intros Hkl. unfold calc_loss, calc_loss_kl.
  set (y := forward (net self) x).
  set (cl := if bool_decide _ then _ else _).
  destruct (train cfg && isnan cl); cbn zeta beta iota.
  all: cbn [net with_class_loss with_y kl_coef]; rewrite Hkl; reflexivity.
Qed.

Lemma after_calls_snoc self calls c :
  after_calls self (calls ++ [c])
  = self_after (calc_loss_with (after_calls self calls) c).
Proof. unfold after_calls. by rewrite foldl_app. Qed.

Lemma after_calls_cons self c calls :
  after_calls self (c :: calls)
  = after_calls (self_after (calc_loss_with self c)) calls.
Proof. reflexivity. Qed.

Lemma after_calls_fields self calls :
  net (after_calls self calls) = net self
  ∧ warm_up (after_calls self calls) = warm_up self.
Proof.
  induction calls as [|c calls IH] using rev_ind; [done|].
  rewrite after_calls_snoc. unfold calc_loss_with.
  destruct (calc_loss_fields (call_cfg c) (after_calls self calls) (call_x c)
              (call_t c) (call_add_kl c) (call_split_loss c)
              (call_calc_stats c)) as (Hn & Hw & _).
  destruct IH as [IH1 IH2]. split; congruence.
Qed.

Lemma kl_coef_step self c :
  kl_coef (self_after (calc_loss_with self c)) = kl_coef self
  ∨ kl_coef (self_after (calc_loss_with self c))
    = py_min (kl_coef self + warm_up self) 1.
Proof.
  unfold calc_loss_with.
  destruct (calc_loss_fields (call_cfg c) self (call_x c) (call_t c)
              (call_add_kl c) (call_split_loss c) (call_calc_stats c))
    as (_ & _ & Hk).
  rewrite Hk. destruct (call_add_kl c); [|by left].
  destruct (omap kl_term _); [by left|by right].
Qed.

Lemma kl_coef_step_unchanged self c :
  call_add_kl c = false →
  kl_coef (self_after (calc_loss_with self c)) = kl_coef self.
Proof.
  intros Hadd. unfold calc_loss_with.
  destruct (calc_loss_fields (call_cfg c) self (call_x c) (call_t c)
              (call_add_kl c) (call_split_loss c) (call_calc_stats c))
    as (_ & _ & Hk).
  by rewrite Hk, Hadd.
Qed.

Lemma kl_coef_step_returned self c :
  is_ok (returned (calc_loss_with self c)) = true →
  kl_coef (self_after (calc_loss_with self c))
  = if call_add_kl c then py_min (kl_coef self + warm_up self) 1
    else kl_coef self.
Proof.
  intros Hok. unfold calc_loss_with in *.
  destruct (calc_loss_fields (call_cfg c) self (call_x c) (call_t c)
              (call_add_kl c) (call_split_loss c) (call_calc_stats c))
    as (_ & _ & Hk).
  rewrite Hk. destruct (call_add_kl c); [|reflexivity].
  destruct (omap kl_term (links (net self))) eqn:E; [|reflexivity].
  by rewrite calc_loss_kl_raises in Hok.
Qed.

Lemma py_min_not_above_one (s : float) : (1 <? py_min s 1)%float = false.
Proof.
  unfold py_min. destruct (1 <? s)%float eqn:E; [reflexivity|exact E].
Qed.

Lemma after_calls_kl_coef self calls :
  all_return self calls = true →
  kl_coef (after_calls self calls)
  = Nat.iter (count_add_kl calls) (λ k, py_min (k + warm_up self) 1)
      (kl_coef self).
Proof.
  revert self. induction calls as [|c calls IH]; intros self Hall; [done|].
  cbn [all_return] in Hall. apply andb_prop in Hall as [Hc Hall].
  rewrite after_calls_cons, IH by done.
  rewrite (kl_coef_step_returned self c Hc).
  assert (warm_up (self_after (calc_loss_with self c)) = warm_up self) as ->
    by apply calc_loss_fields.
  unfold count_add_kl. destruct (call_add_kl c) eqn:E.
  - rewrite filter_cons_True by done. cbn [length].
    by rewrite Nat.iter_succ_r.
  - rewrite filter_cons_False; [done|]. by rewrite E.
Qed.

(** *** The schedule of the coefficient for [warm_up = 0.1] *)

Lemma warm_up_schedule_succ (w : float) (n : nat) :
  warm_up_schedule w (S n) = py_min (warm_up_schedule w n + w) 1.
Proof. reflexivity. Qed.

Lemma warm_up_schedule_from_eleven (n : nat) :
  warm_up_schedule tenth (11 + n) = 1%float.
Proof.
  induction n as [|n IH]; [vm_compute; reflexivity|].
  rewrite Nat.add_succ_r, warm_up_schedule_succ, IH.
  vm_compute. reflexivity.
Qed.

Lemma warm_up_schedule_bounds (n : nat) :
  (0 <=? warm_up_schedule tenth n)%float = true
  ∧ (warm_up_schedule tenth n <=? 1)%float = true
  ∧ (warm_up_schedule tenth n <=? warm_up_schedule tenth (S n))%float = true.
Proof.
  destruct (le_lt_dec 11 n) as [Hn|Hn].
  - replace n with (11 + (n - 11)) by lia.
    replace (S (11 + (n - 11))) with (11 + S (n - 11)) by lia.
    rewrite !warm_up_schedule_from_eleven. by vm_compute.
  - do 11 (destruct n as [|n]; [by vm_compute|]). lia.
Qed.

(** C5, as the code has it: the coefficient is a binary64 number that each
    returning call of [calc_loss] with [add_kl=True] replaces by
    [min(kl_coef + warm_up, 1.)]; a call with [add_kl=False] leaves it as
    it is, and it never comes to exceed 1.  On a chain built with
    [warm_up = 0.1], after calls that all return its value is the one [n]
    updates lead to from 0, [n] being the number of calls with
    [add_kl=True]: these values do not decrease with [n] and lie in
    [[0, 1]], but the accumulated rounding makes them differ from
    [min(0.1 * n, 1.)]: the value is 0.9999999999999999 at [n = 10] and 1
    from [n = 11] on. *)
Theorem kl_coef_warm_up_schedule (children : gmap string link)
    (calls : list call_args) :
  all_return (VariationalDropoutChain_init tenth children) calls = true →
  kl_coef (after_calls (VariationalDropoutChain_init tenth children) calls)
  = warm_up_schedule tenth (count_add_kl calls)
  ∧ (∀ n, (0 <=? warm_up_schedule tenth n)%float = true
          ∧ (warm_up_schedule tenth n <=? 1)%float = true
          ∧ (warm_up_schedule tenth n
             <=? warm_up_schedule tenth (S n))%float = true)
  ∧ warm_up_schedule tenth 10 = 0x1.fffffffffffffp-1%float
  ∧ (∀ n, warm_up_schedule tenth (11 + n) = 1%float)
  ∧ ∀ (s : VariationalDropoutChain) (c : call_args),
      (is_ok (returned (calc_loss_with s c)) = true →
       kl_coef (self_after (calc_loss_with s c))
       = if call_add_kl c then py_min (kl_coef s + warm_up s) 1
         else kl_coef s)
      ∧ (call_add_kl c = false →
         kl_coef (self_after (calc_loss_with s c)) = kl_coef s)
      ∧ ((1 <? kl_coef s)%float = false →
         (1 <? kl_coef (self_after (calc_loss_with s c)))%float = false).
Proof.
  intros Hall. split.
  { by rewrite (after_calls_kl_coef _ _ Hall). }
  split; [apply warm_up_schedule_bounds|].
  split; [by vm_compute|].
  split; [apply warm_up_schedule_from_eleven|].
  intros s c. split; [apply kl_coef_step_returned|].
  split; [apply kl_coef_step_unchanged|].
  intros Hs. destruct (kl_coef_step s c) as [-> | ->]; [exact Hs|].
  apply py_min_not_above_one.
Qed.

(** C10: a chain built with [warm_up = 0] starts with [kl_coef = 1], any
    other [warm_up] makes it start at [0]; with [warm_up = 0] the first call
    of [calc_loss] weighs the KL term by 1 and leaves [kl_coef] at 1. *)
Theorem initial_kl_coef (w : float) (children : gmap string link) (m : Z)
    (x t : ndarray) (split_loss calc_stats : bool) :
  kl_coef (VariationalDropoutChain_init w children)
  = (if (w =? 0)%float then 1%float else 0%float)
  ∧ let first :=
      self_after (calc_loss (Config false m)
                    (VariationalDropoutChain_init 0 children) x t true
                    split_loss calc_stats) in
    attr_kl_loss first
    = Some (scalar_scale
              (py_sum (omap kl_term (links (Chain CPU children)))) 1)
    ∧ kl_coef first = 1%float.
Proof.
  split.
  - unfold VariationalDropoutChain_init, py_bool. cbn [kl_coef].
    by destruct (w =? 0)%float.
  - cbn zeta. split.
    + by rewrite calc_loss_kl_loss_inference.
    + destruct (calc_loss_fields (Config false m)
                  (VariationalDropoutChain_init 0 children) x t true
                  split_loss calc_stats) as (_ & _ & ->).
      destruct (omap _ _); by vm_compute.
Qed.

(** *** The VD convolution in the training regime *)

Lemma mask_twice (la W : ndarray) (t : R) :
  nd_mul (one_minus (nd_gt la t)) (nd_mul (one_minus (nd_gt la t)) W)
  = nd_mul (one_minus (nd_gt la t)) W.
Proof.
  unfold nd_mul, ew2, one_minus, nd_gt, ew1. cbn. f_equal.
  generalize (data W) as w.
  induction (data la) as [|v l IH]; intros [|x w]; cbn; try done.
  f_equal; [|apply IH]. destruct (Rlt_dec t v); lra.
Qed.

Lemma masked_variance_weights (la W : ndarray) (t : R) :
  nd_mul (nd_mul (F_exp la) (nd_mul (one_minus (nd_gt la t)) W))
         (nd_mul (one_minus (nd_gt la t)) W)
  = nd_mul (one_minus (nd_gt la t)) (nd_mul (nd_mul (F_exp la) W) W).
Proof.
  unfold nd_mul, ew2, one_minus, nd_gt, ew1, F_exp. cbn. f_equal.
  generalize (data W) as w.
  induction (data la) as [|v l IH]; intros [|x w]; cbn; try done.
  f_equal; [|apply IH]. destruct (Rlt_dec t v); ring.
Qed.

(** C6, as the code has it: in the training regime the output of a VD
    convolution that has a bias is [mu + sqrt(var + eps) ⊙ ε] plus the
    bias, where [mu = conv(x, (1 − clip_mask) ⊙ W)] and the variance term
    is computed from the masked weights,
    [var = conv(x², (1 − clip_mask) ⊙ exp(log_alpha) ⊙ W²)], with the same
    stride and padding in both convolutions. *)
Theorem dropout_convolution_2d_train (m : Z) (noise : initializer)
    (self : VariationalDropoutConvolution2D) (x : ndarray) :
  is_Some (conv_b (vdc_base self) ≫= pdata) →
  dropout_convolution_2d (Config true m) noise self x
  = dropout_convolution_2d_masked_variance noise self x.
Proof.
  intros [b Hb].
  unfold dropout_convolution_2d, dropout_convolution_2d_masked_variance.
  cbn [train]. cbv zeta. rewrite Hb.
  destruct (param_data (conv_W (vdc_base self))) as [W|e]; cbn; [|done].
  by rewrite mask_twice, masked_variance_weights.
Qed.

(** *** The recurrent layers *)

(** C7, as the code has it: a stateless call (the caller supplies [h]) that
    returns leaves the stored state cleared, not untouched; a stateful call
    that returns stores the new state, and a stateful call computes from the
    stored state what a stateless call computes from the same [h]. *)
Theorem tanh_rnn_call_state (cfg : config) (noise : initializer)
    (self : VariationalDropoutTanhRNN) (x h0 : ndarray) :
  (∀ h,
     let r := VariationalDropoutTanhRNN_call cfg noise self x (Some h) in
     match r.2 with
     | Ok _ => rnn_h r.1 = None
     | Raise _ => rnn_h r.1 = rnn_h self
     end)
  ∧ (let r := VariationalDropoutTanhRNN_call cfg noise self x None in
     match r.2 with
     | Ok new_h => rnn_h r.1 = Some new_h
     | Raise _ => True
     end)
  ∧ (VariationalDropoutTanhRNN_call cfg noise (with_rnn_h self (Some h0)) x
       None).2
    = (VariationalDropoutTanhRNN_call cfg noise self x (Some h0)).2.
Proof.
  unfold VariationalDropoutTanhRNN_call. repeat split.
  - intros h. cbn.
    destruct (F_concat x h); cbn; [|done].
    destruct (VariationalDropoutLinear_call _ _ _ _) as [? [?|?]]; done.
  - cbn. destruct (rnn_h self) as [h|]; cbn.
    + destruct (F_concat x h); cbn; [|done].
      destruct (VariationalDropoutLinear_call _ _ _ _) as [? [?|?]]; done.
    + destruct (shape0 x); cbn; [|done].
      destruct (F_concat x _); cbn; [|done].
      destruct (VariationalDropoutLinear_call _ _ _ _) as [? [?|?]]; done.
  - cbn. destruct (F_concat x h0); cbn; [|done].
    destruct (VariationalDropoutLinear_call _ _ _ _) as [? [?|?]]; done.
Qed.

(** C2, what the code does: once a hidden state exists, the value handed to
    the gating function is the sum of the upward projection of [x] and the
    lateral projection of [x]; the hidden state itself is not read, so any
    other hidden state gives the same value. *)
Theorem lstm_in_lateral_on_input (cfg : config) (noise : initializer)
    (up lat : VariationalDropoutLinear) (in_size : option nat)
    (out_size : nat) (h h' : ndarray) (c : option ndarray) (x : ndarray) :
  (VariationalDropoutLSTM_lstm_in cfg noise
     (MkLSTM up lat in_size out_size (Some h) c) x).2
  = (u ← (VariationalDropoutLinear_call cfg noise up x).2;
     l ← (VariationalDropoutLinear_call cfg noise lat x).2;
     Ok (nd_add u l))
  ∧ (VariationalDropoutLSTM_lstm_in cfg noise
       (MkLSTM up lat in_size out_size (Some h) c) x).2
    = (VariationalDropoutLSTM_lstm_in cfg noise
         (MkLSTM up lat in_size out_size (Some h') c) x).2.
Proof.
  unfold VariationalDropoutLSTM_lstm_in, F_forget. cbn.
  split.
  all: repeat case_bool_decide.
  all: destruct (VariationalDropoutLinear_call cfg noise up x) as [? [?|?]];
    cbn; [|done].
  all: destruct (VariationalDropoutLinear_call cfg noise lat x)
         as [? [?|?]]; done.
Qed.

(** C3, what the code does: the first call of a VD linear or VD convolution
    layer built with an unknown input size materializes [W] at the inferred
    shape and leaves [log_sigma2] without data. *)
Theorem lazy_initialization_skips_log_sigma2 (cfg : config)
    (noise : initializer) (out_size : nat) (ksize stride pad : int_or_pair)
    (nobias : bool) (initialW initial_bias : option initializer)
    (p_threshold loga_threshold : R) (initial_log_sigma2 : initializer)
    (n c : nat) (rest : list nat) (d : list R) :
  (let x := NdArray (S n :: rest) d in
   let self :=
     (VariationalDropoutLinear_call cfg noise
        (VariationalDropoutLinear_init None out_size nobias initialW
           initial_bias p_threshold loga_threshold initial_log_sigma2)
        x).1 in
   param_shape (lin_W (vdl_base self)) = Ok [out_size; size x / S n]
   ∧ pdata (vdl_log_sigma2 self) = None)
  ∧ (let x := NdArray (n :: c :: rest) d in
     let self :=
       (VariationalDropoutConvolution2D_call cfg noise
          (VariationalDropoutConvolution2D_init None out_size ksize stride
             pad nobias initialW initial_bias p_threshold loga_threshold
             initial_log_sigma2)
          x).1 in
     param_shape (conv_W (vdc_base self))
     = Ok [out_size; c; (_pair ksize).1; (_pair ksize).2]
     ∧ pdata (vdc_log_sigma2 self) = None).
Proof.
  split.
  - cbn. done.
  - unfold VariationalDropoutConvolution2D_call,
      VariationalDropoutConvolution2D_init, Convolution2D_init,
      VariationalDropoutConvolution2D_initialize_params.
    destruct (_pair ksize) as [kh kw] eqn:E. cbn. rewrite E. cbn. done.
Qed.

(** C9, what the code does: on a layer of another class, [get_vd_link]
    builds the [NotImplementedError] without raising it; the call then fails
    on the unbound variable [new_link], or earlier on the missing attribute
    [W]. *)
Theorem get_vd_link_unsupported (o : OtherLink) (p_threshold
    loga_threshold : R) (initial_log_sigma2 : initializer) :
  get_vd_link (LOther o) p_threshold loga_threshold initial_log_sigma2
  = match other_params o !! "W" with
    | Some _ => Raise (UnboundLocalError "new_link")
    | None => Raise (AttributeError "W")
    end.
Proof.
  unfold get_vd_link. cbn.
  destruct (other_device o); cbn; destruct (other_params o !! "W"); done.
Qed.

(** *** Traversals as lists *)

Lemma foldr_app_bind {A B} (g : A → list B) (l : list A) :
  foldr (λ x acc, g x ++ acc) [] l = l ≫= g.
Proof. induction l as [|x l IH]; cbn; [done|by rewrite IH]. Qed.

Lemma namedlinks_chain d ch :
  namedlinks (Chain d ch)
  = map_to_list ch ≫= λ nc,
      (([nc.1], nc.2)
         :: map (λ e : path * link, (nc.1 :: e.1, e.2)) (namedlinks nc.2)).
Proof.
  cbn [namedlinks]. rewrite map_fold_foldr, <- foldr_app_bind.
  apply foldr_ext; [|done..]. by intros [n c] acc.
Qed.

Lemma elem_of_namedlinks_chain d ch p l :
  (p, l) ∈ namedlinks (Chain d ch)
  ↔ ∃ n c, ch !! n = Some c
      ∧ (p = [n] ∧ l = c ∨ ∃ p', p = n :: p' ∧ (p', l) ∈ namedlinks c).
Proof.
  rewrite namedlinks_chain, list_elem_of_bind. split.
  - intros ([n c] & Hin & Hm). apply elem_of_map_to_list in Hm.
    exists n, c. split; [done|]. cbn in Hin.
    apply elem_of_cons in Hin as [Heq|Hin].
    + left. by inversion Heq.
    + right. apply list_elem_of_fmap in Hin as ([p' l'] & Heq & Hin).
      cbn in Heq. inversion Heq; subst. by exists p'.
  - intros (n & c & Hm & Hcase). exists (n, c).
    split; [|by apply elem_of_map_to_list]. cbn.
    destruct Hcase as [[-> ->]|(p' & -> & Hin)].
    + apply elem_of_cons. by left.
    + apply elem_of_cons. right. apply list_elem_of_fmap.
      by exists (p', l).
Qed.

Lemma namedlinks_lookup t p l :
  (p, l) ∈ namedlinks t → p ≠ [] ∧ lookup_path p t = Some l.
Proof.
  revert t. induction p as [|n p IH]; intros [lf|d ch] Hin.
  - by apply elem_of_nil in Hin.
  - apply elem_of_namedlinks_chain in Hin
      as (n & c & _ & [[? _]|(p' & ? & _)]); done.
  - by apply elem_of_nil in Hin.
  - split; [done|].
    apply elem_of_namedlinks_chain in Hin
      as (n' & c & Hc & [[Heq ->]|(p' & Heq & Hin)]).
    + inversion Heq; subst. cbn. by rewrite Hc.
    + inversion Heq; subst. cbn. rewrite Hc. cbn. by apply IH.
Qed.

Lemma namedlinks_child d ch n c :
  ch !! n = Some c → ([n], c) ∈ namedlinks (Chain d ch).
Proof.
  intros Hc. apply elem_of_namedlinks_chain. exists n, c. split; [done|].
  by left.
Qed.

Lemma elem_of_sorted_namedlinks t e :
  e ∈ sorted_namedlinks t ↔ e ∈ namedlinks t.
Proof. unfold sorted_namedlinks. by rewrite merge_sort_Permutation. Qed.

(** *** Height and induction on a network *)

Lemma height_chain d ch :
  height (Chain d ch)
  = S (foldr (λ nc acc, height nc.2 `max` acc) 0 (map_to_list ch)).
Proof.
  cbn [height]. rewrite map_fold_foldr. f_equal.
  apply foldr_ext; [|done..]. by intros [n c] acc.
Qed.

Lemma height_child_lt d ch n c :
  ch !! n = Some c → height c < height (Chain d ch).
Proof.
  intros Hc. rewrite height_chain. apply elem_of_map_to_list in Hc.
  induction (map_to_list ch) as [|[n' c'] l IH]; [by apply elem_of_nil in Hc|].
  apply elem_of_cons in Hc as [Heq|Hin]; cbn.
  - inversion Heq; subst. lia.
  - specialize (IH Hin). lia.
Qed.

Lemma link_tree_ind (P : link → Prop) :
  (∀ lf, P (Leaf lf)) →
  (∀ d ch, (∀ n c, ch !! n = Some c → P c) → P (Chain d ch)) →
  ∀ l, P l.
Proof.
  intros Hleaf Hchain l.
  remember (height l) as k eqn:Hk. revert l Hk.
  induction k as [k IH] using lt_wf_ind. intros [lf|d ch] ->; [done|].
  apply Hchain. intros n c Hc. eapply IH; [|done].
  by eapply height_child_lt.
Qed.

Lemma lookup_path_height p t x :
  p ≠ [] → lookup_path p t = Some x → height x < height t.
Proof.
  revert t. induction p as [|n p IH]; intros [lf|d ch] Hne Hl; try done.
  cbn in Hl. destruct (ch !! n) as [c|] eqn:Hc; [|done]. cbn in Hl.
  pose proof (height_child_lt d ch n c Hc).
  destruct p as [|m p]; [cbn in Hl; by inversion Hl; subst|].
  specialize (IH c ltac:(done) Hl). lia.
Qed.

(** *** Host memory *)

Lemma to_cpu_on_cpu l : on_cpu (to_cpu l).
Proof.
  induction l as [lf|d ch IH] using link_tree_ind; cbn.
  - constructor. by destruct lf.
  - constructor. intros n c Hc. rewrite lookup_fmap in Hc.
    destruct (ch !! n) as [c0|] eqn:E; [|done]. cbn in Hc.
    inversion Hc; subst. by eapply IH.
Qed.

Lemma on_cpu_device l : on_cpu l → link_device l = CPU.
Proof. by destruct 1. Qed.

Lemma delattr_on_cpu parent name parent' :
  on_cpu parent → delattr parent name = Ok parent' → on_cpu parent'.
Proof.
  destruct 1 as [lf|ch Hch]; cbn; [done|].
  destruct (ch !! name) eqn:E; [|done]. intros [= <-].
  constructor. intros n c Hc. apply lookup_delete_Some in Hc as [_ Hc].
  by eapply Hch.
Qed.

Lemma add_link_on_cpu parent name l parent' :
  on_cpu parent → on_cpu l → add_link parent name l = Ok parent' →
  on_cpu parent'.
Proof.
  destruct 1 as [lf|ch Hch]; cbn; [done|]. intros Hl.
  destruct (ch !! name) eqn:E; [done|]. intros [= <-].
  constructor. intros n c Hc. apply lookup_insert_Some in Hc
    as [[_ <-]|[_ Hc]]; [done|by eapply Hch].
Qed.

Lemma to_cpu_sparse_body_invariant s e :
  on_cpu (sp_self s) → WarnSparseCPU ∉ sp_out s →
  on_cpu (sp_self (to_cpu_sparse_body s e))
  ∧ WarnSparseCPU ∉ sp_out (to_cpu_sparse_body s e).
Proof.
  intros Hcpu Hout. unfold to_cpu_sparse_body.
  destruct (sp_raised s); [done|].
  destruct (n_params e.2) as [n_old|ex]; [|done].
  destruct e.2 as [lf|d ch]; [|done].
  assert (∀ ev, ev ≠ WarnSparseCPU → WarnSparseCPU ∉ sp_out s ++ [ev])
    as Hsnoc.
  { intros ev Hev [Hin|Hin%list_elem_of_singleton]%elem_of_app; done. }
  destruct lf; cbn; try (split; [done|by apply Hsnoc]).
  destruct (delattr (sp_self s) _) as [self1|ex] eqn:Hdel; cbn; [|done].
  assert (on_cpu self1) as H1 by by eapply delattr_on_cpu.
  destruct (add_link self1 _ _) as [self2|ex] eqn:Hadd; cbn; [|done].
  assert (on_cpu self2) as H2.
  { eapply add_link_on_cpu; [done| |done]. by constructor. }
  destruct (percent _ _); cbn; [|done].
  split; [done|by apply Hsnoc].
Qed.

Lemma to_cpu_sparse_loop_invariant es s :
  on_cpu (sp_self s) → WarnSparseCPU ∉ sp_out s →
  on_cpu (sp_self (foldl to_cpu_sparse_body s es))
  ∧ WarnSparseCPU ∉ sp_out (foldl to_cpu_sparse_body s es).
Proof.
  revert s. induction es as [|e es IH]; intros s Hcpu Hout; [done|].
  cbn. destruct (to_cpu_sparse_body_invariant s e Hcpu Hout). by apply IH.
Qed.

Lemma to_cpu_sparse_on_cpu (self : VariationalDropoutChain) :
  on_cpu (net (self_after (to_cpu_sparse self)))
  ∧ WarnSparseCPU ∉ emitted (to_cpu_sparse self).
Proof.
  unfold to_cpu_sparse. cbn [net with_net].
  pose proof (to_cpu_on_cpu (net self)) as Hcpu.
  assert (xp (to_cpu (net self)) = numpy) as Hxp.
  { unfold xp. by rewrite (on_cpu_device _ Hcpu). }
  rewrite Hxp. rewrite bool_decide_eq_false_2 by (intros Hne; by apply Hne).
  cbn [app].
  set (s0 := MkSparseState _ _ _ _ _).
  destruct (to_cpu_sparse_loop_invariant
              (sorted_namedlinks (to_cpu (net self))) s0) as [H1 H2].
  { done. }
  { cbn. by intros ?%list_elem_of_singleton. }
  destruct (sp_raised _); cbn; [done|].
  destruct (percent _ _); cbn; [|done]. split; [done|].
  intros [Hin|Hin%list_elem_of_singleton]%elem_of_app; done.
Qed.

(** C4, as the code has it: wherever the network resides, [to_cpu_sparse]
    itself moves every link of it to host memory before it sparsifies, and
    the warning about accelerator memory is never emitted. *)
Theorem to_cpu_sparse_migrates (self : VariationalDropoutChain) :
  let r := to_cpu_sparse self in
  on_cpu (net (self_after r)) ∧ xp (net (self_after r)) = numpy
  ∧ WarnSparseCPU ∉ emitted r.
Proof.
  cbn zeta. destruct (to_cpu_sparse_on_cpu self) as [Hcpu Hw].
  repeat split; [done| |done].
  unfold xp. by rewrite (on_cpu_device _ Hcpu).
Qed.

(** *** The VD variant of a network *)

Lemma lookup_path_app p q t :
  lookup_path (p ++ q) t = lookup_path p t ≫= lookup_path q.
Proof.
  revert t. induction p as [|n p IH]; intros t; [done|].
  destruct t as [lf|d ch]; [done|]. cbn.
  destruct (ch !! n) as [c|]; cbn; [apply IH|done].
Qed.

Lemma lookup_path_vd_tree p t :
  lookup_path p (vd_tree t) = vd_tree <$> lookup_path p t.
Proof.
  revert t. induction p as [|n p IH]; intros t; [done|].
  destruct t as [lf|d ch]; [done|]. cbn. rewrite lookup_fmap.
  destruct (ch !! n) as [c|]; cbn; [apply IH|done].
Qed.

Lemma converted_lookup p t x :
  converted t → lookup_path p t = Some x → converted x.
Proof.
  intros Ht Hx q lf Hq. apply (Ht (p ++ q)).
  by rewrite lookup_path_app, Hx.
Qed.

Lemma converted_leaf lf : is_plain lf = false → converted (Leaf lf).
Proof. intros Hp [|n p] lf' Hl; [by inversion Hl; subst|done]. Qed.

Lemma converted_chain d ch :
  (∀ n c, ch !! n = Some c → converted c) → converted (Chain d ch).
Proof.
  intros Hch [|n p] lf Hl; [done|]. cbn in Hl.
  destruct (ch !! n) as [c|] eqn:E; [|done]. by eapply Hch.
Qed.

Lemma convert_leaf_not_plain lf :
  is_plain lf = false → convert_leaf lf = lf.
Proof. unfold convert_leaf. by intros ->. Qed.

Lemma converted_vd_tree_id t : converted t → vd_tree t = t.
Proof.
  induction t as [lf|d ch IH] using link_tree_ind; intros Ht; cbn.
  - f_equal. apply convert_leaf_not_plain. by apply (Ht []).
  - f_equal. apply map_eq. intros n. rewrite lookup_fmap.
    destruct (ch !! n) as [c|] eqn:E; cbn; [|done]. f_equal.
    eapply IH; [done|]. apply (converted_lookup [n] (Chain d ch)); [done|].
    cbn. by rewrite E.
Qed.

Lemma foldr_max_ext {A} (f g : A → nat) (l : list A) :
  (∀ x, x ∈ l → f x = g x) →
  foldr (λ x acc, f x `max` acc) 0 l = foldr (λ x acc, g x `max` acc) 0 l.
Proof.
  induction l as [|x l IH]; intros Hfg; [done|]. cbn.
  rewrite IH, (Hfg x); [done|apply list_elem_of_here|].
  intros y Hy. apply Hfg. by apply list_elem_of_further.
Qed.

Lemma vd_tree_height t : height (vd_tree t) = height t.
Proof.
  induction t as [lf|d ch IH] using link_tree_ind; [done|].
  cbn [vd_tree height]. rewrite map_fold_fmap, !map_fold_foldr. f_equal.
  transitivity (foldr (λ nc acc, height (vd_tree nc.2) `max` acc) 0
                  (map_to_list ch)).
  { apply foldr_ext; [|done..]. by intros [n c] acc. }
  transitivity (foldr (λ nc acc, height nc.2 `max` acc) 0 (map_to_list ch)).
  2: { apply foldr_ext; [|done..]. by intros [n c] acc. }
  apply foldr_max_ext. intros [n c] Hin. cbn.
  apply elem_of_map_to_list in Hin. by eapply IH.
Qed.

Lemma replace_path_vd_tree p new t :
  vd_tree (replace_path p new t)
  = replace_path p (vd_tree new) (vd_tree t).
Proof.
  revert t. induction p as [|n p IH]; intros t; [done|].
  destruct t as [lf|d ch]; [done|]. cbn. rewrite lookup_fmap.
  destruct (ch !! n) as [c|]; cbn; [|done].
  by rewrite fmap_insert, IH.
Qed.

Lemma replace_path_same p t x :
  lookup_path p t = Some x → replace_path p x t = t.
Proof.
  revert t. induction p as [|n p IH]; intros t Hl.
  - cbn in *. by inversion Hl.
  - destruct t as [lf|d ch]; [done|]. cbn in *.
    destruct (ch !! n) as [c|] eqn:E; [|done]. cbn in Hl.
    rewrite (IH c Hl). by rewrite insert_id.
Qed.

Lemma vd_tree_is_chain t : is_chain (vd_tree t) = is_chain t.
Proof. by destruct t. Qed.

(** *** One layer *)

Lemma np_any_eq_same (a : ndarray) (sh : list nat) :
  data a ≠ [] → np_any_eq a (NdArray sh (data a)) = true.
Proof.
  unfold np_any_eq. cbn. destruct (data a) as [|x l]; [done|]. intros _.
  cbn. by rewrite bool_decide_eq_true_2.
Qed.

Lemma get_vd_link_plain lf new_link :
  get_vd_link lf P_THRESHOLD LOGA_THRESHOLD INITIAL_LOG_SIGMA2 = Ok new_link →
  is_plain new_link = false.
Proof.
  unfold get_vd_link.
  set (lf' := if _cpu _ then _ else _).
  destruct (leaf_W lf') as [W|]; cbn; [|done].
  assert (∀ (r : result (option leaf)) (k : leaf → result leaf),
            (∀ l, r = Ok (Some l) → is_plain l = false) →
            (∀ l l', is_plain l = false → k l = Ok l' → is_plain l' = false) →
            (new_link ← r; l ← read_local "new_link" new_link; k l)
            = Ok new_link → is_plain new_link = false) as Hgen.
  { intros [[l|]|] k Hr Hk; cbn; try done. intros Hkl.
    eapply Hk; [|done]. by apply Hr. }
  apply Hgen.
  - intros l. destruct lf'; cbn; try done.
    + destruct (param_shape W) as [[|? [|? [|]]]|]; cbn; try done.
      by intros [= <-].
    + destruct (param_shape W) as [sh|]; cbn; [|done].
      destruct (take 2 sh) as [|? [|? [|]]]; cbn; try done.
      by intros [= <-].
  - clear. intros l l' Hl.
    destruct (param_data W) as [a|]; cbn; [|done].
    destruct (leaf_assign_W l a) as [l1|] eqn:E1; cbn; [|done].
    assert (is_plain l1 = false) as H1.
    { destruct l; cbn in *; try done.
      - destruct (assign_param _ _); cbn in E1; [|done]. by inversion E1.
      - destruct (assign_param _ _); cbn in E1; [|done]. by inversion E1. }
    destruct (leaf_W l1) as [W1|]; cbn; [|done].
    destruct (param_data W1) as [d1|]; cbn; [|done].
    destruct (assert_any_eq a d1); cbn; [|done].
    destruct (leaf_b lf' ≫= pdata) as [bias|]; cbn.
    + destruct (leaf_assign_b l1 bias) as [l2|] eqn:E2; cbn; [|done].
      assert (is_plain l2 = false) as H2.
      { destruct l1; cbn in *; try done.
        - destruct (assign_b _ _); cbn in E2; [|done]. by inversion E2.
        - destruct (assign_b _ _); cbn in E2; [|done]. by inversion E2. }
      destruct (from_option _ _ _); cbn; [|done].
      destruct (assert_any_eq _ _); cbn; [|done].
      intros [= <-]. case_bool_decide; [|done]. by destruct l2.
    + intros [= <-]. case_bool_decide; [|done]. by destruct l1.
Qed.

Lemma convert_leaf_idem lf :
  is_plain (convert_leaf lf) = false →
  convert_leaf (convert_leaf lf) = convert_leaf lf.
Proof. apply convert_leaf_not_plain. Qed.

Lemma convert_leaf_get_vd_link lf :
  is_plain lf = true → is_plain (convert_leaf lf) = false →
  get_vd_link lf P_THRESHOLD LOGA_THRESHOLD INITIAL_LOG_SIGMA2
  = Ok (convert_leaf lf).
Proof.
  unfold convert_leaf. intros Hp. rewrite Hp.
  destruct (get_vd_link _ _ _ _); [done|congruence].
Qed.

(** *** The conversion loop *)

Lemma for_links_raise {S} (body : S → path * link → result S) es e :
  foldl (λ acc e, s ← acc; body s e) (Raise e) es = Raise e.
Proof. by induction es. Qed.

Lemma for_links_cons {S} (body : S → path * link → result S) e es s :
  for_links body (e :: es) s = (s' ← body s e; for_links body es s').
Proof.
  unfold for_links. cbn. destruct (body s e); cbn; [done|].
  apply for_links_raise.
Qed.

Lemma to_variational_dropout_link_leaf f parent name lf pn :
  to_variational_dropout_link f parent name (Leaf lf) pn
  = match name with
    | _ :: _ :: _ => Ok (parent, [])
    | _ =>
        let attr := raw_name_str name in
        if is_plain lf then
          new_link ← get_vd_link lf P_THRESHOLD LOGA_THRESHOLD
                       INITIAL_LOG_SIGMA2;
          parent ← delattr parent attr;
          parent ← add_link parent attr (Leaf new_link);
          Ok (parent, [PrintReplace (pn +:+ attr)])
        else Ok (parent, [PrintRetain (pn +:+ attr)])
    end.
Proof. destruct f, lf; reflexivity. Qed.

Lemma vd_tree_chain_children t d ch :
  vd_tree t = Chain d ch → ∃ ch', t = Chain d ch' ∧ vd_tree <$> ch' = ch.
Proof. destruct t as [lf|d' ch']; [done|]. intros [= -> <-]. eauto. Qed.

Lemma lookup_path_leaf_child d ch n p lf x :
  ch !! n = Some (Leaf lf) → lookup_path (n :: p) (Chain d ch) = Some x →
  p = [] ∧ x = Leaf lf.
Proof.
  cbn. intros ->. cbn. destruct p; cbn; [|done]. by intros [= <-].
Qed.

Lemma conversion_step f pn d ch cur e :
  fuel_suffices f →
  height (Chain d ch) ≤ S f →
  converted (vd_tree (Chain d ch)) →
  conversion_invariant d ch cur →
  e ∈ namedlinks (Chain d ch) →
  ∃ cur' out,
    to_variational_dropout_link f cur e.1 e.2 pn = Ok (cur', out)
    ∧ conversion_invariant d ch cur'
    ∧ (∀ n c c', chain_children cur !! n = Some c → converted c →
         chain_children cur' !! n = Some c' → converted c')
    ∧ (∀ n c', e.1 = [n] → chain_children cur' !! n = Some c' →
         converted c').
Proof.
  intros Hfuel Hheight Hconv (Hcur & Hfmap & Hleaves) Hin.
  destruct cur as [|d' ch']; [done|]. cbn in Hcur, Hfmap, Hleaves.
  injection Hcur as ->. cbn [chain_children].
  destruct e as [p l]. cbn [fst snd].
  destruct (namedlinks_lookup _ _ _ Hin) as [Hne Hl].
  destruct p as [|n p]; [done|]. clear Hne.
  assert (lookup_path (n :: p) (vd_tree (Chain d ch)) = Some (vd_tree l))
    as Hlv by by rewrite lookup_path_vd_tree, Hl.
  assert (vd_tree (Chain d ch') = vd_tree (Chain d ch)) as Htree.
  { cbn. by rewrite Hfmap. }
  destruct l as [lf|d2 ch2].
  - (* a leaf *)
    rewrite to_variational_dropout_link_leaf.
    destruct p as [|m p].
    + cbn in Hl. destruct (ch !! n) as [c|] eqn:Hn; [|done].
      cbn in Hl. injection Hl as ->.
      assert (is_plain (convert_leaf lf) = false) as Hnew.
      { apply (Hconv [n]). cbn. rewrite lookup_fmap, Hn. done. }
      assert (raw_name_str [n] = n) as -> by by destruct n.
      cbn zeta.
      destruct (is_plain lf) eqn:Hplain.
      * rewrite (convert_leaf_get_vd_link lf Hplain Hnew). cbn.
        assert (is_Some (ch' !! n)) as [c Hc].
        { destruct (Hleaves n lf Hn) as [-> | ->]; eauto. }
        rewrite Hc. cbn. rewrite lookup_delete_eq. cbn.
        rewrite insert_delete_eq.
        eexists _, _. split; [done|].
        unfold conversion_invariant. cbn [chain_children].
        split; [|split].
        -- split; [done|]. split.
           ++ rewrite fmap_insert, Hfmap. cbn.
              rewrite (convert_leaf_not_plain _ Hnew).
              apply insert_id. by rewrite lookup_fmap, Hn.
           ++ intros m lf' Hm. destruct (decide (n = m)) as [<-|Hnm].
              ** rewrite lookup_insert_eq. right.
                 rewrite Hn in Hm. by injection Hm as ->.
              ** rewrite lookup_insert_ne by done. by apply Hleaves.
        -- intros m c0 c' Hc0 Hcc Hc'.
           destruct (decide (n = m)) as [<-|Hnm].
           ++ rewrite lookup_insert_eq in Hc'. injection Hc' as <-.
              by apply converted_leaf.
           ++ rewrite lookup_insert_ne in Hc' by done. rewrite Hc0 in Hc'.
              by injection Hc' as <-.
        -- intros m c' [= <-]. rewrite lookup_insert_eq. intros [= <-].
           by apply converted_leaf.
      * eexists _, _. split; [done|].
        unfold conversion_invariant. cbn [chain_children].
        split; [done|]. split.
        -- intros m c0 c' Hc0 Hcc Hc'. rewrite Hc0 in Hc'. by injection Hc' as <-.
        -- intros m c' [= <-] Hc'.
           destruct (Hleaves n lf Hn) as [Hc | Hc];
             rewrite Hc in Hc'; injection Hc' as <-;
             by apply converted_leaf.
    + eexists _, _. split; [done|].
      unfold conversion_invariant. cbn [chain_children].
      split; [done|]. split.
      * intros m' c0 c' Hc0 Hcc Hc'. rewrite Hc0 in Hc'. by injection Hc' as <-.
      * intros m' c'. done.
  - (* a chain *)
    assert (lookup_path (n :: p) (vd_tree (Chain d ch'))
            = Some (vd_tree (Chain d2 ch2)))
      as Hcurv by by rewrite Htree.
    rewrite lookup_path_vd_tree in Hcurv.
    destruct (lookup_path (n :: p) (Chain d ch')) as [live|] eqn:Hlive;
      [|done].
    cbn in Hcurv. injection Hcurv as Hlv'.
    assert (converted (vd_tree live)) as Hlc.
    { cbn [vd_tree]. rewrite Hlv'.
      by apply (converted_lookup (n :: p) _ _ Hconv). }
    destruct (Hfuel (Chain d ch') (n :: p) (Chain d2 ch2) pn live)
      as [out Hrun]; [done|done| | |done|].
    { rewrite <- vd_tree_is_chain. cbn [vd_tree]. by rewrite Hlv'. }
    { rewrite <- vd_tree_height. cbn [vd_tree].
      rewrite Hlv'.
      change (Chain d2 (vd_tree <$> ch2)) with (vd_tree (Chain d2 ch2)).
      rewrite vd_tree_height.
      pose proof (lookup_path_height (n :: p) (Chain d ch) (Chain d2 ch2)
                    ltac:(done) Hl). lia. }
    rewrite Hrun. eexists _, _. split; [done|].
    cbn in Hlive.
    destruct (ch' !! n) as [c|] eqn:Hc; [|done]. cbn in Hlive.
    assert (replace_path (n :: p) (vd_tree live) (Chain d ch')
            = Chain d (<[n := replace_path p (vd_tree live) c]> ch'))
      as ->.
    { cbn. by rewrite Hc. }
    assert (∀ lf, ch !! n ≠ Some (Leaf lf)) as Hnleaf.
    { intros lf Hn. cbn in Hl. rewrite Hn in Hl. cbn in Hl.
      destruct p; cbn in Hl; done. }
    unfold conversion_invariant. cbn [chain_children].
    split; [|split].
    + split; [done|]. split.
      * rewrite fmap_insert, replace_path_vd_tree.
        rewrite (converted_vd_tree_id (vd_tree live) Hlc).
        rewrite <- Hfmap. apply insert_id. rewrite lookup_fmap, Hc. cbn.
        f_equal. symmetry. apply replace_path_same.
        by rewrite lookup_path_vd_tree, Hlive.
      * intros m lf Hm.
        destruct (decide (n = m)) as [<-|Hnm]; [by destruct (Hnleaf lf)|].
        rewrite lookup_insert_ne by done. by apply Hleaves.
    + intros m c0 c' Hc0 Hcc.
      destruct (decide (n = m)) as [<-|Hnm].
      * rewrite lookup_insert_eq. intros [= <-].
        rewrite Hc in Hc0. injection Hc0 as <-.
        assert (converted live) as Hlconv by by eapply converted_lookup.
        rewrite (converted_vd_tree_id live Hlconv).
        by rewrite (replace_path_same p c live Hlive).
      * rewrite lookup_insert_ne by done. intros Hc'. rewrite Hc0 in Hc'.
        by injection Hc' as <-.
    + intros m c' [= -> ->]. rewrite lookup_insert_eq.
      by intros [= <-].
Qed.

Lemma conversion_loop_gen f pn d ch es :
  fuel_suffices f →
  height (Chain d ch) ≤ S f →
  converted (vd_tree (Chain d ch)) →
  (∀ e, e ∈ es → e ∈ namedlinks (Chain d ch)) →
  ∀ cur out0,
    conversion_invariant d ch cur →
    ∃ cur' out,
      for_links
        (λ (st : link * list event) (e : path * link),
           r ← to_variational_dropout_link f st.1 e.1 e.2 pn;
           Ok (r.1, st.2 ++ r.2))
        es (cur, out0)
      = Ok (cur', out)
      ∧ conversion_invariant d ch cur'
      ∧ (∀ n c c', chain_children cur !! n = Some c → converted c →
           chain_children cur' !! n = Some c' → converted c')
      ∧ (∀ n l c', ([n], l) ∈ es → chain_children cur' !! n = Some c' →
           converted c').
Proof.
  intros Hfuel Hheight Hconv.
  induction es as [|e es IH]; intros Hes cur out0 Hinv.
  - exists cur, out0. split; [done|]. split; [done|]. split.
    + intros n c c' Hc Hcc Hc'. rewrite Hc in Hc'. by injection Hc' as <-.
    + intros n l c' Hin. by apply elem_of_nil in Hin.
  - destruct (conversion_step f pn d ch cur e Hfuel Hheight Hconv Hinv)
      as (cur1 & out1 & Hstep & Hinv1 & Hpres1 & Hdone1).
    { apply Hes, list_elem_of_here. }
    destruct (IH (λ e' He', Hes e' (list_elem_of_further _ _ _ He')) cur1
                (out0 ++ out1) Hinv1)
      as (cur2 & out2 & Hloop & Hinv2 & Hpres2 & Hdone2).
    exists cur2, out2. split; [|split; [done|split]].
    + rewrite for_links_cons. cbn [fst snd]. rewrite Hstep. cbn. done.
    + intros n c c' Hc Hcc Hc'.
      destruct Hinv1 as (_ & Hf1 & _). destruct Hinv as (_ & Hf0 & _).
      assert (is_Some (chain_children cur1 !! n)) as [c1 Hc1].
      { apply (f_equal (lookup n)) in Hf0, Hf1.
        rewrite !lookup_fmap in Hf0, Hf1. rewrite Hc in Hf0.
        rewrite <- Hf0 in Hf1.
        destruct (chain_children cur1 !! n); [eauto|done]. }
      eapply Hpres2; [done| |done]. by eapply Hpres1.
    + intros n l c' Hin Hc'.
      apply elem_of_cons in Hin as [Heq|Hin]; [|by eapply Hdone2].
      destruct Hinv2 as (_ & Hf2 & _). destruct Hinv1 as (_ & Hf1 & _).
      assert (is_Some (chain_children cur1 !! n)) as [c1 Hc1].
      { apply (f_equal (lookup n)) in Hf1, Hf2.
        rewrite !lookup_fmap in Hf1, Hf2. rewrite Hc' in Hf2.
        rewrite <- Hf2 in Hf1.
        destruct (chain_children cur1 !! n); [eauto|done]. }
      eapply Hpres2; [done| |done].
      eapply (Hdone1 n); [|done]. by rewrite <- Heq.
Qed.

Lemma conversion_loop f pn d ch out0 :
  fuel_suffices f →
  height (Chain d ch) ≤ S f →
  converted (vd_tree (Chain d ch)) →
  ∃ out,
    for_links
      (λ (st : link * list event) (e : path * link),
         r ← to_variational_dropout_link f st.1 e.1 e.2 pn;
         Ok (r.1, st.2 ++ r.2))
      (sorted_namedlinks (Chain d ch)) (Chain d ch, out0)
    = Ok (vd_tree (Chain d ch), out).
Proof.
  intros Hfuel Hheight Hconv.
  destruct (conversion_loop_gen f pn d ch (sorted_namedlinks (Chain d ch))
              Hfuel Hheight Hconv) with (cur := Chain d ch) (out0 := out0)
    as (cur' & out & Hloop & (Hcur & Hfmap & _) & _ & Hdone).
  { intros e. by rewrite elem_of_sorted_namedlinks. }
  { split; [done|]. split; [done|]. intros n lf Hn. by left. }
  exists out. rewrite Hloop. f_equal. f_equal.
  assert (converted cur') as Hc'.
  { rewrite Hcur. apply converted_chain. intros n c' Hn.
    assert (is_Some (ch !! n)) as [c Hc].
    { apply (f_equal (lookup n)) in Hfmap. rewrite !lookup_fmap, Hn in Hfmap.
      destruct (ch !! n); [eauto|done]. }
    eapply (Hdone n c); [|done].
    apply elem_of_sorted_namedlinks. by apply namedlinks_child. }
  rewrite <- (converted_vd_tree_id cur' Hc'). rewrite Hcur. cbn.
  by rewrite Hfmap.
Qed.

Lemma fuel_always_suffices f : fuel_suffices f.
Proof.
  induction f as [|f IH];
    intros parent name lnk pn live Hlnk Hlive Hchain Hheight Hconv.
  - destruct live; [done|]. cbn in Hheight. lia.
  - destruct lnk as [lf|d0 ch0]; [done|].
    destruct live as [lf|d ch]; [done|].
    cbn [to_variational_dropout_link]. rewrite Hlive.
    destruct (conversion_loop f (raw_name_str name +:+ "/") d ch [] IH
                Hheight Hconv) as [out Hloop].
    rewrite Hloop. cbn. eauto.
Qed.

Lemma to_variational_dropout_vd_tree d ch :
  converted (vd_tree (Chain d ch)) →
  ∃ out,
    to_variational_dropout (Chain d ch) = Ok (vd_tree (Chain d ch), out).
Proof.
  intros Hconv. unfold to_variational_dropout.
  apply conversion_loop; [apply fuel_always_suffices|lia|done].
Qed.

(** *** The VD variant of a well-formed plain layer *)

Lemma assert_any_eq_same (a : ndarray) :
  data a ≠ [] → assert_any_eq a a = Ok ().
Proof.
  intros Ha. unfold assert_any_eq, np_any_eq.
  destruct (data a) as [|x l]; [done|]. cbn.
  by rewrite bool_decide_eq_true_2.
Qed.

Lemma get_vd_link_linear (l : Linear) (a : ndarray) (o i : nat) :
  pdata (lin_W l) = Some a → shape a = [o; i] → data a ≠ [] →
  well_formed_bias (lin_b l) o →
  get_vd_link (LLinear l) P_THRESHOLD LOGA_THRESHOLD INITIAL_LOG_SIGMA2
  = Ok (LVDLinear
          (MkVDLinear
             (MkLinear o (MkParam default_initialW (Some a))
                (Some (MkParam (Constant 0)
                         (Some (default (zeros [o]) (lin_b l ≫= pdata)))))
                (lin_device l))
             (MkParam INITIAL_LOG_SIGMA2
                (Some (NdArray [o; i] (INITIAL_LOG_SIGMA2 [o; i]))))
             P_THRESHOLD LOGA_THRESHOLD)).
Proof.
  destruct l as [os [Wi Wd] b dev]. destruct a as [sh d]. cbn.
  intros -> -> Hd Hb. unfold get_vd_link.
  assert (∀ bias, b ≫= pdata = Some bias →
            shape bias = [o] ∧ data bias ≠ []) as Hbias.
  { intros bias Hbias. destruct b as [p|]; [|done]. cbn in Hbias.
    by eapply Hb. }
  destruct dev as [|id]; cbn; unfold assign_all; cbn.
  all: rewrite (bool_decide_eq_true_2 (@eq (list nat) _ _)) by done; cbn.
  all: rewrite (assert_any_eq_same (NdArray [o; i] d) Hd); cbn.
  all: destruct (b ≫= pdata) as [[bsh bd]|] eqn:Eb; cbn.
  all: try (destruct (Hbias _ eq_refl) as [Hs Hbd]; cbn in Hs, Hbd; subst bsh;
            unfold assign_all; cbn;
            rewrite (bool_decide_eq_true_2 (@eq (list nat) _ _)) by done; cbn;
            rewrite (assert_any_eq_same (NdArray [o] bd) Hbd); cbn).
  all: try rewrite bool_decide_eq_true_2 by lia.
  all: try rewrite bool_decide_eq_false_2 by lia.
  all: cbn; rewrite ?Nat2Z.id; done.
Qed.

Lemma get_vd_link_convolution_2d (c : Convolution2D) (a : ndarray)
    (o i : nat) :
  pdata (conv_W c) = Some a →
  shape a = [o; i; (_pair (conv_ksize c)).1; (_pair (conv_ksize c)).2] →
  data a ≠ [] →
  well_formed_bias (conv_b c) o →
  get_vd_link (LConvolution2D c) P_THRESHOLD LOGA_THRESHOLD
    INITIAL_LOG_SIGMA2
  = Ok (LVDConvolution2D
          (MkVDConvolution2D
             (MkConvolution2D o (conv_ksize c) (conv_stride c) (conv_pad c)
                (MkParam default_initialW (Some a))
                (Some (MkParam (Constant 0)
                         (Some (default (zeros [o]) (conv_b c ≫= pdata)))))
                (conv_device c))
             (MkParam INITIAL_LOG_SIGMA2
                (Some (NdArray (shape a) (INITIAL_LOG_SIGMA2 (shape a)))))
             P_THRESHOLD LOGA_THRESHOLD)).
Proof.
  destruct c as [oc ks [s1 s2] [p1 p2] [Wi Wd] b dev].
  destruct a as [sh d]. cbn.
  intros -> -> Hd Hb. unfold get_vd_link.
  assert (∀ bias, b ≫= pdata = Some bias →
            shape bias = [o] ∧ data bias ≠ []) as Hbias.
  { intros bias Hbias. destruct b as [p|]; [|done]. cbn in Hbias.
    by eapply Hb. }
  unfold VariationalDropoutConvolution2D_init, Convolution2D_init,
    VariationalDropoutConvolution2D_initialize_params.
  destruct ks as [k|kh kw]; destruct dev as [|id]; cbn; unfold assign_all;
    cbn.
  all: rewrite (bool_decide_eq_true_2 (@eq (list nat) _ _)) by done; cbn.
  all: rewrite (assert_any_eq_same (NdArray _ d) Hd); cbn.
  all: destruct (b ≫= pdata) as [[bsh bd]|] eqn:Eb; cbn.
  all: try (destruct (Hbias _ eq_refl) as [Hs Hbd]; cbn in Hs, Hbd; subst bsh;
            unfold assign_all; cbn;
            rewrite (bool_decide_eq_true_2 (@eq (list nat) _ _)) by done; cbn;
            rewrite (assert_any_eq_same (NdArray [o] bd) Hbd); cbn).
  all: try rewrite bool_decide_eq_true_2 by lia.
  all: try rewrite bool_decide_eq_false_2 by lia.
  all: cbn; rewrite ?Nat2Z.id; done.
Qed.

Lemma well_formed_converted (self : link) :
  (∀ p lf, lookup_path p self = Some (Leaf lf) → well_formed_plain lf) →
  converted (vd_tree self).
Proof.
  intros Hwf p lf' Hl. rewrite lookup_path_vd_tree in Hl.
  destruct (lookup_path p self) as [[lf|]|] eqn:E; cbn in Hl; try done.
  injection Hl as <-. specialize (Hwf p lf E).
  destruct lf as [l|c| | | |]; try done.
  - destruct Hwf as (a & o & i & HW & Hs & Hd & Hb).
    unfold convert_leaf. cbn [is_plain].
    by rewrite (get_vd_link_linear l a o i HW Hs Hd Hb).
  - destruct Hwf as (a & o & i & HW & Hs & Hd & Hb).
    unfold convert_leaf. cbn [is_plain].
    by rewrite (get_vd_link_convolution_2d c a o i HW Hs Hd Hb).
Qed.

(** C1, as the code has it: on a chain whose plain layers are well formed,
    [to_variational_dropout] returns, and in the resulting network every
    leaf sits under the name it had: a plain linear or convolution layer has
    become a VD layer of the same sizes, kernel size, stride, padding and
    device, that holds the original [W], a [log_sigma2] of the shape of [W]
    filled with −10, the default thresholds, and always a bias, the
    original one when there was one and zeros otherwise; every other leaf is
    the leaf it was. *)
Theorem to_variational_dropout_converts (d : device)
    (ch : gmap string link) :
  (∀ p lf, lookup_path p (Chain d ch) = Some (Leaf lf) →
           well_formed_plain lf) →
  ∃ self' out,
    to_variational_dropout (Chain d ch) = Ok (self', out)
    ∧ ∀ p lf, lookup_path p (Chain d ch) = Some (Leaf lf) →
        match lf with
        | LLinear l =>
            ∃ a o i,
              pdata (lin_W l) = Some a ∧ shape a = [o; i]
              ∧ lookup_path p self'
                = Some (Leaf (LVDLinear
                     (MkVDLinear
                        (MkLinear o (MkParam default_initialW (Some a))
                           (Some (MkParam (Constant 0)
                                    (Some (default (zeros [o])
                                             (lin_b l ≫= pdata)))))
                           (lin_device l))
                        (MkParam INITIAL_LOG_SIGMA2
                           (Some (NdArray [o; i]
                                    (Constant (-10) [o; i]))))
                        P_THRESHOLD LOGA_THRESHOLD)))
        | LConvolution2D c =>
            ∃ a o i,
              pdata (conv_W c) = Some a
              ∧ shape a = [o; i; (_pair (conv_ksize c)).1;
                           (_pair (conv_ksize c)).2]
              ∧ lookup_path p self'
                = Some (Leaf (LVDConvolution2D
                     (MkVDConvolution2D
                        (MkConvolution2D o (conv_ksize c) (conv_stride c)
                           (conv_pad c) (MkParam default_initialW (Some a))
                           (Some (MkParam (Constant 0)
                                    (Some (default (zeros [o])
                                             (conv_b c ≫= pdata)))))
                           (conv_device c))
                        (MkParam INITIAL_LOG_SIGMA2
                           (Some (NdArray (shape a)
                                    (Constant (-10) (shape a)))))
                        P_THRESHOLD LOGA_THRESHOLD)))
        | _ => lookup_path p self' = Some (Leaf lf)
        end.
Proof.
  intros Hwf.
  destruct (to_variational_dropout_vd_tree d ch) as [out Hrun].
  { by apply well_formed_converted. }
  exists (vd_tree (Chain d ch)), out. split; [done|].
  intros p lf Hl. specialize (Hwf p lf Hl).
  assert (lookup_path p (vd_tree (Chain d ch)) = Some (Leaf (convert_leaf lf)))
    as Hl' by by rewrite lookup_path_vd_tree, Hl.
  destruct lf as [l|c| | | |]; try done.
  - destruct Hwf as (a & o & i & HW & Hs & Hd & Hb).
    exists a, o, i. split; [done|]. split; [done|]. rewrite Hl'.
    unfold convert_leaf. cbn [is_plain].
    by rewrite (get_vd_link_linear l a o i HW Hs Hd Hb).
  - destruct Hwf as (a & o & i & HW & Hs & Hd & Hb).
    exists a, o, i. split; [done|]. split; [done|]. rewrite Hl'.
    unfold convert_leaf. cbn [is_plain].
    by rewrite (get_vd_link_convolution_2d c a o i HW Hs Hd Hb).
Qed.

(** ** Further properties of the layers and of the loss *)

(** X2: a VD layer constructed with a known input size has both [W] and
    [log_sigma2] materialized, with the same shape, and a call leaves the
    layer as it is. *)
Theorem known_input_size_materializes_both (cfg : config)
    (noise : initializer) (in_size out_size : nat)
    (ksize stride pad : int_or_pair) (nobias : bool)
    (initialW initial_bias : option initializer)
    (p_threshold loga_threshold : R) (initial_log_sigma2 : initializer)
    (x : ndarray) :
  (let self :=
     VariationalDropoutLinear_init (Some in_size) out_size nobias initialW
       initial_bias p_threshold loga_threshold initial_log_sigma2 in
   param_shape (lin_W (vdl_base self)) = Ok [out_size; in_size]
   ∧ param_shape (vdl_log_sigma2 self) = Ok [out_size; in_size]
   ∧ (VariationalDropoutLinear_call cfg noise self x).1 = self)
  ∧ (let self :=
       VariationalDropoutConvolution2D_init (Some in_size) out_size ksize
         stride pad nobias initialW initial_bias p_threshold loga_threshold
         initial_log_sigma2 in
     let W_shape := [out_size; in_size; (_pair ksize).1; (_pair ksize).2] in
     param_shape (conv_W (vdc_base self)) = Ok W_shape
     ∧ param_shape (vdc_log_sigma2 self) = Ok W_shape
     ∧ (VariationalDropoutConvolution2D_call cfg noise self x).1 = self).
Proof.
  split.
  - cbn. repeat split; reflexivity.
  - destruct ksize; cbn; repeat split; reflexivity.
Qed.

Lemma calc_loss_stats_keys (self : VariationalDropoutChain) rs w :
  calc_loss_stats self = Ok (rs, w) →
  ∀ k v, Report k v ∈ rs → k = "mean_p" ∨ k = "sparsity" ∨ k = "W/Wnz".
Proof.
  unfold calc_loss_stats. intros Hs k v Hin.
  destruct (calculate_stats (net self) P_THRESHOLD) as [r|]; cbn in Hs;
    [|discriminate].
  destruct (getitem r.1 "mean_p"); cbn in Hs; [|discriminate].
  destruct (getitem r.1 "sparsity"); cbn in Hs; [|discriminate].
  destruct (getitem r.1 "W/Wnz"); cbn in Hs; [|discriminate].
  injection Hs as <- <-.
  rewrite !elem_of_cons, elem_of_nil in Hin.
  destruct Hin as [Hr|[Hr|[Hr|[]]]]; injection Hr as -> _; auto.
Qed.

Lemma calc_loss_tail_keys (self : VariationalDropoutChain) (cs : bool) rs w :
  (if cs then calc_loss_stats self else Ok ([], [])) = Ok (rs, w) →
  ∀ k v, Report k v ∈ rs → k = "mean_p" ∨ k = "sparsity" ∨ k = "W/Wnz".
Proof.
  destruct cs.
  - apply calc_loss_stats_keys.
  - intros [= <- <-] k v Hin. by apply elem_of_nil in Hin.
Qed.

(** X3: a call of [calc_loss] with [add_kl=False] leaves the coefficient
    [kl_coef] and the attribute [kl_loss] as they were, stores the
    classification loss as the loss, and reports neither a KL term nor a
    coefficient. *)
Theorem calc_loss_without_kl (cfg : config) (self : VariationalDropoutChain)
    (x t : ndarray) (split_loss calc_stats : bool) :
  let r := calc_loss cfg self x t false split_loss calc_stats in
  kl_coef (self_after r) = kl_coef self
  ∧ attr_kl_loss (self_after r) = attr_kl_loss self
  ∧ attr_loss (self_after r) = attr_class_loss (self_after r)
  ∧ ∀ v, (Report "kl" v ∉ reported r) ∧ (Report "kl_coef" v ∉ reported r).
Proof.
  unfold calc_loss.
  set (y := forward (net self) x).
  set (cl := if bool_decide _ then _ else _).
  destruct (train cfg && isnan cl); cbn zeta beta iota.
  all: match goal with
       | |- context [if ?cs then calc_loss_stats ?s else ?b] =>
           pose proof (calc_loss_tail_keys s cs) as Hkeys;
           destruct (if cs then calc_loss_stats s else b) as [[rs w]|e]
       end.
  all: cbn zeta beta iota; try specialize (Hkeys rs w eq_refl).
  all: cbn [attr_kl_loss with_accuracy with_loss with_class_loss with_y].
  all: try (destruct split_loss; [destruct (attr_kl_loss self) eqn:Ekl|]).
  all: cbn; repeat split; try reflexivity; try exact Ekl.
  all: intros Hin; rewrite ?elem_of_app, ?elem_of_cons, ?elem_of_nil in Hin.
  all: repeat match goal with
       | Hin : _ ∨ _ |- _ => destruct Hin as [Hin|Hin]
       | Hin : Report _ _ = Report _ _ |- _ => discriminate Hin
       | Hin : False |- _ => destruct Hin
       | Hin : Report _ _ ∈ _ |- _ =>
           apply Hkeys in Hin; destruct Hin as [Hin|[Hin|Hin]];
           discriminate Hin
       end.
Qed.

(** X4: on a chain without any VD layer a call of [calc_loss] with
    [add_kl=True] raises [AttributeError]: the sum of no KL term is a plain
    number, which has no attribute [data].  The exception comes before the
    coefficient [kl_coef] is advanced. *)
Theorem calc_loss_kl_without_vd_layers (cfg : config)
    (self : VariationalDropoutChain) (x t : ndarray)
    (split_loss calc_stats : bool) :
  vd_layers (net self) = [] →
  let r := calc_loss cfg self x t true split_loss calc_stats in
  returned r = Raise (AttributeError "data")
  ∧ kl_coef (self_after r) = kl_coef self
  ∧ attr_kl_loss (self_after r) = Some (PyFloat (0 * kl_coef self)%float)
  ∧ ∀ v, Report "kl_coef" v ∉ reported r.
Proof.
  intros Hvd.
  assert (omap kl_term (links (net self)) = []) as Hkl.
  { unfold vd_layers in Hvd. revert Hvd.
    generalize (links (net self)). intros ls.
    induction ls as [|l ls IH]; [reflexivity|].
    destruct l as [[]|]; cbn; try discriminate; exact IH. }
  unfold calc_loss, calc_loss_kl.
  set (y := forward (net self) x).
  set (cl := if bool_decide _ then _ else _).
  destruct (train cfg && isnan cl); cbn zeta beta iota.
  all: cbn [net with_class_loss with_y kl_coef]; rewrite Hkl; cbn.
  all: repeat split; try reflexivity.
  all: intros v Hin; rewrite ?elem_of_app, ?elem_of_cons, ?elem_of_nil in Hin.
  all: repeat match goal with
       | Hin : _ ∨ _ |- _ => destruct Hin as [Hin|Hin]
       | Hin : Report _ _ = Report _ _ |- _ => discriminate Hin
       | Hin : False |- _ => destruct Hin
       end.
Qed.

Lemma calc_loss_kl_reports cfg self class_loss ignore :
  let r := calc_loss_kl cfg self class_loss ignore in
  attr_class_loss r.1.1.1 = attr_class_loss self
  ∧ (ignore = true → r.1.2 = true)
  ∧ ∀ k v, Report k v ∈ r.1.1.2 → k = "kl" ∨ k = "kl_coef".
Proof.
  unfold calc_loss_kl.
  destruct (scalar_data _) as [d|e]; cbn.
  - destruct (train cfg && isnan d); cbn.
    all: repeat split; try reflexivity; try (intros ->; reflexivity).
    all: intros k v Hin;
      rewrite ?elem_of_app, ?elem_of_cons, ?elem_of_nil in Hin.
    all: repeat match goal with
         | Hin : _ ∨ _ |- _ => destruct Hin as [Hin|Hin]
         | Hin : Report _ _ = Report _ _ |- _ => injection Hin as -> _
         | Hin : False |- _ => destruct Hin
         end; auto.
  - repeat split; try reflexivity; try (intros ->; reflexivity).
    intros k v Hin. by apply elem_of_nil in Hin.
Qed.

Lemma class_loss_forget (m : Z) (y t : ndarray) :
  (if bool_decide (0 < m)%Z then F_forget (F_softmax_cross_entropy y) t
   else F_softmax_cross_entropy y t)
  = F_softmax_cross_entropy y t.
Proof. by destruct (bool_decide _). Qed.

Ltac solve_report_membership Hkl Hkeys :=
  repeat match goal with
  | Hin : _ ∨ _ |- _ => destruct Hin as [Hin|Hin]
  | Hin : Report _ _ = Report _ _ |- _ => discriminate Hin
  | Hin : False |- _ => destruct Hin
  | Hin : Report _ _ ∈ _ |- _ =>
      first [ apply Hkl in Hin; destruct Hin as [Hin|Hin]; discriminate Hin
            | apply Hkeys in Hin; destruct Hin as [Hin|[Hin|Hin]];
              discriminate Hin ]
  end.

(** X5: in the training regime a classification loss that is NaN is
    replaced by 0, and then neither the classification loss nor the total
    loss is reported; any other value is stored and reported as it is.  In
    the inference regime the value is stored and reported even when it is
    NaN. *)
Theorem calc_loss_nan_guard (m : Z) (self : VariationalDropoutChain)
    (x t : ndarray) (add_kl split_loss calc_stats : bool) :
  let cl := F_softmax_cross_entropy (forward (net self) x) t in
  (let r := calc_loss (Config true m) self x t add_kl split_loss calc_stats in
   if isnan cl then
     attr_class_loss (self_after r) = Some (Finite 0)
     ∧ (∀ v, Report "class" v ∉ reported r)
     ∧ (∀ v, Report "loss" v ∉ reported r)
   else
     attr_class_loss (self_after r) = Some cl
     ∧ Report "class" cl ∈ reported r)
  ∧ (let r :=
       calc_loss (Config false m) self x t add_kl split_loss calc_stats in
     attr_class_loss (self_after r) = Some cl
     ∧ Report "class" cl ∈ reported r).
Proof.
  intros cl. unfold calc_loss. cbn [train user_memory_efficiency andb].
  rewrite class_loss_forget. fold cl.
  set (y := forward (net self) x).
  split; [destruct (isnan cl)|]; cbn zeta beta iota.
  all: destruct add_kl.
  all: try match goal with
       | |- context [calc_loss_kl ?c ?s ?l ?i] =>
           destruct (calc_loss_kl_reports c s l i) as (Hc & Hi & Hkl);
           destruct (calc_loss_kl c s l i) as [[[s1 r1] i1] [u|e]]
       end; cbn [fst snd] in *.
  all: try (specialize (Hi eq_refl); subst i1).
  all: cbn zeta beta iota.
  all: try match goal with
       | |- context [if ?cs then calc_loss_stats ?s else ?b] =>
           pose proof (calc_loss_tail_keys s cs) as Hkeys;
           destruct (if cs then calc_loss_stats s else b) as [[rs w]|e']
       end.
  all: cbn zeta beta iota; try specialize (Hkeys rs w eq_refl).
  all: try (destruct split_loss; [destruct (attr_kl_loss _)|]).
  all: try destruct i1.
  all: cbn [self_after reported attr_class_loss with_accuracy with_loss
            with_class_loss with_y].
  all: repeat split; try exact Hc; try reflexivity.
  all: try (rewrite ?elem_of_app, ?elem_of_cons; auto 10; fail).
  all: intros v Hin; rewrite ?elem_of_app, ?elem_of_cons, ?elem_of_nil in Hin.
  all: solve_report_membership Hkl Hkeys.
Qed.

(** ** Further properties of the conversion *)

Lemma convert_leaf_device (lf : leaf) :
  well_formed_plain lf → leaf_device (convert_leaf lf) = leaf_device lf.
Proof.
  intros Hwf. destruct lf as [l|c| | | |]; try reflexivity.
  - destruct Hwf as (a & o & i & HW & Hs & Hd & Hb).
    unfold convert_leaf. cbn [is_plain].
    by rewrite (get_vd_link_linear l a o i HW Hs Hd Hb).
  - destruct Hwf as (a & o & i & HW & Hs & Hd & Hb).
    unfold convert_leaf. cbn [is_plain].
    by rewrite (get_vd_link_convolution_2d c a o i HW Hs Hd Hb).
Qed.

(** X7: a network that holds no plain linear or convolution layer, such as
    one built from VD layers, is returned by [to_variational_dropout] as it
    is. *)
Theorem to_variational_dropout_retains_converted (d : device)
    (ch : gmap string link) :
  converted (Chain d ch) →
  ∃ out, to_variational_dropout (Chain d ch) = Ok (Chain d ch, out).
Proof.
  intros Hconv.
  pose proof (converted_vd_tree_id _ Hconv) as Hid.
  destruct (to_variational_dropout_vd_tree d ch) as [out Hout].
  { by rewrite Hid. }
  rewrite Hid in Hout. by exists out.
Qed.

(** X8: [to_variational_dropout] is idempotent on a chain whose plain
    layers are well formed: a second run on the converted network returns
    that network again. *)
Theorem to_variational_dropout_idempotent (d : device)
    (ch : gmap string link) :
  (∀ p lf, lookup_path p (Chain d ch) = Some (Leaf lf) →
           well_formed_plain lf) →
  ∃ self' out out',
    to_variational_dropout (Chain d ch) = Ok (self', out)
    ∧ to_variational_dropout self' = Ok (self', out').
Proof.
  intros Hwf. pose proof (well_formed_converted _ Hwf) as Hconv.
  destruct (to_variational_dropout_vd_tree d ch Hconv) as [out Hout].
  pose proof (converted_vd_tree_id _ Hconv) as Hid.
  change (vd_tree (Chain d ch)) with (Chain d (vd_tree <$> ch)) in *.
  destruct (to_variational_dropout_vd_tree d (vd_tree <$> ch)) as [out' Hout'].
  { by rewrite Hid. }
  rewrite Hid in Hout'. by exists (Chain d (vd_tree <$> ch)), out, out'.
Qed.

(** X9: the conversion keeps the shape of the network: under every path
    the converted network has a link exactly where the original has one, a
    chain where the original has a chain, on the device of the original;
    the nesting depth is unchanged. *)
Theorem to_variational_dropout_preserves_structure (d : device)
    (ch : gmap string link) :
  (∀ p lf, lookup_path p (Chain d ch) = Some (Leaf lf) →
           well_formed_plain lf) →
  ∃ self' out,
    to_variational_dropout (Chain d ch) = Ok (self', out)
    ∧ height self' = height (Chain d ch)
    ∧ ∀ p,
        is_chain <$> lookup_path p self'
        = is_chain <$> lookup_path p (Chain d ch)
        ∧ link_device <$> lookup_path p self'
          = link_device <$> lookup_path p (Chain d ch).
Proof.
  intros Hwf. pose proof (well_formed_converted _ Hwf) as Hconv.
  destruct (to_variational_dropout_vd_tree d ch Hconv) as [out Hout].
  exists (vd_tree (Chain d ch)), out.
  split; [exact Hout|]. split; [apply vd_tree_height|].
  intros p. rewrite lookup_path_vd_tree.
  destruct (lookup_path p (Chain d ch)) as [[lf|d' ch']|] eqn:E;
    cbn; try (split; reflexivity).
  split; [reflexivity|]. f_equal. apply convert_leaf_device. by eapply Hwf.
Qed.

Lemma get_vd_link_unmaterialized (lf : leaf) (W : parameter)
    (p_threshold loga_threshold : R) (initial_log_sigma2 : initializer) :
  is_plain lf = true → leaf_W lf = Ok W → pdata W = None →
  get_vd_link lf p_threshold loga_threshold initial_log_sigma2
  = Raise (AttributeError "shape").
Proof.
  intros Hplain HW Hdata. unfold get_vd_link.
  destruct lf as [l|c| | | |]; try discriminate Hplain.
  - destruct l as [o Wl b dev]. cbn in HW. injection HW as ->.
    destruct dev; cbn; unfold param_shape; rewrite Hdata; reflexivity.
  - destruct c as [o ks st pd Wc b dev]. cbn in HW. injection HW as ->.
    destruct dev; cbn; unfold param_shape; rewrite Hdata; reflexivity.
Qed.

Lemma for_links_reaches {S} (body : S → path * link → result S) es e :
  e ∈ es → (∀ s, is_ok (body s e) = false) →
  ∀ s, is_ok (for_links body es s) = false.
Proof.
  intros Hin Hbody. induction es as [|e' es IH]; intros s.
  - by apply elem_of_nil in Hin.
  - rewrite for_links_cons. apply elem_of_cons in Hin as [->|Hin].
    + specialize (Hbody s). destruct (body s e'); [discriminate|reflexivity].
    + destruct (body s e') as [s'|]; [|reflexivity]. cbn. by apply IH.
Qed.

(** X10: a plain layer whose weight holds no data, as one built without an
    input size and never called, cannot be converted: [get_vd_link] raises
    [AttributeError] on it, and [to_variational_dropout] does not return on
    a chain that has such a layer as a child. *)
Theorem to_variational_dropout_unmaterialized (d : device)
    (ch : gmap string link) (n : string) (lf : leaf) (W : parameter) :
  ch !! n = Some (Leaf lf) →
  is_plain lf = true → leaf_W lf = Ok W → pdata W = None →
  get_vd_link lf P_THRESHOLD LOGA_THRESHOLD INITIAL_LOG_SIGMA2
  = Raise (AttributeError "shape")
  ∧ is_ok (to_variational_dropout (Chain d ch)) = false.
Proof.
  intros Hn Hplain HW Hdata.
  pose proof (get_vd_link_unmaterialized lf W P_THRESHOLD LOGA_THRESHOLD
                INITIAL_LOG_SIGMA2 Hplain HW Hdata) as Hraise.
  split; [exact Hraise|].
  unfold to_variational_dropout.
  apply for_links_reaches with (e := ([n], Leaf lf)).
  - apply elem_of_sorted_namedlinks. by apply namedlinks_child.
  - intros s. cbn [fst snd]. rewrite to_variational_dropout_link_leaf.
    cbn zeta. rewrite Hplain, Hraise. reflexivity.
Qed.

(** ** Further properties of the statistics *)

Lemma links_skipself_chain d ch :
  links_skipself (Chain d ch)
  = map_to_list ch ≫= λ nc, nc.2 :: links_skipself nc.2.
Proof.
  cbn [links_skipself]. rewrite map_fold_foldr, <- foldr_app_bind.
  apply foldr_ext; [|done..]. by intros [n c] acc.
Qed.

Lemma elem_of_links_skipself l x :
  x ∈ links_skipself l ↔ ∃ p, p ≠ [] ∧ lookup_path p l = Some x.
Proof.
  revert x. induction l as [lf|d ch IH] using link_tree_ind; intros x.
  - split.
    + intros Hin. by apply elem_of_nil in Hin.
    + intros (p & Hne & Hl). by destruct p.
  - rewrite links_skipself_chain, list_elem_of_bind. split.
    + intros ([n c] & Hin & Hm). apply elem_of_map_to_list in Hm.
      cbn in Hin. apply elem_of_cons in Hin as [->|Hin].
      * exists [n]. split; [done|]. cbn. by rewrite Hm.
      * apply (IH n c Hm) in Hin as (p & Hne & Hl).
        exists (n :: p). split; [done|]. cbn. by rewrite Hm.
    + intros (p & Hne & Hl). destruct p as [|n p]; [done|]. cbn in Hl.
      destruct (ch !! n) as [c|] eqn:Hc; [|done]. cbn in Hl.
      exists (n, c). split; [|by apply elem_of_map_to_list]. cbn.
      destruct p as [|m p].
      * cbn in Hl. injection Hl as ->. apply elem_of_cons. by left.
      * apply elem_of_cons. right. apply (IH n c Hc). by exists (m :: p).
Qed.

Lemma elem_of_vd_layers l lf :
  lf ∈ vd_layers l
  ↔ is_variational_dropout lf = true
    ∧ ∃ p, lookup_path p l = Some (Leaf lf).
Proof.
  unfold vd_layers, links. rewrite list_elem_of_omap. split.
  - intros (x & Hin & Hx). destruct x as [lf'|]; cbn in Hx; [|done].
    destruct (is_variational_dropout lf') eqn:E; [|done].
    injection Hx as ->. split; [done|].
    apply elem_of_cons in Hin as [<-|Hin].
    + by exists [].
    + apply elem_of_links_skipself in Hin as (p & _ & Hl). by exists p.
  - intros (Hvd & p & Hl). exists (Leaf lf). split.
    + destruct p as [|n p].
      * cbn in Hl. injection Hl as ->. apply elem_of_cons. by left.
      * apply elem_of_cons. right. apply elem_of_links_skipself.
        by exists (n :: p).
    + cbn. by rewrite Hvd.
Qed.

Lemma get_vd_links_foldr (g : link → result (list leaf))
    (Q : link → leaf → Prop) (cs : list link) :
  (∀ c, c ∈ cs → ∃ ls, g c = Ok ls ∧ ∀ lf, lf ∈ ls ↔ Q c lf) →
  ∃ ls,
    foldr (λ child_link acc,
             here ← g child_link; rest ← acc; Ok (here ++ rest))
          (Ok []) cs = Ok ls
    ∧ ∀ lf, lf ∈ ls ↔ ∃ c, c ∈ cs ∧ Q c lf.
Proof.
  induction cs as [|c cs IH]; intros Hg.
  - exists []. split; [done|]. intros lf. split.
    + intros Hin. by apply elem_of_nil in Hin.
    + intros (c & Hin & _). by apply elem_of_nil in Hin.
  - destruct (Hg c) as (here & Hhere & Hmem); [apply elem_of_cons; by left|].
    destruct IH as (rest & Hrest & Hmem').
    { intros c' Hc'. apply Hg. apply elem_of_cons. by right. }
    exists (here ++ rest). cbn. rewrite Hhere. cbn. rewrite Hrest. cbn.
    split; [done|]. intros lf. rewrite elem_of_app, Hmem, Hmem'. split.
    + intros [HQ|(c' & Hc' & HQ)].
      * exists c. split; [apply elem_of_cons; by left|done].
      * exists c'. split; [apply elem_of_cons; by right|done].
    + intros (c' & Hc' & HQ). apply elem_of_cons in Hc' as [->|Hc'].
      * by left.
      * right. by exists c'.
Qed.

Lemma get_vd_links_spec (f : nat) :
  ∀ l, height l ≤ f →
    ∃ ls, get_vd_links f l = Ok ls
      ∧ ∀ lf, lf ∈ ls
          ↔ is_variational_dropout lf = true
            ∧ ∃ p, lookup_path p l = Some (Leaf lf).
Proof.
  assert (∀ f lf, ∃ ls, get_vd_links f (Leaf lf) = Ok ls
      ∧ ∀ lf', lf' ∈ ls
          ↔ is_variational_dropout lf' = true
            ∧ ∃ p, lookup_path p (Leaf lf) = Some (Leaf lf')) as Hleaf.
  { intros f' lf. exists (if is_variational_dropout lf then [lf] else []).
    split; [by destruct f'|]. intros lf'. split.
    - destruct (is_variational_dropout lf) eqn:E.
      + intros ->%list_elem_of_singleton. split; [done|]. by exists [].
      + intros Hin. by apply elem_of_nil in Hin.
    - intros (Hvd & p & Hl). destruct p as [|n p]; [|done].
      cbn in Hl. injection Hl as ->. rewrite Hvd.
      by apply list_elem_of_singleton. }
  induction f as [|f IH]; intros [lf|d ch] Hh; try apply Hleaf.
  - rewrite height_chain in Hh. lia.
  - cbn [get_vd_links].
    destruct (get_vd_links_foldr (get_vd_links f)
                (λ c lf, is_variational_dropout lf = true
                         ∧ ∃ q, lookup_path q c = Some (Leaf lf))
                (links_skipself (Chain d ch))) as (ls & Hls & Hmem).
    { intros c Hc. apply IH.
      apply elem_of_links_skipself in Hc as (p & Hne & Hl).
      pose proof (lookup_path_height p _ c Hne Hl). lia. }
    exists ls. split; [exact Hls|]. intros lf. rewrite Hmem. split.
    + intros (c & Hc & Hvd & q & Hq). split; [done|].
      apply elem_of_links_skipself in Hc as (p & _ & Hl).
      exists (p ++ q). rewrite lookup_path_app, Hl. done.
    + intros (Hvd & p & Hl). exists (Leaf lf). split.
      * apply elem_of_links_skipself. exists p. split; [|done].
        intros ->. done.
      * split; [done|]. by exists [].
Qed.

(** X11: [get_vd_links] returns on every network, whatever its nesting,
    and what it yields are exactly the VD layers of the network: a layer is
    yielded if and only if it carries the flag [is_variational_dropout] and
    sits somewhere in the network. *)
Theorem get_vd_links_yields_vd_layers (l : link) (k : nat) :
  ∃ ls,
    get_vd_links (height l + k) l = Ok ls
    ∧ ∀ lf, lf ∈ ls
        ↔ is_variational_dropout lf = true
          ∧ ∃ p, lookup_path p l = Some (Leaf lf).
Proof. apply get_vd_links_spec. lia. Qed.

Lemma mapM_result {A B} (f : A → result B) (l : list A) :
  (∀ x, x ∈ l → is_ok (f x) = true) →
  ∃ ys, mapM f l = Ok ys ∧ Forall2 (λ x y, f x = Ok y) l ys.
Proof.
  induction l as [|x l IH]; intros Hok.
  - exists []. split; [done|constructor].
  - destruct (f x) as [y|e] eqn:Hx.
    2: { specialize (Hok x ltac:(apply elem_of_cons; by left)).
         rewrite Hx in Hok. done. }
    destruct IH as (ys & Hys & Hall).
    { intros x' Hx'. apply Hok. apply elem_of_cons. by right. }
    exists (y :: ys). split; [|by constructor].
    change (mapM f (x :: l)) with (y ← f x; k ← mapM f l; mret (y :: k)).
    by rewrite Hx, Hys.
Qed.

Lemma calculate_p_ok (lf : leaf) :
  is_variational_dropout lf = true →
  is_ok (flatten <$> calculate_p lf) = true
  ∧ is_ok (p_threshold_of lf) = true.
Proof. by destruct lf. Qed.

Lemma existsb_threshold (ls : list leaf) (ths : list R) (t : R) :
  Forall2 (λ lf th, p_threshold_of lf = Ok th) ls ths →
  existsb (λ th, bool_decide (th ≠ t)) ths = true
  ↔ ∃ lf, lf ∈ ls ∧ p_threshold_of lf ≠ Ok t.
Proof.
  induction 1 as [|lf th ls ths Hth Hall IH]; cbn.
  - split; [done|]. intros (lf & Hin & _). by apply elem_of_nil in Hin.
  - rewrite orb_true_iff, IH, bool_decide_eq_true. split.
    + intros [Hne|(lf' & Hin & Hne)].
      * exists lf. split; [apply elem_of_cons; by left|].
        rewrite Hth. intros [= ->]. by apply Hne.
      * exists lf'. split; [apply elem_of_cons; by right|done].
    + intros (lf' & Hin & Hne). apply elem_of_cons in Hin as [->|Hin].
      * left. intros ->. by apply Hne.
      * right. by exists lf'.
Qed.

Lemma calculate_stats_cases (l : link) (t : R) :
  ∃ s w,
    calculate_stats l t = Ok (s, w)
    ∧ (w = [] ∨ w = [WarnThreshold])
    ∧ (WarnThreshold ∈ w
       ↔ ∃ lf, lf ∈ vd_layers l ∧ p_threshold_of lf ≠ Ok t)
    ∧ is_ok (getitem s "mean_p") = true
    ∧ is_ok (getitem s "sparsity") = true
    ∧ is_ok (getitem s "W/Wnz") = true.
Proof.
  unfold calculate_stats.
  destruct (get_vd_links_spec (S (height l)) l) as (ls & Hls & Hmem); [lia|].
  rewrite Hls. cbn [mbind result_bind].
  destruct (mapM_result (λ link, flatten <$> calculate_p link) ls)
    as (ps & Hps & Hall).
  { intros lf Hin. apply calculate_p_ok. by apply Hmem. }
  rewrite Hps. cbn [mbind result_bind].
  destruct ps as [|p0 ps].
  - apply Forall2_nil_inv_r in Hall. subst ls.
    exists (MkStats ∅ true), []. split; [done|]. split; [by left|].
    split; [|done]. split.
    + intros Hin. by apply elem_of_nil in Hin.
    + intros (lf & Hin & _). apply elem_of_vd_layers, Hmem in Hin.
      by apply elem_of_nil in Hin.
  - destruct (mapM_result p_threshold_of ls) as (ths & Hths & Hall').
    { intros lf Hin. apply calculate_p_ok. by apply Hmem. }
    rewrite Hths. cbn [mbind result_bind].
    eexists _, _. split; [reflexivity|].
    pose proof (existsb_threshold ls ths t Hall') as Hex.
    assert (∀ A (a b : A), (if existsb (λ th, bool_decide (th ≠ t)) ths
                            then a else b) = a
                           ∨ (if existsb (λ th, bool_decide (th ≠ t)) ths
                              then a else b) = b) as Hcases
      by (intros; destruct (existsb _ ths); auto).
    split; [apply or_comm, Hcases|]. split.
    + destruct (existsb _ ths); split.
      * intros _. destruct Hex as [Hex _].
        destruct (Hex eq_refl) as (lf & Hin & Hne). exists lf.
        split; [|done]. by apply elem_of_vd_layers, Hmem.
      * intros _. by apply list_elem_of_singleton.
      * intros Hin. by apply elem_of_nil in Hin.
      * intros (lf & Hin & Hne). destruct Hex as [_ Hex].
        assert (false = true) as Hf; [|done].
        apply Hex. exists lf. split; [|done].
        by apply Hmem, elem_of_vd_layers.
    + unfold getitem. destruct (bool_decide _); cbn [entries].
      all: rewrite ?lookup_insert_eq.
      all: rewrite !lookup_insert_ne by discriminate.
      all: rewrite ?lookup_insert_eq.
      all: rewrite !lookup_insert_ne by discriminate.
      all: rewrite ?lookup_insert_eq.
      all: done.
Qed.

(** X12: [calculate_stats] returns on every network, and it warns about
    the threshold, once, exactly when some VD layer of the network has a
    [p_threshold] that differs from the threshold of the statistics. *)
Theorem calculate_stats_threshold_warning (l : link) (t : R) :
  ∃ s w,
    calculate_stats l t = Ok (s, w)
    ∧ (w = [] ∨ w = [WarnThreshold])
    ∧ (WarnThreshold ∈ w
       ↔ ∃ lf, lf ∈ vd_layers l ∧ p_threshold_of lf ≠ Ok t).
Proof.
  destruct (calculate_stats_cases l t) as (s & w & Hs & Hw & Hiff & _).
  by exists s, w.
Qed.

(** X13: on a network without VD layers [calculate_stats] returns the
    empty [defaultdict], on which every key reads 0, and warns about
    nothing. *)
Theorem calculate_stats_without_vd_layers (l : link) (t : R) :
  vd_layers l = [] →
  ∃ s,
    calculate_stats l t = Ok (s, [])
    ∧ entries s = ∅
    ∧ ∀ key, getitem s key = Ok (Finite 0).
Proof.
  intros Hvd. unfold calculate_stats.
  destruct (get_vd_links_spec (S (height l)) l) as (ls & Hls & Hmem); [lia|].
  rewrite Hls. cbn [mbind result_bind].
  assert (ls = []) as ->.
  { destruct ls as [|lf ls]; [done|].
    assert (lf ∈ vd_layers l) as Hin.
    { apply elem_of_vd_layers, Hmem, elem_of_cons. by left. }
    rewrite Hvd in Hin. by apply elem_of_nil in Hin. }
  exists (MkStats ∅ true). split; [done|]. split; [done|].
  intros key. unfold getitem. cbn. by rewrite lookup_empty.
Qed.

(** *** The statistics of a chain whose VD layers are its own children *)

Lemma flat_links_skipself d ch :
  (∀ n c, ch !! n = Some c → is_chain c = false) →
  links_skipself (Chain d ch) = (map_to_list ch).*2
  ∧ Forall (λ c, is_chain c = false) (map_to_list ch).*2.
Proof.
  intros Hflat. rewrite links_skipself_chain.
  assert (Forall (λ nc : string * link, is_chain nc.2 = false)
            (map_to_list ch)) as Hall.
  { apply Forall_forall. intros [n c] Hin. apply elem_of_map_to_list in Hin.
    by eapply Hflat. }
  induction Hall as [|[n c] l Hc Hall IH]; [by split|].
  destruct IH as [IH1 IH2]. cbn in *. rewrite IH1.
  destruct c; [|done]. split; [done|]. by constructor.
Qed.

Lemma get_vd_links_flat (f : nat) (cs : list link) :
  Forall (λ c, is_chain c = false) cs →
  foldr (λ child_link acc,
           here ← get_vd_links f child_link; rest ← acc; Ok (here ++ rest))
        (Ok []) cs
  = Ok (omap vd_leaf_of cs).
Proof.
  induction 1 as [|c cs Hc Hall IH]; [done|].
  cbn [foldr]. rewrite IH. destruct c as [lf|]; [|done].
  replace (get_vd_links f (Leaf lf))
    with (Ok (if is_variational_dropout lf then [lf] else []))
    by (by destruct f).
  cbn. by destruct (is_variational_dropout lf).
Qed.

Lemma get_vd_links_flat_chain (f : nat) d ch :
  (∀ n c, ch !! n = Some c → is_chain c = false) →
  get_vd_links (S f) (Chain d ch) = Ok (vd_layers (Chain d ch)).
Proof.
  intros Hflat. destruct (flat_links_skipself d ch Hflat) as [Hl Hall].
  cbn [get_vd_links]. rewrite Hl, get_vd_links_flat by done.
  unfold vd_layers, links. by rewrite Hl.
Qed.

Lemma mapM_calculate_p (ls : list leaf) :
  Forall (λ lf, is_variational_dropout lf = true) ls →
  mapM (λ link, flatten <$> calculate_p link) ls
  = Ok ((λ lf, NdArray [length (p_values lf)] (p_values lf)) <$> ls).
Proof.
  induction 1 as [|lf ls Hvd Hall IH]; [done|].
  change (mapM ?f (lf :: ls)) with (y ← f lf; k ← mapM f ls; mret (y :: k)).
  rewrite IH. unfold p_values.
  destruct lf; try discriminate Hvd; reflexivity.
Qed.

Lemma concatenate_p_values (ls : list leaf) :
  concatenate ((λ lf, NdArray [length (p_values lf)] (p_values lf)) <$> ls)
  = NdArray [length (concat (p_values <$> ls))] (concat (p_values <$> ls)).
Proof.
  unfold concatenate. rewrite <- list_fmap_compose.
  replace (data ∘ _ <$> ls) with (p_values <$> ls); [done|].
  by apply list_fmap_ext.
Qed.

Lemma sum_indicator (t : R) (l : list R) :
  foldr Rplus 0%R ((λ v, if Rlt_dec t v then 1%R else 0%R) <$> l)
  = INR (length (filter (λ p, (t < p)%R) l)).
Proof.
  induction l as [|v l IH]; [reflexivity|].
  cbn [fmap list_fmap foldr]. rewrite IH.
  destruct (Rlt_dec t v) as [Hlt|Hnlt].
  - rewrite filter_cons_True by exact Hlt.
    cbn [length]. rewrite S_INR. lra.
  - rewrite filter_cons_False by exact Hnlt. lra.
Qed.

Lemma count_kept (t : R) (sh : list nat) (l : list R) :
  count_ones (one_minus (nd_gt (NdArray sh l) t))
  = length (filter (λ p, (p <= t)%R) l).
Proof.
  unfold count_ones, one_minus, nd_gt, ew1. cbn [data shape].
  induction l as [|v l IH]; [reflexivity|].
  cbn [fmap list_fmap]. destruct (Rlt_dec t v) as [Hlt|Hnlt].
  - rewrite filter_cons_False by lra.
    rewrite (filter_cons_False (λ p, (p <= t)%R)) by lra. exact IH.
  - rewrite filter_cons_True by lra.
    rewrite (filter_cons_True (λ p, (p <= t)%R)) by lra.
    cbn [length]. f_equal. exact IH.
Qed.

Lemma pruned_plus_kept (t : R) (l : list R) :
  length (filter (λ p, (t < p)%R) l) + length (filter (λ p, (p <= t)%R) l)
  = length l.
Proof.
  induction l as [|v l IH]; [reflexivity|].
  destruct (Rlt_dec t v) as [Hlt|Hnlt].
  - rewrite filter_cons_True by exact Hlt.
    rewrite (filter_cons_False (λ p, (p <= t)%R)) by lra. cbn [length]. lia.
  - rewrite filter_cons_False by exact Hnlt.
    rewrite (filter_cons_True (λ p, (p <= t)%R)) by lra. cbn [length]. lia.
Qed.

(** X14: on a chain whose children are all leaves the statistics are
    exact: [mean_p] is the mean of the values [p] of the weights of the VD
    layers, each weight once, [sparsity] is the fraction of weights whose
    [p] exceeds the threshold, and [W/Wnz] is the number of weights over
    the number of weights kept, or infinity when none is kept. *)
Theorem calculate_stats_flat (d : device) (ch : gmap string link) (t : R) :
  (∀ n c, ch !! n = Some c → is_chain c = false) →
  all_weights_p (Chain d ch) ≠ [] →
  let l := Chain d ch in
  let N := length (all_weights_p l) in
  ∃ s w,
    calculate_stats l t = Ok (s, w)
    ∧ getitem s "mean_p"
      = Ok (Finite (foldr Rplus 0%R (all_weights_p l) / INR N))
    ∧ getitem s "sparsity" = Ok (Finite (INR (n_pruned l t) / INR N))
    ∧ getitem s "W/Wnz"
      = Ok (if bool_decide (n_kept l t = 0) then PosInf
            else Finite (INR N / INR (n_kept l t)))
    ∧ n_pruned l t + n_kept l t = N.
Proof.
  intros Hflat Hne l N. unfold calculate_stats.
  rewrite (get_vd_links_flat_chain (height l) d ch Hflat
           : get_vd_links (S (height l)) l = Ok (vd_layers l)).
  cbn [mbind result_bind].
  assert (Forall (λ lf, is_variational_dropout lf = true) (vd_layers l))
    as Hvd.
  { apply Forall_forall. intros lf Hin.
    apply elem_of_vd_layers in Hin as [Hin _]. exact Hin. }
  rewrite (mapM_calculate_p _ Hvd). cbn [mbind result_bind].
  destruct (mapM_result p_threshold_of (vd_layers l)) as (ths & Hths & _).
  { intros lf Hin. apply calculate_p_ok.
    apply elem_of_vd_layers in Hin as [Hin _]. exact Hin. }
  rewrite Hths.
  pose proof (concatenate_p_values (vd_layers l)) as Hcat.
  fold (all_weights_p l) in Hcat. fold N in Hcat.
  fold l. destruct (vd_layers l) as [|lf0 ls0] eqn:Evd.
  { exfalso. apply Hne. unfold all_weights_p. fold l. by rewrite Evd. }
  cbn [fmap list_fmap] in Hcat |- *. rewrite Hcat.
  cbn [mbind result_bind].
  assert (N ≠ 0) as HN.
  { intros HN0. apply Hne. by apply nil_length_inv. }
  assert (mean (NdArray [N] (all_weights_p l))
          = Finite (foldr Rplus 0%R (all_weights_p l) / INR N)) as Hmean.
  { unfold mean. cbn [data]. fold N. by destruct N. }
  assert (mean (nd_gt (NdArray [N] (all_weights_p l)) t)
          = Finite (INR (n_pruned l t) / INR N)) as Hsp.
  { unfold mean, nd_gt, ew1. cbn [data]. rewrite length_fmap. fold N.
    rewrite sum_indicator. by destruct N. }
  rewrite Hmean, Hsp, count_kept. fold (n_kept l t).
  eexists _, _. split; [reflexivity|].
  unfold getitem. cbn [size shape prod_shape foldr].
  rewrite Nat.mul_1_r, Rmult_1_r.
  destruct (bool_decide (n_kept l t = 0)); cbn [entries].
  all: rewrite ?lookup_insert_eq.
  all: rewrite !lookup_insert_ne by discriminate.
  all: rewrite ?lookup_insert_eq.
  all: rewrite !lookup_insert_ne by discriminate.
  all: rewrite ?lookup_insert_eq.
  all: repeat split; try reflexivity.
  all: apply pruned_plus_kept.
Qed.

(** ** Further properties of the recurrent layers *)

(** X15: after [reset_state] a stateful call of the tanh RNN starts from a
    state of zeros of shape (batch size, [out_size]): it returns what the
    stateless call with that state returns.  On an input without a batch
    axis the call raises [IndexError] and the layer stays reset. *)
Theorem tanh_rnn_reset_state (cfg : config) (noise : initializer)
    (self : VariationalDropoutTanhRNN) (n : nat) (rest : list nat)
    (d : list R) :
  let fresh := VariationalDropoutTanhRNN_reset_state self in
  rnn_h fresh = None
  ∧ (VariationalDropoutTanhRNN_call cfg noise fresh
       (NdArray (n :: rest) d) None).2
    = (VariationalDropoutTanhRNN_call cfg noise self (NdArray (n :: rest) d)
         (Some (zeros [n; rnn_out_size self]))).2
  ∧ VariationalDropoutTanhRNN_call cfg noise fresh (NdArray [] d) None
    = (fresh, Raise IndexError).
Proof.
  split; [reflexivity|]. split; [|reflexivity].
  unfold VariationalDropoutTanhRNN_call.
  cbn [VariationalDropoutTanhRNN_reset_state with_rnn_h rnn_h rnn_out_size
       rnn_W shape0 shape].
  destruct (F_concat _ (zeros [n; rnn_out_size self])) as [xh|e];
    [|reflexivity].
  destruct (VariationalDropoutLinear_call cfg noise (rnn_W self) xh)
    as [W [a|e]]; [|reflexivity].
  by repeat case_bool_decide.
Qed.

(** X16: a call of the LSTM that returns stores the returned hidden state
    and a cell state on the layer.  After [reset_state] the call uses only
    the upward layer and a cell state of zeros of shape (batch size,
    [out_size]). *)
Theorem lstm_call_state (cfg : config) (noise : initializer)
    (self : VariationalDropoutLSTM) (x : ndarray) (n : nat)
    (rest : list nat) (d : list R) :
  (let r := VariationalDropoutLSTM_call cfg noise self x in
   match r.2 with
   | Ok h' => lstm_h r.1 = Some h' ∧ is_Some (lstm_c r.1)
   | Raise _ => True
   end)
  ∧ (let fresh := VariationalDropoutLSTM_reset_state self in
     lstm_h fresh = None ∧ lstm_c fresh = None
     ∧ (VariationalDropoutLSTM_call cfg noise fresh
          (NdArray (n :: rest) d)).2
       = (u ← (VariationalDropoutLinear_call cfg noise (upward self)
                 (NdArray (n :: rest) d)).2;
          ch ← F_lstm (zeros [n; lstm_out_size self]) u;
          Ok ch.2)).
Proof.
  split.
  - unfold VariationalDropoutLSTM_call.
    destruct (VariationalDropoutLSTM_lstm_in cfg noise self x)
      as [s1 [lstm_in|e]]; cbn zeta beta iota; [|exact I].
    destruct (lstm_c s1) as [c|]; [|destruct (shape0 x) as [k|e]];
      cbn zeta beta iota; try exact I.
    all: unfold F_forget.
    all: match goal with
         | |- context [if ?b then ?u else ?v] =>
             replace (if b then u else v) with u by (by destruct b)
         end.
    all: match goal with
         | |- context [F_lstm ?c ?i] => destruct (F_lstm c i) as [[c' h']|e]
         end; cbn; try exact I; by split.
  - split; [reflexivity|]. split; [reflexivity|].
    unfold VariationalDropoutLSTM_call, VariationalDropoutLSTM_lstm_in,
      F_forget.
    cbn [VariationalDropoutLSTM_reset_state with_lstm_state upward lateral
         lstm_h lstm_c lstm_out_size].
    match goal with
    | |- context [if ?b then ?u else ?v] =>
        replace (if b then u else v) with u by (by destruct b)
    end.
    destruct (VariationalDropoutLinear_call cfg noise (upward self) _)
      as [up [u|e]]; cbn; [|reflexivity].
    match goal with
    | |- context [if ?b then ?u else ?v] =>
        replace (if b then u else v) with u by (by destruct b)
    end.
    destruct (F_lstm _ u) as [[c' h']|e]; reflexivity.
Qed.

(** ** Further properties of the sparsification *)

Lemma lookup_path_to_cpu p t :
  lookup_path p (to_cpu t) = to_cpu <$> lookup_path p t.
Proof.
  revert t. induction p as [|n p IH]; intros [lf|d ch]; cbn; try done.
  rewrite lookup_fmap. destruct (ch !! n); cbn; [apply IH|done].
Qed.

Lemma lookup_namedlinks p t x :
  p ≠ [] → lookup_path p t = Some x → (p, x) ∈ namedlinks t.
Proof.
  revert t. induction p as [|n p IH]; intros [lf|d ch] Hne Hl; try done.
  cbn in Hl. destruct (ch !! n) as [c|] eqn:Hc; [|done]. cbn in Hl.
  apply elem_of_namedlinks_chain. exists n, c. split; [done|].
  destruct p as [|m p].
  - left. cbn in Hl. by injection Hl as ->.
  - right. exists (m :: p). split; [done|]. by apply IH.
Qed.

Lemma chain_children_to_cpu t :
  chain_children (to_cpu t) = to_cpu <$> chain_children t.
Proof. destruct t; cbn; [by rewrite fmap_empty|done]. Qed.

Lemma to_cpu_sparse_body_raised s e :
  sp_raised s ≠ None → to_cpu_sparse_body s e = s.
Proof. intros Hr. unfold to_cpu_sparse_body. by destruct (sp_raised s). Qed.

Lemma to_cpu_sparse_loop_raised es s :
  sp_raised s ≠ None → foldl to_cpu_sparse_body s es = s.
Proof.
  intros Hr. induction es as [|e es IH]; [done|]. cbn.
  by rewrite to_cpu_sparse_body_raised.
Qed.

Lemma to_cpu_sparse_body_missing_key key s e :
  (sp_raised s = None → chain_children (sp_self s) !! key = None) →
  sp_raised (to_cpu_sparse_body s e) = None →
  chain_children (sp_self (to_cpu_sparse_body s e)) !! key = None.
Proof.
  unfold to_cpu_sparse_body. intros Hinv.
  destruct (sp_raised s) eqn:Er; [by rewrite Er|].
  specialize (Hinv eq_refl).
  destruct (n_params e.2) as [n_old|]; [|done].
  destruct e.2 as [[| |old| | |]|]; try done.
  destruct (sp_self s) as [lf|d ch]; [done|]. cbn [delattr].
  destruct (ch !! raw_name_str e.1) eqn:Eraw; [|done].
  cbn [add_link]. rewrite lookup_delete_eq.
  destruct (percent _ n_old); [|done]. cbn. intros _.
  cbn in Hinv.
  rewrite lookup_insert_ne, lookup_delete_ne by congruence. done.
Qed.

Lemma to_cpu_sparse_body_stops s p v :
  sp_raised s = None →
  chain_children (sp_self s) !! raw_name_str p = None →
  sp_raised (to_cpu_sparse_body s (p, Leaf (LVDLinear v))) ≠ None.
Proof.
  intros Hr Hkey. unfold to_cpu_sparse_body. rewrite Hr. cbn [fst snd].
  destruct (n_params _); [|done].
  destruct (sp_self s) as [lf|d ch]; [done|]. cbn in Hkey. cbn [delattr].
  by rewrite Hkey.
Qed.

Lemma to_cpu_sparse_loop_stops p v es :
  (p, Leaf (LVDLinear v)) ∈ es →
  ∀ s,
    (sp_raised s = None →
     chain_children (sp_self s) !! raw_name_str p = None) →
    sp_raised (foldl to_cpu_sparse_body s es) ≠ None.
Proof.
  induction es as [|e es IH]; intros Hin s Hinv.
  - by apply elem_of_nil in Hin.
  - cbn [foldl]. apply elem_of_cons in Hin as [<-|Hin].
    + destruct (sp_raised s) eqn:Er.
      * rewrite to_cpu_sparse_body_raised by (by rewrite Er).
        rewrite to_cpu_sparse_loop_raised by (by rewrite Er).
        by rewrite Er.
      * pose proof (to_cpu_sparse_body_stops s p v Er (Hinv eq_refl)) as Hs.
        by rewrite to_cpu_sparse_loop_raised.
    + apply IH; [done|]. by apply to_cpu_sparse_body_missing_key.
Qed.

(** X17: [to_cpu_sparse] does not return on a chain that holds a VD linear
    layer below a sub-chain, as the layers of a VD LSTM are: the layer is
    looked up on the chain itself under its path name, and the chain has no
    attribute of that name. *)
Theorem to_cpu_sparse_nested_vd_linear (self : VariationalDropoutChain)
    (n m : string) (p : path) (v : VariationalDropoutLinear) :
  lookup_path (n :: m :: p) (net self) = Some (Leaf (LVDLinear v)) →
  chain_children (net self) !! raw_name_str (n :: m :: p) = None →
  is_ok (returned (to_cpu_sparse self)) = false.
Proof.
  intros Hl Hkey. unfold to_cpu_sparse.
  cbn [net with_net].
  set (s0 := MkSparseState _ _ _ _ _).
  set (s := foldl to_cpu_sparse_body s0 _).
  assert (sp_raised s ≠ None) as Hr.
  { apply (to_cpu_sparse_loop_stops (n :: m :: p)
             (with_vdl_base v (with_lin_device (vdl_base v) CPU))).
    - apply elem_of_sorted_namedlinks, lookup_namedlinks; [done|].
      by rewrite lookup_path_to_cpu, Hl.
    - intros _. cbn [s0 sp_self].
      by rewrite chain_children_to_cpu, lookup_fmap, Hkey. }
  by destruct (sp_raised s).
Qed.

Lemma params_nil t :
  (∀ p lf, lookup_path p t = Some (Leaf lf) → leaf_params lf = []) →
  params t = [].
Proof.
  induction t as [lf|d ch IH] using link_tree_ind; intros Hleaf.
  - by apply (Hleaf []).
  - cbn [params]. rewrite map_fold_foldr.
    assert (Forall (λ nc : string * link, params nc.2 = [])
              (map_to_list ch)) as Hall.
    { apply Forall_forall. intros [n c] Hin.
      apply elem_of_map_to_list in Hin. apply (IH n c Hin).
      intros p lf Hp. apply (Hleaf (n :: p)). cbn. by rewrite Hin. }
    induction Hall as [|[n c] l Hc Hall IHl]; [done|].
    cbn in *. by rewrite Hc, IHl.
Qed.

Lemma leaf_params_to_device d lf :
  leaf_params (leaf_to_device d lf) = leaf_params lf.
Proof. by destruct lf. Qed.

Lemma to_cpu_sparse_body_no_params s e :
  params e.2 = [] → sp_raised s = None →
  n_total_old_params s = 0 → n_total_new_params s = 0 →
  sp_raised (to_cpu_sparse_body s e) = None
  ∧ n_total_old_params (to_cpu_sparse_body s e) = 0
  ∧ n_total_new_params (to_cpu_sparse_body s e) = 0
  ∧ sp_self (to_cpu_sparse_body s e) = sp_self s.
Proof.
  intros Hparams Hr Hold Hnew. unfold to_cpu_sparse_body, n_params.
  rewrite Hr, Hparams. cbn [foldr]. destruct e as [p x]. cbn [fst snd] in *.
  destruct x as [[| |old| | |]|]; cbn; rewrite ?Hold, ?Hnew; try done.
Qed.

(** X18: on a chain none of whose links has a parameter, as on a chain
    without links, [to_cpu_sparse] raises [ZeroDivisionError] when it
    prints the total: it divides by the number of parameters.  The network
    is then the original one in host memory. *)
Theorem to_cpu_sparse_without_parameters (self : VariationalDropoutChain) :
  (∀ p lf, lookup_path p (net self) = Some (Leaf lf) →
           leaf_params lf = []) →
  returned (to_cpu_sparse self) = Raise ZeroDivisionError
  ∧ net (self_after (to_cpu_sparse self)) = to_cpu (net self).
Proof.
  intros Hleaf. unfold to_cpu_sparse. cbn [net with_net].
  set (s0 := MkSparseState _ _ _ _ _).
  assert (∀ e, e ∈ namedlinks (to_cpu (net self)) → params e.2 = [])
    as Hparams.
  { intros [p x] He. cbn [snd]. apply params_nil. intros q lf Hq.
    destruct (namedlinks_lookup _ _ _ He) as [_ Hp].
    assert (lookup_path (p ++ q) (to_cpu (net self)) = Some (Leaf lf))
      as Hpq by (by rewrite lookup_path_app, Hp).
    rewrite lookup_path_to_cpu in Hpq.
    destruct (lookup_path (p ++ q) (net self)) as [[lf0|]|] eqn:E;
      try discriminate Hpq.
    injection Hpq as <-. rewrite leaf_params_to_device.
    by apply (Hleaf (p ++ q)). }
  assert (∀ es s,
            (∀ e, e ∈ es → e ∈ namedlinks (to_cpu (net self))) →
            sp_raised s = None → n_total_old_params s = 0 →
            n_total_new_params s = 0 →
            sp_raised (foldl to_cpu_sparse_body s es) = None
            ∧ n_total_old_params (foldl to_cpu_sparse_body s es) = 0
            ∧ n_total_new_params (foldl to_cpu_sparse_body s es) = 0
            ∧ sp_self (foldl to_cpu_sparse_body s es) = sp_self s)
    as Hloop.
  { induction es as [|e es IH]; intros s Hes Hr Hold Hnew; [done|].
    cbn [foldl].
    destruct (to_cpu_sparse_body_no_params s e) as (Hr' & Hold' & Hnew' & <-);
      try done.
    { apply Hparams, Hes, elem_of_cons. by left. }
    apply IH; try done.
    intros e' He'. apply Hes, elem_of_cons. by right. }
  destruct (Hloop (sorted_namedlinks (to_cpu (net self))) s0)
    as (Hr & Hold & Hnew & Hself); try done.
  { intros e He. by apply elem_of_sorted_namedlinks. }
  rewrite Hr, Hold, Hnew, Hself. done.
Qed.

(** *** The sparsification of a chain whose links are its own children *)

Lemma to_cpu_sparse_body_flat s n c chs :
  sp_self s = Chain CPU chs → chs !! n = Some c → is_chain c = false →
  sp_raised (to_cpu_sparse_body s ([n], c)) = None →
  sp_self (to_cpu_sparse_body s ([n], c))
  = Chain CPU (<[n := sparsify c]> chs).
Proof.
  intros Hself Hc Hleaf. unfold to_cpu_sparse_body.
  destruct (sp_raised s) eqn:Er; [by rewrite Er|]. cbn [fst snd].
  destruct (n_params c) as [n_old|]; [|done].
  destruct c as [lf|]; [|done].
  assert (Chain CPU chs = Chain CPU (<[n := Leaf lf]> chs)) as Hid
    by (by rewrite insert_id).
  destruct lf as [| |old| | |]; cbn [sparsify sp_self]; try by rewrite Hself.
  rewrite Hself. change (raw_name_str [n]) with n. cbn [delattr].
  rewrite Hc. cbn [add_link]. rewrite lookup_delete_eq.
  destruct (percent _ n_old); [|done]. cbn [sp_self]. intros _.
  by rewrite insert_delete_eq.
Qed.

Lemma to_cpu_sparse_loop_flat es :
  ∀ s chs,
    NoDup es.*1 →
    (∀ e, e ∈ es →
       ∃ n, e.1 = [n] ∧ is_chain e.2 = false ∧ chs !! n = Some e.2) →
    sp_self s = Chain CPU chs →
    sp_raised (foldl to_cpu_sparse_body s es) = None →
    ∃ chs',
      sp_self (foldl to_cpu_sparse_body s es) = Chain CPU chs'
      ∧ ∀ n, chs' !! n
             = if decide ([n] ∈ es.*1) then sparsify <$> chs !! n
               else chs !! n.
Proof.
  induction es as [|[p0 c0] es IH]; intros s chs Hnd Hes Hself Hr.
  - exists chs. split; [done|]. intros n. cbn.
    rewrite decide_False; [done|]. intros Hin. by apply elem_of_nil in Hin.
  - cbn [foldl] in Hr |- *.
    destruct (Hes (p0, c0)) as (n0 & Hp0 & Hleaf & Hc0);
      [apply elem_of_cons; by left|].
    cbn [fst snd] in Hp0, Hleaf, Hc0. subst p0.
    cbn [fmap list_fmap fst] in Hnd. apply NoDup_cons in Hnd as [Hn0 Hnd].
    assert (sp_raised (to_cpu_sparse_body s ([n0], c0)) = None) as Hr1.
    { destruct (sp_raised (to_cpu_sparse_body s ([n0], c0))) eqn:Er1;
        [|done].
      rewrite (to_cpu_sparse_loop_raised es
                 (to_cpu_sparse_body s ([n0], c0))) in Hr; congruence. }
    pose proof (to_cpu_sparse_body_flat s n0 c0 chs Hself Hc0 Hleaf Hr1)
      as Hself1.
    destruct (IH (to_cpu_sparse_body s ([n0], c0))
                (<[n0 := sparsify c0]> chs) Hnd)
      as (chs' & Hself' & Hlook); [|exact Hself1|exact Hr|].
    { intros e He. destruct (Hes e) as (n & Hp & Hl & Hc);
        [apply elem_of_cons; by right|].
      exists n. split; [done|]. split; [done|].
      rewrite lookup_insert_ne; [done|]. intros ->. apply Hn0.
      rewrite <- Hp. apply list_elem_of_fmap. by exists e. }
    exists chs'. split; [exact Hself'|]. intros n. rewrite Hlook.
    cbn [fmap list_fmap fst].
    destruct (decide (n = n0)) as [->|Hne].
    + rewrite decide_False by done.
      rewrite decide_True by (apply elem_of_cons; by left).
      by rewrite lookup_insert_eq, Hc0.
    + rewrite lookup_insert_ne by done.
      destruct (decide ([n] ∈ es.*1)) as [Hin|Hnin].
      * rewrite decide_True; [done|]. apply elem_of_cons. by right.
      * rewrite decide_False; [done|].
        intros [Heq|Hin]%elem_of_cons; [congruence|done].
Qed.

Lemma flat_namedlinks d ch :
  (∀ n c, ch !! n = Some c → is_chain c = false) →
  namedlinks (Chain d ch)
  = (λ nc : string * link, ([nc.1], nc.2)) <$> map_to_list ch.
Proof.
  intros Hflat. rewrite namedlinks_chain.
  assert (Forall (λ nc : string * link, is_chain nc.2 = false)
            (map_to_list ch)) as Hall.
  { apply Forall_forall. intros [n c] Hin. apply elem_of_map_to_list in Hin.
    by eapply Hflat. }
  induction Hall as [|[n c] l Hc Hall IH]; [done|].
  cbn in *. rewrite IH. by destruct c.
Qed.

(** X19: on a chain whose children are all leaves, a run of
    [to_cpu_sparse] that returns leaves a chain in host memory with the
    same names, in which every VD linear layer has been replaced by its
    sparse model and every other link is the original one in host
    memory. *)
Theorem to_cpu_sparse_flat (self : VariationalDropoutChain) (d : device)
    (ch : gmap string link) :
  net self = Chain d ch →
  (∀ n c, ch !! n = Some c → is_chain c = false) →
  returned (to_cpu_sparse self) = Ok () →
  net (self_after (to_cpu_sparse self))
  = Chain CPU (sparsify ∘ to_cpu <$> ch).
Proof.
  intros Hnet Hflat. unfold to_cpu_sparse. cbn [net with_net].
  rewrite Hnet. cbn [to_cpu].
  set (base := to_cpu <$> ch).
  set (s0 := MkSparseState _ _ _ _ _).
  set (es := sorted_namedlinks (Chain CPU base)).
  assert (∀ n c, base !! n = Some c → is_chain c = false) as Hbase.
  { intros n c. unfold base. rewrite lookup_fmap.
    destruct (ch !! n) as [c0|] eqn:E; [|done]. intros [= <-].
    specialize (Hflat n c0 E). by destruct c0. }
  assert (es ≡ₚ (λ nc : string * link, ([nc.1], nc.2)) <$> map_to_list base)
    as Hperm.
  { unfold es, sorted_namedlinks.
    by rewrite merge_sort_Permutation, flat_namedlinks. }
  intros Hret.
  assert (sp_raised (foldl to_cpu_sparse_body s0 es) = None) as Hr.
  { destruct (sp_raised (foldl to_cpu_sparse_body s0 es)); [|done].
    discriminate Hret. }
  destruct (to_cpu_sparse_loop_flat es s0 base) as (chs' & Hself & Hlook);
    try done.
  { rewrite Hperm, <- list_fmap_compose.
    apply (NoDup_fmap_2_strong (λ nc : string * link, [nc.1])).
    - intros [n c] [n' c'] Hin Hin' [= Heq]. cbn in Heq. subst n'.
      apply elem_of_map_to_list in Hin, Hin'. congruence.
    - apply NoDup_map_to_list. }
  { intros e He. rewrite Hperm in He.
    apply list_elem_of_fmap in He as ([n c] & -> & Hin).
    apply elem_of_map_to_list in Hin. exists n. cbn.
    split; [done|]. split; [by eapply Hbase|done]. }
  assert (net (self_after
            match sp_raised (foldl to_cpu_sparse_body s0 es) with
            | Some ex =>
                MkOutcome
                  (with_net (with_net self (Chain CPU base))
                     (sp_self (foldl to_cpu_sparse_body s0 es)))
                  [] (sp_out (foldl to_cpu_sparse_body s0 es))
                  (Raise ex : result ())
            | None => _
            end)
          = sp_self (foldl to_cpu_sparse_body s0 es)) as ->.
  { rewrite Hr. by destruct (percent _ _). }
  rewrite Hself. f_equal. apply map_eq. intros n.
  rewrite Hlook, map_fmap_compose, lookup_fmap. fold base.
  destruct (base !! n) as [c|] eqn:E; [|by destruct (decide _)].
  rewrite decide_True; [done|]. rewrite Hperm, <- list_fmap_compose.
  apply list_elem_of_fmap. exists (n, c). split; [done|].
  by apply elem_of_map_to_list.
Qed.

(** ** The loss of a chain with VD layers *)

Lemma calc_loss_stats_ok (self : VariationalDropoutChain) (cs : bool) :
  ∃ rs w, (if cs then calc_loss_stats self else Ok ([], [])) = Ok (rs, w).
Proof.
  destruct cs; [|by eexists _, _]. unfold calc_loss_stats.
  destruct (calculate_stats_cases (net self) P_THRESHOLD)
    as (s & w & Hs & _ & _ & Hm & Hsp & Hr).
  rewrite Hs. cbn [mbind result_bind fst snd].
  destruct (getitem s "mean_p"); [|done].
  destruct (getitem s "sparsity"); [|done].
  destruct (getitem s "W/Wnz"); [|done].
  by eexists _, _.
Qed.

(** X6: [calc_loss] with [split_loss=True] and [add_kl=False] returns the
    attribute [kl_loss] that an earlier call left on the chain, and raises
    [AttributeError] when there is none, as on a fresh chain. *)
Theorem calc_loss_split_without_kl (cfg : config)
    (self : VariationalDropoutChain) (x t : ndarray) (w : float)
    (children : gmap string link) (calc_stats : bool) :
  (let r := calc_loss cfg self x t false true calc_stats in
   returned r
   = match attr_kl_loss self with
     | Some kl_loss =>
         Ok (SplitLoss (default (Finite 0) (attr_class_loss (self_after r)))
               kl_loss)
     | None => Raise (AttributeError "kl_loss")
     end)
  ∧ is_ok (returned (calc_loss cfg (VariationalDropoutChain_init w children)
                       x t false true calc_stats)) = false.
Proof.
  unfold calc_loss.
  set (y := forward (net self) x).
  set (cl := if bool_decide _ then _ else _).
  split.
  - destruct (train cfg && isnan cl); cbn zeta beta iota.
    all: match goal with
         | |- context [if ?cs then calc_loss_stats ?s else ?b] =>
             destruct (calc_loss_stats_ok s cs) as (rs & ws & ->)
         end.
    all: cbn; destruct (attr_kl_loss self); reflexivity.
  - match goal with
    | |- context [train cfg && isnan ?c] => destruct (train cfg && isnan c)
    end; cbn zeta beta iota.
    all: match goal with
         | |- context [if ?cs then calc_loss_stats ?s else ?b] =>
             destruct (if cs then calc_loss_stats s else b) as [[rs w']|e']
         end; reflexivity.
Qed.

Lemma omap_vd_leaf_of_nil (ls : list link) :
  omap vd_leaf_of ls = [] → omap kl_term ls = [].
Proof.
  induction ls as [|l ls IH]; [done|].
  destruct l as [[]|]; cbn; try done.
Qed.

Lemma calc_loss_closed_form (cfg : config) (self : VariationalDropoutChain)
    (x t : ndarray) (split_loss calc_stats : bool) (v : pyfloat)
    (vs : list pyfloat) :
  omap kl_term (links (net self)) = v :: vs →
  let r := calc_loss cfg self x t true split_loss calc_stats in
  let cl := F_softmax_cross_entropy (forward (net self) x) t in
  let class_loss := if train cfg && isnan cl then Finite 0 else cl in
  let weighted :=
    scalar_scale (py_sum (omap kl_term (links (net self)))) (kl_coef self) in
  let step := py_min (kl_coef self + warm_up self) 1 in
  ∃ d,
    scalar_data weighted = Ok d
    ∧ let kl_loss :=
        if train cfg && isnan d then Variable_ (Finite 0) else weighted in
      returned r
      = Ok (if split_loss then SplitLoss class_loss kl_loss
            else Loss (scalar_add class_loss kl_loss))
      ∧ attr_kl_loss (self_after r) = Some kl_loss
      ∧ attr_loss (self_after r) = Some (scalar_add class_loss kl_loss)
      ∧ kl_coef (self_after r) = step
      ∧ Report "kl_coef" (pf_of_float step) ∈ reported r.
Proof.
  intros Hkl r cl class_loss weighted step.
  subst r class_loss weighted. unfold calc_loss, calc_loss_kl.
  rewrite class_loss_forget. fold cl.
  set (y := forward (net self) x).
  cbn [net with_class_loss with_y kl_coef warm_up].
  rewrite Hkl. cbn [py_sum scalar_scale scalar_data].
  eexists. split; [reflexivity|].
  destruct (train cfg && isnan cl); cbn zeta beta iota.
  all: match goal with
       | |- context [train ?c && isnan ?d] => destruct (train c && isnan d)
       end.
  all: cbn zeta beta iota.
  all: match goal with
       | |- context [if ?cs then calc_loss_stats ?s else ?b] =>
           destruct (calc_loss_stats_ok s cs) as (rs & w & ->)
       end.
  all: cbn zeta beta iota.
  all: destruct split_loss.
  all: cbn [self_after returned reported attr_kl_loss attr_loss kl_coef
            warm_up with_kl_coef with_kl_loss with_class_loss with_y
            with_loss with_accuracy default].
  all: split; [reflexivity|]. all: split; [reflexivity|].
  all: split; [reflexivity|]. all: split; [reflexivity|].
  all: subst step; rewrite ?elem_of_app, ?elem_of_cons; auto 20.
Qed.

Lemma calc_loss_returns (cfg : config) (self : VariationalDropoutChain)
    (x t : ndarray) (split_loss calc_stats : bool) :
  vd_layers (net self) ≠ [] →
  is_ok (returned (calc_loss cfg self x t true split_loss calc_stats)) = true.
Proof.
  intros Hvd.
  destruct (omap kl_term (links (net self))) as [|v vs] eqn:E.
  { exfalso. apply Hvd. by apply omap_kl_term_nil. }
  destruct (calc_loss_closed_form cfg self x t split_loss calc_stats v vs E)
    as (d & _ & Hrest).
  cbv zeta in Hrest. destruct Hrest as (-> & _). reflexivity.
Qed.

Lemma all_return_add_kl (self : VariationalDropoutChain)
    (calls : list call_args) :
  vd_layers (net self) ≠ [] →
  Forall (λ c, call_add_kl c = true) calls →
  all_return self calls = true.
Proof.
  intros Hvd Hall. revert self Hvd.
  induction Hall as [|c calls Hc Hall IH]; intros self Hvd; [done|].
  cbn [all_return]. apply andb_true_intro. split.
  - unfold calc_loss_with. rewrite Hc. by apply calc_loss_returns.
  - apply IH. unfold calc_loss_with.
    by destruct (calc_loss_fields (call_cfg c) self (call_x c) (call_t c)
                   (call_add_kl c) (call_split_loss c) (call_calc_stats c))
      as (-> & _).
Qed.

(** X20: when [calc_loss] with [add_kl=True] returns, the chain has at
    least one VD layer; the KL loss is the sum of the KL terms of the
    layers times the coefficient [kl_coef] the chain had before the call,
    or 0 when that product is NaN in the training regime; the call returns
    the classification loss plus the KL loss, or the two of them with
    [split_loss=True]; and [kl_coef] has become
    [min(kl_coef + warm_up, 1.)], which is reported. *)
Theorem calc_loss_with_vd_layers (cfg : config)
    (self : VariationalDropoutChain) (x t : ndarray)
    (split_loss calc_stats : bool) (value : loss_value) :
  returned (calc_loss cfg self x t true split_loss calc_stats) = Ok value →
  let r := calc_loss cfg self x t true split_loss calc_stats in
  let cl := F_softmax_cross_entropy (forward (net self) x) t in
  let class_loss := if train cfg && isnan cl then Finite 0 else cl in
  let weighted :=
    scalar_scale (py_sum (omap kl_term (links (net self)))) (kl_coef self) in
  let step := py_min (kl_coef self + warm_up self) 1 in
  vd_layers (net self) ≠ []
  ∧ ∃ d,
      scalar_data weighted = Ok d
      ∧ let kl_loss :=
          if train cfg && isnan d then Variable_ (Finite 0) else weighted in
        value = (if split_loss then SplitLoss class_loss kl_loss
                 else Loss (scalar_add class_loss kl_loss))
        ∧ attr_kl_loss (self_after r) = Some kl_loss
        ∧ attr_loss (self_after r) = Some (scalar_add class_loss kl_loss)
        ∧ kl_coef (self_after r) = step
        ∧ Report "kl_coef" (pf_of_float step) ∈ reported r.
Proof.
  intros Hret. cbv zeta.
  destruct (omap kl_term (links (net self))) as [|v vs] eqn:E.
  { rewrite calc_loss_kl_raises in Hret by done. discriminate Hret. }
  split.
  { intros Hvd. apply omap_vd_leaf_of_nil in Hvd. unfold links in *.
    by rewrite E in Hvd. }
  destruct (calc_loss_closed_form cfg self x t split_loss calc_stats v vs E)
    as (d & Hd & Hrest).
  cbv zeta in Hrest. rewrite E in Hd, Hrest.
  destruct Hrest as (Hr & Hkl & Hloss & Hk & Hrep).
  exists d. split; [exact Hd|].
  rewrite Hr in Hret. injection Hret as <-. by repeat split.
Qed.

(** ** Sequences of calls of the tanh RNN *)

Lemma tanh_rnn_stored_state (cfg : config) (noise : initializer)
    (self : VariationalDropoutTanhRNN) (x h : ndarray) :
  rnn_h self = Some h →
  (VariationalDropoutTanhRNN_call cfg noise self x None).2
  = (VariationalDropoutTanhRNN_call cfg noise self x (Some h)).2.
Proof.
  intros Hh. unfold VariationalDropoutTanhRNN_call. rewrite Hh.
  destruct (F_concat x h) as [xh|e]; [|reflexivity].
  destruct (VariationalDropoutLinear_call cfg noise (rnn_W self) xh)
    as [W [a|e]]; [|reflexivity].
  by repeat case_bool_decide.
Qed.

(** X21: stateful calls of the tanh RNN chain: when a stateful call
    returns [h1], the next stateful call returns what a stateless call
    with the hidden state [h1] returns. *)
Theorem tanh_rnn_stateful_sequence (cfg : config) (noise : initializer)
    (self : VariationalDropoutTanhRNN) (x1 x2 : ndarray) :
  let r1 := VariationalDropoutTanhRNN_call cfg noise self x1 None in
  match r1.2 with
  | Ok h1 =>
      (VariationalDropoutTanhRNN_call cfg noise r1.1 x2 None).2
      = (VariationalDropoutTanhRNN_call cfg noise r1.1 x2 (Some h1)).2
  | Raise _ => True
  end.
Proof.
  intros r1.
  assert (match r1.2 with
          | Ok h1 => rnn_h r1.1 = Some h1
          | Raise _ => True
          end) as Hstate.
  { unfold r1, VariationalDropoutTanhRNN_call.
    destruct (rnn_h self) as [h|]; [|destruct (shape0 x1) as [n|e]];
      try exact I.
    all: match goal with
         | |- context [F_concat ?x ?h] => destruct (F_concat x h) as [xh|e]
         end; try exact I.
    all: match goal with
         | |- context [VariationalDropoutLinear_call ?c ?n ?W ?a] =>
             destruct (VariationalDropoutLinear_call c n W a)
               as [W' [a'|e]]
         end; try exact I.
    all: by repeat case_bool_decide. }
  destruct r1.2 as [h1|e]; [|exact I].
  by apply tanh_rnn_stored_state.
Qed.

(** X22: the shapes the recurrent layers are built with: the weight of
    the tanh RNN takes the input and the state side by side; in the LSTM
    both the upward and the lateral weight have [in_size] columns and
    four times [out_size] rows, and the lateral layer has no bias. *)
Theorem recurrent_layer_shapes (in_size out_size : nat) (nobias : bool)
    (initialW initial_bias : option initializer)
    (p_threshold loga_threshold : R) (initial_log_sigma2 : initializer) :
  (let rnn :=
     VariationalDropoutTanhRNN_init in_size out_size nobias initialW
       initial_bias p_threshold loga_threshold initial_log_sigma2 in
   param_shape (lin_W (vdl_base (rnn_W rnn)))
   = Ok [out_size; in_size + out_size]
   ∧ param_shape (vdl_log_sigma2 (rnn_W rnn))
     = Ok [out_size; in_size + out_size]
   ∧ rnn_h rnn = None)
  ∧ (let lstm :=
       VariationalDropoutLSTM_init (Some in_size) out_size nobias initialW
         initial_bias p_threshold loga_threshold initial_log_sigma2 in
     param_shape (lin_W (vdl_base (upward lstm)))
     = Ok [out_size * 4; in_size]
     ∧ param_shape (lin_W (vdl_base (lateral lstm)))
       = Ok [out_size * 4; in_size]
     ∧ param_shape (vdl_log_sigma2 (lateral lstm))
       = Ok [out_size * 4; in_size]
     ∧ lin_b (vdl_base (lateral lstm)) = None
     ∧ lstm_h lstm = None ∧ lstm_c lstm = None).
Proof. repeat split; reflexivity. Qed.

(** ** The LeNet architectures *)

Lemma add_link_fresh d ch n l :
  ch !! n = None → add_link (Chain d ch) n l = Ok (Chain d (<[n := l]> ch)).
Proof. intros Hn. unfold add_link. by rewrite Hn. Qed.

Lemma vd_linear_layer_shapes (i o : nat) :
  ∃ v, vd_linear_layer i o = Leaf (LVDLinear v)
    ∧ param_shape (lin_W (vdl_base v)) = Ok [o; i]
    ∧ param_shape (vdl_log_sigma2 v) = Ok [o; i].
Proof. eexists. split; [reflexivity|]. by split. Qed.

Lemma vd_convolution_layer_shapes (i o k : nat) :
  ∃ v, vd_convolution_layer i o k = Leaf (LVDConvolution2D v)
    ∧ param_shape (conv_W (vdc_base v)) = Ok [o; i; k; k]
    ∧ param_shape (vdc_log_sigma2 v) = Ok [o; i; k; k].
Proof. eexists. split; [reflexivity|]. by split. Qed.

(** X23: [LeNet300100VD] and [LeNet5VD] are built without an exception, as
    chains whose children are VD layers with [W] and [log_sigma2]
    materialized at the shapes of the architecture; the coefficient
    [kl_coef] starts at 0 unless [warm_up] is 0. *)
Theorem lenet_vd_constructors (w : float) :
  (∃ self l1 l2 l3,
     LeNet300100VD_init w = Ok self
     ∧ kl_coef self = (if (w =? 0)%float then 1%float else 0%float)
     ∧ net self
       = Chain CPU
           (<["l3" := Leaf (LVDLinear l3)]>
              (<["l2" := Leaf (LVDLinear l2)]>
                 (<["l1" := Leaf (LVDLinear l1)]> ∅)))
     ∧ param_shape (lin_W (vdl_base l1)) = Ok [300; 784]
     ∧ param_shape (vdl_log_sigma2 l1) = Ok [300; 784]
     ∧ param_shape (lin_W (vdl_base l2)) = Ok [100; 300]
     ∧ param_shape (vdl_log_sigma2 l2) = Ok [100; 300]
     ∧ param_shape (lin_W (vdl_base l3)) = Ok [10; 100]
     ∧ param_shape (vdl_log_sigma2 l3) = Ok [10; 100])
  ∧ (∃ self conv1 conv2 fc3 fc4,
       LeNet5VD_init w = Ok self
       ∧ kl_coef self = (if (w =? 0)%float then 1%float else 0%float)
       ∧ net self
         = Chain CPU
             (<["fc4" := Leaf (LVDLinear fc4)]>
                (<["fc3" := Leaf (LVDLinear fc3)]>
                   (<["conv2" := Leaf (LVDConvolution2D conv2)]>
                      (<["conv1" := Leaf (LVDConvolution2D conv1)]> ∅))))
       ∧ param_shape (conv_W (vdc_base conv1)) = Ok [20; 1; 5; 5]
       ∧ param_shape (vdc_log_sigma2 conv1) = Ok [20; 1; 5; 5]
       ∧ param_shape (conv_W (vdc_base conv2)) = Ok [50; 20; 5; 5]
       ∧ param_shape (vdc_log_sigma2 conv2) = Ok [50; 20; 5; 5]
       ∧ param_shape (lin_W (vdl_base fc3)) = Ok [500; 800]
       ∧ param_shape (vdl_log_sigma2 fc3) = Ok [500; 800]
       ∧ param_shape (lin_W (vdl_base fc4)) = Ok [10; 500]
       ∧ param_shape (vdl_log_sigma2 fc4) = Ok [10; 500]).
Proof.
  assert (kl_coef (VariationalDropoutChain_init w ∅)
          = (if (w =? 0)%float then 1%float else 0%float)) as Hk.
  { unfold VariationalDropoutChain_init, py_bool. cbn [kl_coef].
    by destruct (w =? 0)%float. }
  split.
  - destruct (vd_linear_layer_shapes 784 300) as (l1 & E1 & HW1 & Hs1).
    destruct (vd_linear_layer_shapes 300 100) as (l2 & E2 & HW2 & Hs2).
    destruct (vd_linear_layer_shapes 100 10) as (l3 & E3 & HW3 & Hs3).
    unfold LeNet300100VD_init. rewrite E1, E2, E3. clear E1 E2 E3.
    change (net (VariationalDropoutChain_init w ∅)) with (Chain CPU ∅).
    cbv zeta.
    rewrite add_link_fresh by apply lookup_empty. cbn [mbind result_bind].
    rewrite add_link_fresh
      by (rewrite lookup_insert_ne by done; apply lookup_empty).
    cbn [mbind result_bind].
    rewrite add_link_fresh
      by (rewrite !lookup_insert_ne by done; apply lookup_empty).
    cbn [mbind result_bind].
    eexists _, l1, l2, l3. split; [reflexivity|].
    split; [exact Hk|]. split; [reflexivity|]. by repeat split.
  - destruct (vd_convolution_layer_shapes 1 20 5) as (c1 & E1 & HW1 & Hs1).
    destruct (vd_convolution_layer_shapes 20 50 5) as (c2 & E2 & HW2 & Hs2).
    destruct (vd_linear_layer_shapes 800 500) as (f3 & E3 & HW3 & Hs3).
    destruct (vd_linear_layer_shapes 500 10) as (f4 & E4 & HW4 & Hs4).
    unfold LeNet5VD_init. rewrite E1, E2, E3, E4. clear E1 E2 E3 E4.
    change (net (VariationalDropoutChain_init w ∅)) with (Chain CPU ∅).
    cbv zeta.
    rewrite add_link_fresh by apply lookup_empty. cbn [mbind result_bind].
    rewrite add_link_fresh
      by (rewrite lookup_insert_ne by done; apply lookup_empty).
    cbn [mbind result_bind].
    rewrite add_link_fresh
      by (rewrite !lookup_insert_ne by done; apply lookup_empty).
    cbn [mbind result_bind].
    rewrite add_link_fresh
      by (rewrite !lookup_insert_ne by done; apply lookup_empty).
    cbn [mbind result_bind].
    eexists _, c1, c2, f3, f4. split; [reflexivity|].
    split; [exact Hk|]. split; [reflexivity|]. by repeat split.
Qed.

(** ** A VD convolution without a bias *)

(** X24: in the training regime a VD convolution built without a bias
    does not return: [F.bias] is applied to the missing bias.  In the
    inference regime the same layer is convolved without a bias. *)
Theorem dropout_convolution_2d_without_bias (m : Z) (noise : initializer)
    (self : VariationalDropoutConvolution2D) (x : ndarray) :
  conv_b (vdc_base self) = None →
  is_ok (dropout_convolution_2d (Config true m) noise self x) = false
  ∧ dropout_convolution_2d (Config false m) noise self x
    = (W ← param_data (conv_W (vdc_base self));
       F_convolution_2d x
         (nd_mul
            (one_minus
               (nd_gt (calculate_log_alpha (conv_W (vdc_base self))
                         (vdc_log_sigma2 self) (1 / 100000000)%R
                         ((-8)%R, 8%R))
                  (vdc_loga_threshold self)))
            W)
         None (conv_stride (vdc_base self)) (conv_pad (vdc_base self))).
Proof.
  intros Hb. unfold dropout_convolution_2d. cbv zeta. rewrite Hb.
  cbn [train mbind option_bind]. split; [|reflexivity].
  destruct (param_data (conv_W (vdc_base self))) as [W|e];
    cbn [mbind result_bind]; [|reflexivity].
  match goal with
  | |- context [F_convolution_2d x ?w None ?s ?p] =>
      destruct (F_convolution_2d x w None s p) as [mu|e]
  end; cbn [mbind result_bind]; [|reflexivity].
  match goal with
  | |- context [F_convolution_2d (nd_mul x x) ?w None ?s ?p] =>
      destruct (F_convolution_2d (nd_mul x x) w None s p) as [var|e]
  end; reflexivity.
Qed.

End Properties.

(** ** The properties at the example inputs *)

Lemma net_nobias_well_formed p lf :
  lookup_path p net_nobias = Some (Leaf lf) → well_formed_plain lf.
Proof.
  destruct p as [|n p]; [done|]. unfold net_nobias. cbn.
  destruct (decide (n = "fc")) as [->|Hn].
  - rewrite lookup_singleton_eq. cbn. destruct p; [|done]. intros [= <-].
    exists (array11 1), 1, 1. repeat split; try done.
  - by rewrite lookup_singleton_ne.
Qed.

(** C1, refuted as stated: a linear layer built without a bias is replaced
    by a VD layer that has one. *)
Lemma conversion_adds_a_bias :
  ∃ self' out v,
    to_variational_dropout (H := reference_host) net_nobias = Ok (self', out)
    ∧ lookup_path ["fc"] net_nobias = Some (Leaf (LLinear linear_nobias))
    ∧ lin_b linear_nobias = None
    ∧ lookup_path ["fc"] self' = Some (Leaf (LVDLinear v))
    ∧ lin_b (vdl_base v) ≠ None.
Proof.
  destruct (to_variational_dropout_vd_tree (H := reference_host) CPU
              {["fc" := Leaf (LLinear linear_nobias)]}) as [out Hrun].
  { apply well_formed_converted, net_nobias_well_formed. }
  eexists _, out, _. split; [exact Hrun|]. split; [done|]. split; [done|].
  rewrite lookup_path_vd_tree. cbn [lookup_path]. rewrite lookup_singleton_eq.
  cbn [mbind option_bind fmap option_fmap option_map vd_tree].
  unfold convert_leaf. cbn [is_plain].
  rewrite (get_vd_link_linear (H := reference_host) linear_nobias
             (array11 1) 1 1) by done.
  split; [reflexivity|]. done.
Qed.

Lemma net_linear_embed_well_formed p lf :
  lookup_path p net_linear_embed = Some (Leaf lf) → well_formed_plain lf.
Proof.
  destruct p as [|n p]; [done|]. unfold net_linear_embed. cbn.
  destruct (decide (n = "fc")) as [->|Hn].
  - rewrite lookup_insert_eq. cbn. destruct p; [|done]. intros [= <-].
    exists (array11 2), 1, 1.
    split; [done|]. split; [done|]. split; [done|].
    intros b a [= <-] [= <-]. done.
  - rewrite lookup_insert_ne by done.
    destruct (decide (n = "embed")) as [->|Hn'].
    + rewrite lookup_singleton_eq. cbn. destruct p; [|done]. by intros [= <-].
    + by rewrite lookup_singleton_ne.
Qed.

(** C1 at a chain with a linear layer and an embedding *)
Lemma to_variational_dropout_converts_witness :
  (∀ p lf, lookup_path p net_linear_embed = Some (Leaf lf) →
           well_formed_plain lf)
  ∧ ∃ self' out,
      to_variational_dropout (H := reference_host) net_linear_embed
      = Ok (self', out)
      ∧ lookup_path ["embed"] self' = Some (Leaf (LOther embed))
      ∧ ∃ v, lookup_path ["fc"] self' = Some (Leaf (LVDLinear v))
             ∧ pdata (lin_W (vdl_base v)) = Some (array11 2).
Proof.
  split; [exact net_linear_embed_well_formed|].
  destruct (to_variational_dropout_converts (H := reference_host) CPU
              (<["fc" := Leaf (LLinear linear_bias)]>
                 {["embed" := Leaf (LOther embed)]})
              net_linear_embed_well_formed) as (self' & out & Hrun & Hleaf).
  exists self', out. split; [exact Hrun|]. split.
  - exact (Hleaf ["embed"] (LOther embed) eq_refl).
  - destruct (Hleaf ["fc"] (LLinear linear_bias) eq_refl)
      as (a & o & i & Ha & Hs & Hl).
    eexists. split; [exact Hl|]. cbn. by rewrite <- Ha.
Defined.

(** C4, refuted as stated: on a chain that resides in the memory of an
    accelerator, [to_cpu_sparse] emits no warning and leaves the chain in
    host memory. *)
Lemma to_cpu_sparse_moves_gpu_chain :
  link_device (net gpu_chain) = GPU 0
  ∧ (WarnSparseCPU ∉ emitted (to_cpu_sparse (H := reference_host) gpu_chain))
  ∧ link_device
      (net (self_after (to_cpu_sparse (H := reference_host) gpu_chain)))
    = CPU.
Proof.
  split; [done|].
  destruct (to_cpu_sparse_on_cpu (H := reference_host) gpu_chain)
    as [Hcpu Hwarn].
  split; [done|]. by apply on_cpu_device.
Qed.

Lemma one_vd_layer_all_return (calls : list call_args) :
  Forall (λ c, call_add_kl c = true) calls →
  all_return (H := reference_host)
    (VariationalDropoutChain_init tenth
       {["l1" := Leaf (LVDLinear (vd_linear_11 1 (-10) CPU))]})
    calls = true.
Proof.
  apply all_return_add_kl.
  unfold vd_layers, links. cbn. rewrite map_fold_singleton. cbn. done.
Qed.

(** C5 at a chain with one VD layer, after three calls: the coefficient is
    0.30000000000000004. *)
Lemma kl_coef_warm_up_schedule_witness :
  all_return (H := reference_host)
    (VariationalDropoutChain_init tenth
       {["l1" := Leaf (LVDLinear (vd_linear_11 1 (-10) CPU))]})
    three_calls = true
  ∧ kl_coef (after_calls (H := reference_host)
               (VariationalDropoutChain_init tenth
                  {["l1" := Leaf (LVDLinear (vd_linear_11 1 (-10) CPU))]})
               three_calls)
    = 0x1.3333333333334p-2%float.
Proof.
  assert (all_return (H := reference_host)
            (VariationalDropoutChain_init tenth
               {["l1" := Leaf (LVDLinear (vd_linear_11 1 (-10) CPU))]})
            three_calls = true) as Hall
    by (apply one_vd_layer_all_return; repeat constructor).
  split; [exact Hall|].
  destruct (kl_coef_warm_up_schedule (H := reference_host)
              {["l1" := Leaf (LVDLinear (vd_linear_11 1 (-10) CPU))]}
              three_calls Hall) as (Hk & _).
  rewrite Hk. vm_compute. reflexivity.
Defined.

(** C5, refuted as stated: on a chain built with [warm_up = 0.1], after ten
    calls of [calc_loss] with [add_kl=True] that all return, the
    coefficient is 0.9999999999999999, while [min(0.1 * 10, 1.)] is 1. *)
Lemma kl_coef_after_ten_calls :
  let self :=
    after_calls (H := reference_host)
      (VariationalDropoutChain_init tenth
         {["l1" := Leaf (LVDLinear (vd_linear_11 1 (-10) CPU))]})
      ten_calls in
  all_return (H := reference_host)
    (VariationalDropoutChain_init tenth
       {["l1" := Leaf (LVDLinear (vd_linear_11 1 (-10) CPU))]})
    ten_calls = true
  ∧ count_add_kl ten_calls = 10
  ∧ kl_coef self = 0x1.fffffffffffffp-1%float
  ∧ py_min (tenth * 10) 1 = 1%float
  ∧ (kl_coef self =? py_min (tenth * 10) 1)%float = false.
Proof.
  assert (all_return (H := reference_host)
            (VariationalDropoutChain_init tenth
               {["l1" := Leaf (LVDLinear (vd_linear_11 1 (-10) CPU))]})
            ten_calls = true) as Hall
    by (apply one_vd_layer_all_return; repeat constructor).
  cbv zeta. rewrite (after_calls_kl_coef (H := reference_host) _ _ Hall).
  split; [exact Hall|]. by vm_compute.
Qed.

(** C7, refuted as stated: a stateless call on a layer that holds a state
    returns and leaves the layer without a stored state. *)
Lemma stateless_call_clears_state :
  let r :=
    VariationalDropoutTanhRNN_call (H := reference_host) (Config false 0)
      unit_noise rnn_with_state (array11 2) (Some (array11 3)) in
  rnn_h rnn_with_state = Some (array11 1)
  ∧ is_ok r.2 = true
  ∧ rnn_h r.1 ≠ rnn_h rnn_with_state.
Proof.
  cbn zeta. split; [reflexivity|]. split; [reflexivity|].
  assert (rnn_h (VariationalDropoutTanhRNN_call (H := reference_host)
                   (Config false 0) unit_noise rnn_with_state (array11 2)
                   (Some (array11 3))).1 = None) as -> by reflexivity.
  done.
Qed.

Lemma ln_one_plus_eps :
  (0 < ln (1 * 1 + 1 / 100000000) < 1)%R.
Proof.
  split.
  - rewrite <- ln_1. apply ln_increasing; lra.
  - pose proof (exp_ineq1 1 ltac:(lra)).
    apply Rlt_le_trans with (ln (exp 1)); [apply ln_increasing; lra|].
    rewrite ln_exp. lra.
Qed.

Lemma clip_high (v : R) : (8 <= v)%R → clip (-8) 8 v = 8%R.
Proof.
  intros Hv. unfold clip, Rmin, Rmax.
  repeat destruct (Rle_dec _ _); lra.
Qed.

Lemma clip_low (v : R) : (v <= -8)%R → clip (-8) 8 v = (-8)%R.
Proof.
  intros Hv. unfold clip, Rmin, Rmax.
  repeat destruct (Rle_dec _ _); lra.
Qed.

Lemma conv_1x1_log_alpha :
  calculate_log_alpha (Host := reference_host) (conv_W (vdc_base conv_1x1))
    (vdc_log_sigma2 conv_1x1) (1 / 100000000) ((-8)%R, 8%R)
  = NdArray [1; 1; 1; 1] [8%R].
Proof.
  cbn. unfold ew2. cbn. f_equal. f_equal.
  apply clip_high. pose proof ln_one_plus_eps. lra.
Qed.

Lemma conv_1x1_mask :
  nd_gt (NdArray [1; 1; 1; 1] [8%R]) (vdc_loga_threshold conv_1x1)
  = NdArray [1; 1; 1; 1] [1%R].
Proof.
  unfold nd_gt, ew1. cbn. unfold LOGA_THRESHOLD.
  destruct (Rlt_dec 3 8); [done|lra].
Qed.

(** C6 at a 1×1 convolution that has a bias *)
Lemma dropout_convolution_2d_train_witness :
  is_Some (conv_b (vdc_base conv_1x1) ≫= pdata)
  ∧ dropout_convolution_2d (H := reference_host) (Config true 0) unit_noise
      conv_1x1 image_1x1
    = dropout_convolution_2d_masked_variance (H := reference_host)
        unit_noise conv_1x1 image_1x1.
Proof.
  assert (is_Some (conv_b (vdc_base conv_1x1) ≫= pdata)) as Hb
    by (eexists; reflexivity).
  split; [exact Hb|].
  exact (dropout_convolution_2d_train (H := reference_host) 0 unit_noise
           conv_1x1 image_1x1 Hb).
Defined.

(** C6, refuted as stated: with a pruned weight, the output of the VD
    convolution in the training regime differs from the output computed with
    the variance term of the unmasked weights. *)
Lemma variance_term_uses_masked_weights :
  dropout_convolution_2d (H := reference_host) (Config true 0) unit_noise
    conv_1x1 image_1x1
  ≠ dropout_convolution_2d_unmasked_variance (H := reference_host)
      unit_noise conv_1x1 image_1x1.
Proof.
  unfold dropout_convolution_2d, dropout_convolution_2d_unmasked_variance.
  rewrite conv_1x1_log_alpha, conv_1x1_mask.
  cbn. unfold convolution_2d_ref. cbn.
  repeat (rewrite bool_decide_eq_true_2 by (cbn; lia); cbn).
  intros [= Heq].
  assert (1 * 1 * (exp 8 * ((1 - 1) * 1) * ((1 - 1) * 1)) + 0 + 0
          + 1 / 100000000 = 1 / 100000000)%R as Hl by ring.
  assert (1 * 1 * (exp 8 * 1 * 1) + 0 + 0 + 1 / 100000000
          = exp 8 + 1 / 100000000)%R as Hr by ring.
  rewrite Hl, Hr in Heq.
  pose proof (exp_pos 8) as Hexp.
  assert (sqrt (1 / 100000000) = sqrt (exp 8 + 1 / 100000000)) as Hs by lra.
  apply sqrt_inj in Hs; lra.
Qed.

Lemma exp_8_large : (19 < exp 8)%R.
Proof.
  pose proof (exp_ineq1 4 ltac:(lra)) as H4.
  assert (exp 8 = exp 4 * exp 4)%R as ->.
  { rewrite <- exp_plus. f_equal. lra. }
  nra.
Qed.

Lemma exp_minus_8_small : (0 < exp (-8) < 1)%R.
Proof.
  split; [apply exp_pos|]. rewrite <- exp_0. apply exp_increasing. lra.
Qed.

Lemma p_pruned : (95 / 100 < exp 8 / (1 + exp 8))%R.
Proof.
  pose proof exp_8_large.
  apply Rmult_lt_reg_r with (1 + exp 8)%R; [lra|].
  unfold Rdiv at 2. rewrite Rmult_assoc, Rinv_l by lra. lra.
Qed.

Lemma p_kept : (exp (-8) / (1 + exp (-8)) <= 95 / 100)%R.
Proof.
  pose proof exp_minus_8_small.
  apply Rmult_le_reg_r with (1 + exp (-8))%R; [lra|].
  unfold Rdiv at 1. rewrite Rmult_assoc, Rinv_l by lra. lra.
Qed.

Lemma calculate_p_pruned :
  calculate_p (H := reference_host) (LVDLinear (vd_linear_11 1 100 CPU))
  = Ok (NdArray [1; 1] [(exp 8 / (1 + exp 8))%R]).
Proof.
  cbn. unfold ew2, F_exp, ew1. cbn.
  rewrite (clip_high (100 - ln (1 * 1 + 1 / 100000000))); [done|].
  pose proof ln_one_plus_eps. lra.
Qed.

Lemma calculate_p_kept :
  calculate_p (H := reference_host) (LVDLinear (vd_linear_11 1 (-100) CPU))
  = Ok (NdArray [1; 1] [(exp (-8) / (1 + exp (-8)))%R]).
Proof.
  cbn. unfold ew2, F_exp, ew1. cbn.
  rewrite (clip_low (-100 - ln (1 * 1 + 1 / 100000000))); [done|].
  pose proof ln_one_plus_eps. lra.
Qed.

Lemma get_vd_links_nested_net :
  get_vd_links 3 nested_net
  = Ok [LVDLinear (vd_linear_11 1 (-100) CPU);
        LVDLinear (vd_linear_11 1 (-100) CPU);
        LVDLinear (vd_linear_11 1 100 CPU)].
Proof. vm_compute. reflexivity. Qed.

Lemma vd_layers_nested_net :
  vd_layers nested_net
  = [LVDLinear (vd_linear_11 1 (-100) CPU);
     LVDLinear (vd_linear_11 1 100 CPU)].
Proof. vm_compute. reflexivity. Qed.

Lemma is_zero_nested_net :
  nd_gt (NdArray [3] [(exp (-8) / (1 + exp (-8)))%R;
                      (exp (-8) / (1 + exp (-8)))%R;
                      (exp 8 / (1 + exp 8))%R]) P_THRESHOLD
  = NdArray [3] [0%R; 0%R; 1%R].
Proof.
  pose proof p_pruned. pose proof p_kept.
  unfold nd_gt, ew1, P_THRESHOLD. cbn.
  repeat destruct (Rlt_dec _ _); try lra. done.
Qed.

Lemma count_kept_nested_net :
  count_ones (one_minus (NdArray [3] [0%R; 0%R; 1%R])) = 2.
Proof.
  unfold count_ones, one_minus, ew1. cbn [data fmap list_fmap].
  rewrite !filter_cons_True by lra. rewrite filter_cons_False by lra.
  done.
Qed.

(** C8, what the code does: [get_vd_links] visits a VD layer that sits in a
    sub-chain twice, so its weights are counted twice.  On a network with
    one pruned weight at the top and one kept weight in a sub-chain, the
    statistics are a sparsity of 1/3 and a ratio of 3/2, while one of the two
    weights is pruned and one is kept. *)
Lemma calculate_stats_counts_nested_layers_twice :
  ∃ stats,
    calculate_stats (H := reference_host) nested_net P_THRESHOLD
    = Ok (stats, [])
    ∧ getitem stats "sparsity" = Ok (Finite (1 / 3))
    ∧ getitem stats "W/Wnz" = Ok (Finite (3 / 2))
    ∧ n_pruned (H := reference_host) nested_net P_THRESHOLD = 1
    ∧ n_kept (H := reference_host) nested_net P_THRESHOLD = 1.
Proof.
  pose proof p_pruned as Hpa. pose proof p_kept as Hpb.
  assert (n_pruned (H := reference_host) nested_net P_THRESHOLD = 1) as Hp.
  { unfold n_pruned, all_weights_p, p_values. rewrite vd_layers_nested_net.
    cbn [fmap list_fmap]. rewrite calculate_p_kept, calculate_p_pruned.
    cbn [data concat app].
    rewrite filter_cons_False by (unfold P_THRESHOLD; lra).
    rewrite filter_cons_True by (unfold P_THRESHOLD; lra). done. }
  assert (n_kept (H := reference_host) nested_net P_THRESHOLD = 1) as Hk.
  { unfold n_kept, all_weights_p, p_values. rewrite vd_layers_nested_net.
    cbn [fmap list_fmap]. rewrite calculate_p_kept, calculate_p_pruned.
    cbn [data concat app].
    rewrite filter_cons_True by (unfold P_THRESHOLD; lra).
    rewrite filter_cons_False by (unfold P_THRESHOLD; lra). done. }
  rewrite Hp, Hk.
  unfold calculate_stats.
  change (S (height nested_net)) with 3.
  rewrite get_vd_links_nested_net.
  cbn [mbind result_bind mapM fmap result_fmap].
  rewrite calculate_p_kept, calculate_p_pruned.
  cbn -[nd_gt one_minus count_ones mean INR concatenate flatten].
  change (concatenate _)
    with (NdArray [3] [(exp (-8) / (1 + exp (-8)))%R;
                       (exp (-8) / (1 + exp (-8)))%R;
                       (exp 8 / (1 + exp 8))%R]).
  rewrite is_zero_nested_net, count_kept_nested_net.
  rewrite (bool_decide_eq_false_2 (2 = 0)) by lia.
  rewrite !(bool_decide_eq_false_2 (P_THRESHOLD ≠ P_THRESHOLD))
    by (intros Hne; by apply Hne).
  cbn [orb].
  eexists. split; [reflexivity|].
  unfold getitem. cbn [entries].
  split; [|split; [|split; reflexivity]].
  - rewrite lookup_insert_ne by done. rewrite lookup_insert_eq.
    unfold mean. cbn. do 2 f_equal. lra.
  - rewrite lookup_insert_eq. unfold size. cbn. do 2 f_equal. lra.
Qed.

(** ** The further properties at example inputs *)

(** X4 at a chain with a linear layer and an embedding *)
Lemma calc_loss_kl_without_vd_layers_witness :
  vd_layers (net plain_chain) = []
  ∧ returned (calc_loss (H := reference_host) (Config true 0) plain_chain
                (array11 1) (NdArray [1] [0%R]) true false true)
    = Raise (AttributeError "data").
Proof.
  assert (vd_layers (net plain_chain) = []) as Hvd
    by (vm_compute; reflexivity).
  split; [exact Hvd|].
  apply (calc_loss_kl_without_vd_layers (H := reference_host) (Config true 0)
           plain_chain (array11 1) (NdArray [1] [0%R]) false true Hvd).
Defined.

Lemma nested_net_converted : converted nested_net.
Proof.
  apply converted_chain. intros n c Hc.
  destruct (decide (n = "a")) as [->|Hn].
  - rewrite lookup_insert_eq in Hc. injection Hc as <-.
    by apply converted_leaf.
  - rewrite lookup_insert_ne in Hc by done.
    destruct (decide (n = "sub")) as [->|Hn'].
    + rewrite lookup_singleton_eq in Hc. injection Hc as <-.
      apply converted_chain. intros m c' Hc'.
      destruct (decide (m = "b")) as [->|Hm].
      * rewrite lookup_singleton_eq in Hc'. injection Hc' as <-.
        by apply converted_leaf.
      * by rewrite lookup_singleton_ne in Hc'.
    + by rewrite lookup_singleton_ne in Hc.
Qed.

(** X7 at a chain with a VD layer and a sub-chain with a VD layer *)
Lemma to_variational_dropout_retains_converted_witness :
  converted nested_net
  ∧ ∃ out,
      to_variational_dropout (H := reference_host) nested_net
      = Ok (nested_net, out).
Proof.
  split; [exact nested_net_converted|].
  exact (to_variational_dropout_retains_converted (H := reference_host) CPU
           _ nested_net_converted).
Defined.

(** X8 at a chain with a linear layer and an embedding *)
Lemma to_variational_dropout_idempotent_witness :
  (∀ p lf, lookup_path p net_linear_embed = Some (Leaf lf) →
           well_formed_plain lf)
  ∧ ∃ self' out out',
      to_variational_dropout (H := reference_host) net_linear_embed
      = Ok (self', out)
      ∧ to_variational_dropout (H := reference_host) self'
        = Ok (self', out').
Proof.
  split; [exact net_linear_embed_well_formed|].
  exact (to_variational_dropout_idempotent (H := reference_host) CPU _
           net_linear_embed_well_formed).
Defined.

(** X9 at a chain with one linear layer *)
Lemma to_variational_dropout_preserves_structure_witness :
  (∀ p lf, lookup_path p net_nobias = Some (Leaf lf) → well_formed_plain lf)
  ∧ ∃ self' out,
      to_variational_dropout (H := reference_host) net_nobias
      = Ok (self', out)
      ∧ height self' = height net_nobias
      ∧ ∀ p,
          is_chain <$> lookup_path p self'
          = is_chain <$> lookup_path p net_nobias
          ∧ link_device <$> lookup_path p self'
            = link_device <$> lookup_path p net_nobias.
Proof.
  split; [exact net_nobias_well_formed|].
  exact (to_variational_dropout_preserves_structure (H := reference_host)
           CPU _ net_nobias_well_formed).
Defined.

(** X10 at a chain with a linear layer that was built without an input
    size *)
Lemma to_variational_dropout_unmaterialized_witness :
  lookup_path ["fc"] lazy_linear_net
  = Some (Leaf (LLinear (Linear_init (H := reference_host) None 3 false
                           None None)))
  ∧ pdata (lin_W (Linear_init (H := reference_host) None 3 false None None))
    = None
  ∧ is_ok (to_variational_dropout (H := reference_host) lazy_linear_net)
    = false.
Proof.
  split; [reflexivity|]. split; [reflexivity|].
  refine (proj2 (to_variational_dropout_unmaterialized (H := reference_host)
                   CPU _ "fc"
                   (LLinear (Linear_init (H := reference_host) None 3 false
                               None None))
                   (MkParam (Constant (1 / 10)) None) _ _ _ _)).
  - apply lookup_singleton_eq.
  - reflexivity.
  - reflexivity.
  - reflexivity.
Defined.

(** X13 at a chain with one linear layer *)
Lemma calculate_stats_without_vd_layers_witness :
  vd_layers net_nobias = []
  ∧ ∃ s,
      calculate_stats (H := reference_host) net_nobias P_THRESHOLD
      = Ok (s, [])
      ∧ entries s = ∅
      ∧ ∀ key, getitem s key = Ok (Finite 0).
Proof.
  assert (vd_layers net_nobias = []) as Hvd by (vm_compute; reflexivity).
  split; [exact Hvd|].
  exact (calculate_stats_without_vd_layers (H := reference_host) net_nobias
           P_THRESHOLD Hvd).
Defined.

Lemma flat_vd_net_flat n c :
  (<["a" := Leaf (LVDLinear (vd_linear_11 1 100 CPU))]>
     {["b" := Leaf (LVDLinear (vd_linear_11 1 (-100) CPU))]}
   : gmap string link) !! n = Some c →
  is_chain c = false.
Proof.
  destruct (decide (n = "a")) as [->|Hn].
  - rewrite lookup_insert_eq. by intros [= <-].
  - rewrite lookup_insert_ne by done.
    destruct (decide (n = "b")) as [->|Hn'].
    + rewrite lookup_singleton_eq. by intros [= <-].
    + by rewrite lookup_singleton_ne.
Qed.

Lemma flat_vd_net_weights :
  all_weights_p (H := reference_host) flat_vd_net
  = [(exp 8 / (1 + exp 8))%R; (exp (-8) / (1 + exp (-8)))%R].
Proof.
  unfold all_weights_p, p_values.
  replace (vd_layers flat_vd_net)
    with [LVDLinear (vd_linear_11 1 100 CPU);
          LVDLinear (vd_linear_11 1 (-100) CPU)]
    by (vm_compute; reflexivity).
  cbn [fmap list_fmap]. rewrite calculate_p_kept, calculate_p_pruned.
  reflexivity.
Qed.

(** X14 at a chain with a pruned and a kept weight: half of the weights
    are pruned. *)
Lemma calculate_stats_flat_witness :
  (∀ n c,
     (<["a" := Leaf (LVDLinear (vd_linear_11 1 100 CPU))]>
        {["b" := Leaf (LVDLinear (vd_linear_11 1 (-100) CPU))]}
      : gmap string link) !! n = Some c →
     is_chain c = false)
  ∧ all_weights_p (H := reference_host) flat_vd_net ≠ []
  ∧ ∃ s w,
      calculate_stats (H := reference_host) flat_vd_net P_THRESHOLD
      = Ok (s, w)
      ∧ getitem s "sparsity"
        = Ok (Finite
                (INR (n_pruned (H := reference_host) flat_vd_net
                        P_THRESHOLD)
                 / INR (length (all_weights_p (H := reference_host)
                                  flat_vd_net))))
      ∧ n_pruned (H := reference_host) flat_vd_net P_THRESHOLD
        + n_kept (H := reference_host) flat_vd_net P_THRESHOLD
        = 2.
Proof.
  assert (all_weights_p (H := reference_host) flat_vd_net ≠ []) as Hne
    by (rewrite flat_vd_net_weights; discriminate).
  split; [exact flat_vd_net_flat|]. split; [exact Hne|].
  destruct (calculate_stats_flat (H := reference_host) CPU _ P_THRESHOLD
              flat_vd_net_flat Hne) as (s & w & Hs & _ & Hsp & _ & Hsum).
  exists s, w. split; [exact Hs|]. split; [exact Hsp|].
  etransitivity; [exact Hsum|].
  exact (f_equal length flat_vd_net_weights).
Defined.

(** X17 at the chain that holds a VD linear layer in a sub-chain *)
Lemma to_cpu_sparse_nested_vd_linear_witness :
  lookup_path ["sub"; "b"] (net nested_chain)
  = Some (Leaf (LVDLinear (vd_linear_11 1 (-100) CPU)))
  ∧ chain_children (net nested_chain) !! raw_name_str ["sub"; "b"] = None
  ∧ is_ok (returned (to_cpu_sparse (H := reference_host) nested_chain))
    = false.
Proof.
  assert (lookup_path ["sub"; "b"] (net nested_chain)
          = Some (Leaf (LVDLinear (vd_linear_11 1 (-100) CPU)))) as Hl
    by (vm_compute; reflexivity).
  assert (chain_children (net nested_chain) !! raw_name_str ["sub"; "b"]
          = None) as Hkey by (vm_compute; reflexivity).
  split; [exact Hl|]. split; [exact Hkey|].
  exact (to_cpu_sparse_nested_vd_linear (H := reference_host) nested_chain
           "sub" "b" [] _ Hl Hkey).
Defined.

Lemma pooling_chain_no_parameters p lf :
  lookup_path p (net pooling_chain) = Some (Leaf lf) → leaf_params lf = [].
Proof.
  destruct p as [|n p]; [done|]. cbn.
  destruct (decide (n = "pool")) as [->|Hn].
  - rewrite lookup_singleton_eq. cbn. destruct p; [|done]. by intros [= <-].
  - by rewrite lookup_singleton_ne.
Qed.

(** X18 at a chain whose only link has no parameter *)
Lemma to_cpu_sparse_without_parameters_witness :
  (∀ p lf, lookup_path p (net pooling_chain) = Some (Leaf lf) →
           leaf_params lf = [])
  ∧ returned (to_cpu_sparse (H := reference_host) pooling_chain)
    = Raise ZeroDivisionError.
Proof.
  split; [exact pooling_chain_no_parameters|].
  exact (proj1 (to_cpu_sparse_without_parameters (H := reference_host)
                  pooling_chain pooling_chain_no_parameters)).
Defined.

Lemma cpu_chain_flat n c :
  ({["l1" := Leaf (LVDLinear (vd_linear_11 1 (-10) CPU))]}
   : gmap string link) !! n = Some c →
  is_chain c = false.
Proof.
  destruct (decide (n = "l1")) as [->|Hn].
  - rewrite lookup_singleton_eq. by intros [= <-].
  - by rewrite lookup_singleton_ne.
Qed.

(** X19 at a chain with one VD linear layer *)
Lemma to_cpu_sparse_flat_witness :
  returned (to_cpu_sparse (H := reference_host) cpu_chain) = Ok ()
  ∧ net (self_after (to_cpu_sparse (H := reference_host) cpu_chain))
    = Chain CPU
        (sparsify (H := reference_host) ∘ to_cpu
           <$> {["l1" := Leaf (LVDLinear (vd_linear_11 1 (-10) CPU))]}).
Proof.
  assert (returned (to_cpu_sparse (H := reference_host) cpu_chain) = Ok ())
    as Hret by (vm_compute; reflexivity).
  split; [exact Hret|].
  exact (to_cpu_sparse_flat (H := reference_host) cpu_chain CPU _ eq_refl
           cpu_chain_flat Hret).
Defined.

(** X20 at a chain with one VD linear layer *)
Lemma calc_loss_with_vd_layers_witness :
  ∃ value,
    returned (calc_loss (H := reference_host) (Config true 0) cpu_chain
                (array11 1) (NdArray [1] [0%R]) true false true)
    = Ok value
    ∧ vd_layers (net cpu_chain) ≠ []
    ∧ kl_coef (self_after
                 (calc_loss (H := reference_host) (Config true 0) cpu_chain
                    (array11 1) (NdArray [1] [0%R]) true false true))
      = py_min (0 + tenth) 1.
Proof.
  assert (vd_layers (net cpu_chain) ≠ []) as Hvd
    by (vm_compute; discriminate).
  pose proof (calc_loss_returns (H := reference_host) (Config true 0)
                cpu_chain (array11 1) (NdArray [1] [0%R]) false true Hvd)
    as Hok.
  destruct (returned (calc_loss (H := reference_host) (Config true 0)
                        cpu_chain (array11 1) (NdArray [1] [0%R]) true false
                        true)) as [value|e] eqn:Hret; [|discriminate Hok].
  exists value. split; [reflexivity|].
  destruct (calc_loss_with_vd_layers (H := reference_host) (Config true 0)
              cpu_chain (array11 1) (NdArray [1] [0%R]) false true value
              Hret) as (Hvd' & d & _ & Hrest).
  cbv zeta in Hrest. destruct Hrest as (_ & _ & _ & Hk & _).
  split; [exact Hvd'|exact Hk].
Defined.

(** X24 at a 1×1 convolution without a bias: the call raises in the
    training regime and returns in the inference regime. *)
Lemma dropout_convolution_2d_without_bias_witness :
  conv_b (vdc_base conv_1x1_nobias) = None
  ∧ is_ok (dropout_convolution_2d (H := reference_host) (Config true 0)
             unit_noise conv_1x1_nobias image_1x1) = false
  ∧ is_ok (dropout_convolution_2d (H := reference_host) (Config false 0)
             unit_noise conv_1x1_nobias image_1x1) = true.
Proof.
  split; [reflexivity|]. split.
  - exact (proj1 (dropout_convolution_2d_without_bias (H := reference_host)
                    0 unit_noise conv_1x1_nobias image_1x1 eq_refl)).
  - vm_compute. reflexivity.
Defined.
